(** * mcp-whaileys: the declaration index and its query engine

    A shallow embedding of [src/ast-parser.ts] (class [AstParser]) and the
    properties of its query operations.

    Conventions of the embedding:
    - a JavaScript string is a [string] whose characters are code units
      below 256 (the Latin-1 range of UTF-16);
    - a JavaScript number that counts or scores is a [Z];
    - an optional field [f?: T] is an [option T], [None] standing for
      [undefined] (the field is absent);
    - an array is a [list]; a [Map] is an association list in insertion
      order, which is the order [Map.prototype.values] iterates in. *)

From Stdlib Require Import List String Ascii Bool ZArith NArith Lia.
From Stdlib Require Import Permutation Sorted DecimalString.
Import ListNotations.

Local Open Scope string_scope.
Local Open Scope Z_scope.

(** ** JavaScript string primitives *)

Module JsString.

(** Code units matched by the regular-expression class [\s] and removed
    by [String.prototype.trim]: TAB, LF, VT, FF, CR, SPACE and NBSP. *)
Definition is_space (c : ascii) : bool :=
  let n := N_of_ascii c in
  (((9 <=? n) && (n <=? 13)) || (n =? 32) || (n =? 160))%N.

(** [String.prototype.toLowerCase] on one code unit: [A-Z] and the
    Latin-1 capitals U+00C0..U+00DE (U+00D7, the multiplication sign,
    apart) move up by 32. *)
Definition lower_char (c : ascii) : ascii :=
  let n := N_of_ascii c in
  if (((65 <=? n) && (n <=? 90))
      || ((192 <=? n) && (n <=? 222) && negb (n =? 215)))%N
  then ascii_of_N (n + 32) else c.

Fixpoint toLowerCase (s : string) : string :=
  match s with
  | EmptyString => EmptyString
  | String c s' => String (lower_char c) (toLowerCase s')
  end.

(** [s.startsWith(p)] *)
Fixpoint startsWith (s p : string) : bool :=
  match p, s with
  | EmptyString, _ => true
  | String _ _, EmptyString => false
  | String b p', String a s' => Ascii.eqb a b && startsWith s' p'
  end.

(** [s.includes(t)]: [t] occurs in [s] at some position. *)
Fixpoint includes (s t : string) : bool :=
  startsWith s t ||
  match s with
  | EmptyString => false
  | String _ s' => includes s' t
  end.

(** [s.split(/\s+/)]: the pieces of [s] between maximal runs of white
    space.  A run at the very start or end of [s] leaves an empty piece
    there, and the empty string splits into one empty piece.
    [in_run] records that the previous code unit was white space,
    [cur] is the piece being read. *)
Fixpoint split_spaces_from (in_run : bool) (cur s : string) : list string :=
  match s with
  | EmptyString => [cur]
  | String c s' =>
      if is_space c then
        if in_run then split_spaces_from true EmptyString s'
        else cur :: split_spaces_from true EmptyString s'
      else split_spaces_from false (cur ++ String c EmptyString) s'
  end.

Definition split_spaces (s : string) : list string :=
  split_spaces_from false EmptyString s.

(** [xs.join(sep)] *)
Definition join (sep : string) (xs : list string) : string :=
  String.concat sep xs.

Fixpoint rev_string (acc s : string) : string :=
  match s with
  | EmptyString => acc
  | String c s' => rev_string (String c acc) s'
  end.

Fixpoint trimStart (s : string) : string :=
  match s with
  | EmptyString => EmptyString
  | String c s' => if is_space c then trimStart s' else s
  end.

(** [s.trim()] *)
Definition trim (s : string) : string :=
  rev_string EmptyString
    (trimStart (rev_string EmptyString (trimStart s))).

(** Every code unit of [s] is white space. *)
Fixpoint allSpaces (s : string) : bool :=
  match s with
  | EmptyString => true
  | String c s' => is_space c && allSpaces s'
  end.

(** A string is truthy when it is not empty. *)
Definition truthy (s : string) : bool :=
  match s with EmptyString => false | _ => true end.

(** [xs.slice(0, n)] for an integral [n]: a negative [n] counts from
    the end of the array. *)
Definition slice0 {A} (n : Z) (xs : list A) : list A :=
  if n <? 0
  then firstn (Z.to_nat (Z.max (Z.of_nat (List.length xs) + n) 0)) xs
  else firstn (Z.to_nat n) xs.

End JsString.

Import JsString.

(** ** The data model *)

Inductive ExtractedKind :=
| KInterface | KType | KEnum | KFunction | KClass
| KVariable | KNamespace | KReExport.

(** The string each kind is at run time. *)
Definition kindString (k : ExtractedKind) : string :=
  match k with
  | KInterface => "interface"
  | KType => "type"
  | KEnum => "enum"
  | KFunction => "function"
  | KClass => "class"
  | KVariable => "variable"
  | KNamespace => "namespace"
  | KReExport => "re-export"
  end.

Definition allKinds : list ExtractedKind :=
  [KInterface; KType; KEnum; KFunction; KClass; KVariable; KNamespace; KReExport].

Definition kind_eqb (a b : ExtractedKind) : bool :=
  match a, b with
  | KInterface, KInterface | KType, KType | KEnum, KEnum
  | KFunction, KFunction | KClass, KClass | KVariable, KVariable
  | KNamespace, KNamespace | KReExport, KReExport => true
  | _, _ => false
  end.

Module PropertyInfo.
Record t := mk {
  name : string;
  type : string;
  optional : bool;
  readonly : bool;
  docs : option string;
  isMethod : bool;
  isCallSignature : bool;
  isIndexSignature : bool;
  parameters : option (list string);
  returnType : option string
}.
End PropertyInfo.

Module TypeParameter.
Record t := mk {
  name : string;
  constraint : option string;
  default : option string
}.
End TypeParameter.

Record ExtractedType := mkExtractedType {
  name : string;
  kind : ExtractedKind;
  exported : bool;
  file : string;
  module : string;
  signature : string;
  fullSignature : option string;
  properties : option (list PropertyInfo.t);
  methods : option (list PropertyInfo.t);
  members : option (list string);
  typeParameters : option (list TypeParameter.t);
  extends : option (list string);
  implements : option (list string);
  docs : option string;
  value : option string;
  reExportSource : option string;
  lineNumber : option Z
}.

(** ** Stable sorting

    [Array.prototype.sort] is stable, and with a comparator [(a, b) =>
    key b - key a] it orders by descending key.  The result of a stable
    sort is determined by the keys, so it is written here as the
    insertion sort that puts the head of the array behind the later
    elements of strictly greater key only. *)

Section StableSort.
Context {A : Type} (key : A -> Z).

Fixpoint insert_desc (x : A) (l : list A) : list A :=
  match l with
  | [] => [x]
  | y :: l' =>
      if key y >? key x then y :: insert_desc x l' else x :: y :: l'
  end.

Fixpoint sort_desc (l : list A) : list A :=
  match l with
  | [] => []
  | x :: l' => insert_desc x (sort_desc l')
  end.

(** The order of the result: no element before one of greater key. *)
Definition descending (a b : A) : Prop := key a >= key b.
End StableSort.

(** ** Fuzzy search (lines 609-636) *)

(** [type.docs || ''] *)
Definition docsOrEmpty (t : ExtractedType) : string :=
  match docs t with
  | Some d => d
  | None => EmptyString
  end.

(** The body of the [for (const word of words)] loop, on the running
    score. *)
Definition wordStep (lowerName lowerDocs : string) (score : Z) (word : string) : Z :=
  let score := if includes lowerName word then score + 10 else score in
  let score := if includes lowerDocs word then score + 5 else score in
  score.

(** The score the [map] callback gives to one declaration. *)
Definition scoreOf (lowerQuery : string) (words : list string) (t : ExtractedType) : Z :=
  let score := 0 in
  let lowerName := toLowerCase (name t) in
  let lowerDocs := toLowerCase (docsOrEmpty t) in
  let score :=
    if String.eqb lowerName lowerQuery then score + 100
    else if startsWith lowerName lowerQuery then score + 50
    else if includes lowerName lowerQuery then score + 25
    else score in
  fold_left (wordStep lowerName lowerDocs) words score.

(** [fuzzySearch(query, maxResults = 20)] over the array [allTypes] that
    [this.extractAllTypes()] returned.  [None] for [maxResults] is the
    omitted argument. *)
Definition fuzzySearch (allTypes : list ExtractedType)
    (query : string) (maxResults : option Z) : list ExtractedType :=
  let maxResults := match maxResults with Some n => n | None => 20 end in
  let lowerQuery := toLowerCase query in
  let words := split_spaces lowerQuery in
  let scored := map (fun t => (t, scoreOf lowerQuery words t)) allTypes in
  map fst
    (slice0 maxResults
       (sort_desc snd
          (filter (fun s => snd s >? 0) scored))).

(** The same score in the words of the specification: one bonus for the
    whole query (100 for the equal name, else 50 for a prefix, else 25 for
    an occurrence, all on lower-cased text) plus, for every piece of the
    lower-cased query, 10 when the name contains it and 5 when the
    documentation text contains it. *)
Definition wholeQueryBonus (lowerName lowerQuery : string) : Z :=
  if String.eqb lowerName lowerQuery then 100
  else if startsWith lowerName lowerQuery then 50
  else if includes lowerName lowerQuery then 25
  else 0.

Definition tokenBonus (lowerName lowerDocs token : string) : Z :=
  (if includes lowerName token then 10 else 0)
  + (if includes lowerDocs token then 5 else 0).

Definition specScore (query : string) (t : ExtractedType) : Z :=
  let lowerName := toLowerCase (name t) in
  let lowerDocs := toLowerCase (docsOrEmpty t) in
  wholeQueryBonus lowerName (toLowerCase query)
  + fold_right Z.add 0
      (map (tokenBonus lowerName lowerDocs) (split_spaces (toLowerCase query))).

(** ** Kind filter (lines 647-650)

    The parameter is typed [ExtractedKind], which is erased at run time:
    the function receives whatever string the caller passes.  A call
    either returns normally or throws. *)

Inductive completion (A : Type) :=
| Normal (result : A)
| Throw (message : string).
Arguments Normal {A} result.
Arguments Throw {A} message.

Definition getTypesByKind (allTypes : list ExtractedType) (kind_ : string)
  : completion (list ExtractedType) :=
  Normal (filter (fun t => String.eqb (kindString (kind t)) kind_) allTypes).

(** ** Statistics (lines 652-734) *)

Module ModuleStatistics.
Record t := mk {
  module : string;
  interfaces : Z;
  types : Z;
  enums : Z;
  functions : Z;
  classes : Z;
  variables : Z;
  namespaces : Z;
  reExports : Z;
  total : Z
}.

(** The record [moduleMap.set] stores for a module seen for the first
    time. *)
Definition zero (m : string) : t := mk m 0 0 0 0 0 0 0 0 0.

(** [stats.total++] followed by the [switch (type.kind)]. *)
Definition count (k : ExtractedKind) (s : t) : t :=
  let s := mk (module s) (interfaces s) (types s) (enums s) (functions s)
             (classes s) (variables s) (namespaces s) (reExports s)
             (total s + 1) in
  match k with
  | KInterface => mk (module s) (interfaces s + 1) (types s) (enums s) (functions s)
                    (classes s) (variables s) (namespaces s) (reExports s) (total s)
  | KType => mk (module s) (interfaces s) (types s + 1) (enums s) (functions s)
               (classes s) (variables s) (namespaces s) (reExports s) (total s)
  | KEnum => mk (module s) (interfaces s) (types s) (enums s + 1) (functions s)
               (classes s) (variables s) (namespaces s) (reExports s) (total s)
  | KFunction => mk (module s) (interfaces s) (types s) (enums s) (functions s + 1)
                   (classes s) (variables s) (namespaces s) (reExports s) (total s)
  | KClass => mk (module s) (interfaces s) (types s) (enums s) (functions s)
                (classes s + 1) (variables s) (namespaces s) (reExports s) (total s)
  | KVariable => mk (module s) (interfaces s) (types s) (enums s) (functions s)
                   (classes s) (variables s + 1) (namespaces s) (reExports s) (total s)
  | KNamespace => mk (module s) (interfaces s) (types s) (enums s) (functions s)
                    (classes s) (variables s) (namespaces s + 1) (reExports s) (total s)
  | KReExport => mk (module s) (interfaces s) (types s) (enums s) (functions s)
                   (classes s) (variables s) (namespaces s) (reExports s + 1) (total s)
  end.
End ModuleStatistics.

(** [byKind]: an object with one numeric property per kind, in the order
    of the object literal. *)
Definition KindCounts := list (ExtractedKind * Z).

Definition byKindInit : KindCounts :=
  [(KInterface, 0); (KType, 0); (KEnum, 0); (KFunction, 0);
   (KClass, 0); (KVariable, 0); (KNamespace, 0); (KReExport, 0)].

(** [byKind[k]++] on a property that exists. *)
Definition bumpKind (k : ExtractedKind) (c : KindCounts) : KindCounts :=
  map (fun e => if kind_eqb (fst e) k then (fst e, snd e + 1) else e) c.

Definition kindCount (k : ExtractedKind) (c : KindCounts) : option Z :=
  option_map snd (find (fun e => kind_eqb (fst e) k) c).

(** [moduleMap]: a [Map<string, ModuleStatistics>]. *)
Definition ModuleMap := list (string * ModuleStatistics.t).

Definition mapHas (m : string) (mm : ModuleMap) : bool :=
  existsb (fun e => String.eqb (fst e) m) mm.

(** [moduleMap.set(m, v)] for a key that is not in the map yet: the entry
    goes last. *)
Definition mapSetNew (m : string) (v : ModuleStatistics.t) (mm : ModuleMap) : ModuleMap :=
  (mm ++ [(m, v)])%list.

(** Mutating the record [moduleMap.get(m)] refers to. *)
Definition mapUpdate (m : string) (f : ModuleStatistics.t -> ModuleStatistics.t)
    (mm : ModuleMap) : ModuleMap :=
  map (fun e => if String.eqb (fst e) m then (fst e, f (snd e)) else e) mm.

(** One round of the [for (const type of allTypes)] loop. *)
Definition statsStep (st : KindCounts * ModuleMap) (t : ExtractedType)
  : KindCounts * ModuleMap :=
  let '(byKind, moduleMap) := st in
  let byKind := bumpKind (kind t) byKind in
  let moduleMap :=
    if negb (mapHas (module t) moduleMap)
    then mapSetNew (module t) (ModuleStatistics.zero (module t)) moduleMap
    else moduleMap in
  let moduleMap := mapUpdate (module t) (ModuleStatistics.count (kind t)) moduleMap in
  (byKind, moduleMap).

Module LibraryStatistics.
Record t := mk {
  totalDeclarations : Z;
  byKind : KindCounts;
  byModule : list ModuleStatistics.t;
  topInterfaces : list string;
  topTypes : list string;
  topFunctions : list string
}.
End LibraryStatistics.

Definition topOfKind (k : ExtractedKind) (allTypes : list ExtractedType) : list string :=
  map name (slice0 10 (filter (fun t => kind_eqb (kind t) k) allTypes)).

Definition getStatistics (allTypes : list ExtractedType) : LibraryStatistics.t :=
  let '(byKind, moduleMap) := fold_left statsStep allTypes (byKindInit, []) in
  LibraryStatistics.mk
    (Z.of_nat (List.length allTypes))
    byKind
    (sort_desc ModuleStatistics.total (map snd moduleMap))
    (topOfKind KInterface allTypes)
    (topOfKind KType allTypes)
    (topOfKind KFunction allTypes).

(** ** Hierarchy (lines 736-764) *)

Module Hierarchy.
Record t := mk {
  type : ExtractedType;
  parents : list string;
  children : list string
}.
End Hierarchy.

(** [xs?.some((e) => e.includes(target))]: [undefined] when the list is
    absent, which the [if] takes as false. *)
Definition someIncludes (xs : option (list string)) (target : string) : bool :=
  match xs with
  | Some l => existsb (fun e => includes e target) l
  | None => false
  end.

Definition orEmpty {A} (xs : option (list A)) : list A :=
  match xs with Some l => l | None => [] end.

(** What one round of the [for (const t of allTypes)] loop pushes onto
    [children]. *)
Definition childEntries (target : string) (t : ExtractedType) : list string :=
  ((if someIncludes (extends t) target then [name t] else [])
   ++ (if someIncludes (implements t) target then [name t] else []))%list.

(** [allTypes.find((t) => t.name.toLowerCase() === typeName.toLowerCase())] *)
Definition lookupByName (allTypes : list ExtractedType) (typeName : string)
  : option ExtractedType :=
  find (fun t => String.eqb (toLowerCase (name t)) (toLowerCase typeName)) allTypes.

Definition getTypeHierarchy (allTypes : list ExtractedType) (typeName : string)
  : option Hierarchy.t :=
  match lookupByName allTypes typeName with
  | None => None
  | Some type =>
      let parents := (orEmpty (extends type) ++ orEmpty (implements type))%list in
      let children := flat_map (childEntries (name type)) allTypes in
      Some (Hierarchy.mk type parents children)
  end.

(** ** The declaration normalizer *)

(** The double-quote character of the template literals, and the
    newline of [join]. *)
Definition dquote : string := String "034"%char EmptyString.

Definition newline : string := String "010"%char EmptyString.

(** *** Re-export clauses (lines 531-574)

    What the function reads of a ts-morph [ExportDeclaration] and of its
    [ExportSpecifier]s. *)

Module ExportSpecifier.
Record t := mk {
  getName : string;
  getAliasNode : option string   (* the text of the alias, when there is one *)
}.
End ExportSpecifier.

Module ExportDeclaration.
Record t := mk {
  getModuleSpecifierValue : option string;
  getNamedExports : list ExportSpecifier.t;
  isNamespaceExport : bool;
  getStartLineNumber : Z
}.
End ExportDeclaration.

(** The callback of [namedExports.map]. *)
Definition renderSpecifier (ne : ExportSpecifier.t) : string :=
  match ExportSpecifier.getAliasNode ne with
  | Some alias => ExportSpecifier.getName ne ++ " as " ++ alias
  | None => ExportSpecifier.getName ne
  end.

Definition extractReExport (exportDecl : ExportDeclaration.t) (file module : string)
  : option ExtractedType :=
  match ExportDeclaration.getModuleSpecifierValue exportDecl with
  | None => None
  | Some moduleSpecifier =>
      if negb (truthy moduleSpecifier) then None
      else
        let namedExports := ExportDeclaration.getNamedExports exportDecl in
        if ExportDeclaration.isNamespaceExport exportDecl then
          Some {|
            name := "* from " ++ dquote ++ moduleSpecifier ++ dquote;
            kind := KReExport;
            exported := true;
            file := file;
            module := module;
            signature := "export * from " ++ dquote ++ moduleSpecifier ++ dquote;
            fullSignature := None;
            properties := None;
            methods := None;
            members := None;
            typeParameters := None;
            extends := None;
            implements := None;
            docs := None;
            value := None;
            reExportSource := Some moduleSpecifier;
            lineNumber := Some (ExportDeclaration.getStartLineNumber exportDecl)
          |}
        else if (0 <? List.length namedExports)%nat then
          let names := map renderSpecifier namedExports in
          Some {|
            name := "{ " ++ join ", " names ++ " } from " ++ dquote ++ moduleSpecifier ++ dquote;
            kind := KReExport;
            exported := true;
            file := file;
            module := module;
            signature :=
              "export { " ++ join ", " names ++ " } from " ++ dquote ++ moduleSpecifier ++ dquote;
            fullSignature := None;
            properties := None;
            methods := None;
            members := Some names;
            typeParameters := None;
            extends := None;
            implements := None;
            docs := None;
            value := None;
            reExportSource := Some moduleSpecifier;
            lineNumber := Some (ExportDeclaration.getStartLineNumber exportDecl)
          |}
        else None
  end.

(** *** Type-text simplification (lines 576-583) *)

Module Regex.

(** [s] without its first [n] code units. *)
Fixpoint drop (n : nat) (s : string) : string :=
  match n, s with
  | O, _ => s
  | S n', String _ s' => drop n' s'
  | S _, EmptyString => EmptyString
  end.

(** Length of the longest prefix of [s] made of code units in [cls]:
    what a greedy [cls*] consumes. *)
Fixpoint run (cls : ascii -> bool) (s : string) : nat :=
  match s with
  | String c s' => if cls c then S (run cls s') else O
  | EmptyString => O
  end.

(** [s.replace(re, by)] for a regular expression with the [g] flag that
    matches no empty string.  [matchAt s] is the length of the match of
    [re] at the start of [s].  The scan goes left to right; after a
    match it resumes behind the match, [skip] counting the code units
    of the match still to pass over. *)
Fixpoint replaceFrom (matchAt : string -> option nat) (by_ : string)
    (skip : nat) (s : string) : string :=
  match s with
  | EmptyString => EmptyString
  | String c s' =>
      match skip with
      | S k => replaceFrom matchAt by_ k s'
      | O =>
          match matchAt s with
          | Some (S n) => by_ ++ replaceFrom matchAt by_ n s'
          | _ => String c (replaceFrom matchAt by_ O s')
          end
      end
  end.

Definition replaceAll (matchAt : string -> option nat) (by_ s : string) : string :=
  replaceFrom matchAt by_ O s.

Definition notChar (x : ascii) (c : ascii) : bool := negb (Ascii.eqb c x).

(** [prefix [^)]+ \) \.] at the start of [s].  The greedy class stops
    at the first [)]; giving code units back cannot help, since the
    next one would then not be a [)]. *)
Definition matchCall (prefix : string) (s : string) : option nat :=
  if startsWith s prefix then
    let r := drop (String.length prefix) s in
    let k := run (notChar ")"%char) r in
    if (1 <=? k)%nat && startsWith (drop k r) ")."
    then Some (String.length prefix + k + 2)%nat
    else None
  else None.

(** [/import\([^)]+\)\./] *)
Definition matchImport : string -> option nat := matchCall "import(".

(** [/typeof import\([^)]+\)\./] *)
Definition matchTypeofImport : string -> option nat := matchCall "typeof import(".

(** Position of the last [/] of [r] that has at least one code unit
    before it, [i] being the position of the start of [r]. *)
Fixpoint lastSlash (i : nat) (r : string) : option nat :=
  match r with
  | EmptyString => None
  | String c r' =>
      match lastSlash (S i) r' with
      | Some j => Some j
      | None => if Ascii.eqb c "/"%char && (1 <=? i)%nat then Some i else None
      end
  end.

(** [s] cut to its first [n] code units. *)
Fixpoint take (n : nat) (s : string) : string :=
  match n, s with
  | S n', String c s' => String c (take n' s')
  | _, _ => EmptyString
  end.

(** The third expression, at the start of [s]: [d:/], then a greedy
    run of code units other than the double quote, then [/].  The run
    goes to the next double quote (or the end) and then gives back code
    units down to its last [/]. *)
Definition matchDrivePath (s : string) : option nat :=
  if startsWith s "d:/" then
    let r := drop 3 s in
    let k := run (notChar "034"%char) r in
    match lastSlash 0 (take k r) with
    | Some j => Some (3 + j + 1)%nat
    | None => None
    end
  else None.

(** [/\s+/] *)
Definition matchSpaces (s : string) : option nat :=
  match run is_space s with
  | O => None
  | k => Some k
  end.

End Regex.

Definition simplifyType (type : string) : string :=
  trim
    (Regex.replaceAll Regex.matchSpaces " "
       (Regex.replaceAll Regex.matchDrivePath ""
          (Regex.replaceAll Regex.matchTypeofImport ""
             (Regex.replaceAll Regex.matchImport "" type)))).

(** *** Documentation (lines 585-598)

    The function casts its node to an object that may have a [getJsDocs]
    method, whose elements may have [getDescription] and [getText]
    methods.  [None] is a method that is not there. *)

Module JSDoc.
Record t := mk {
  getDescription : option string;
  getText : option string
}.
End JSDoc.

Module DocNode.
Record t := mk {
  getJsDocs : option (list JSDoc.t)
}.
End DocNode.

(** [d.getDescription?.() || d.getText?.()] *)
Definition descriptionOrText (d : JSDoc.t) : option string :=
  match JSDoc.getDescription d with
  | Some s => if truthy s then Some s else JSDoc.getText d
  | None => JSDoc.getText d
  end.

(** [.filter(Boolean)] on an array of strings and [undefined]s. *)
Fixpoint filterBoolean (xs : list (option string)) : list string :=
  match xs with
  | [] => []
  | Some s :: xs' => if truthy s then s :: filterBoolean xs' else filterBoolean xs'
  | None :: xs' => filterBoolean xs'
  end.

Definition getJsDocs (node : DocNode.t) : option string :=
  match DocNode.getJsDocs node with
  | Some (d :: ds) =>
      Some (trim (join newline (filterBoolean (map descriptionOrText (d :: ds)))))
  | _ => None
  end.

(** The documentation in the words of the specification: the
    descriptions of the attached comments joined by newlines, absent
    when there is no comment. *)
Definition jsDocDescription (d : JSDoc.t) : string :=
  match JSDoc.getDescription d with Some s => s | None => EmptyString end.

Definition specDocs (node : DocNode.t) : option string :=
  match DocNode.getJsDocs node with
  | Some (d :: ds) =>
      Some (join newline (map jsDocDescription (d :: ds)))
  | _ => None
  end.

(** ** The corpus index (lines 94-204)

    ts-morph's [SourceFile], the [path] functions and the seven
    kind-specific extractors for declared kinds stay abstract: the index
    operations below only pass their results along. *)

Section Corpus.

Variable SourceFile : Type.
Variable getFilePath : SourceFile -> string.
Variable getExportDeclarations : SourceFile -> list ExportDeclaration.t.

(** [this.getRelativePath] and [this.getModuleName], on a file path. *)
Variable getRelativePath : string -> string.
Variable getModuleName : string -> string.

(** The records that the first seven loops of [extractTypes] push for
    the exported interfaces, type aliases, enums, functions, classes,
    variables and namespaces of a file, given its relative path and
    module name. *)
Variable extractDeclared : SourceFile -> string -> string -> list ExtractedType.

Definition extractTypes (sourceFile : SourceFile) : list ExtractedType :=
  let relativePath := getRelativePath (getFilePath sourceFile) in
  let moduleName := getModuleName (getFilePath sourceFile) in
  (extractDeclared sourceFile relativePath moduleName
   ++ flat_map
        (fun exportDecl =>
           match extractReExport exportDecl relativePath moduleName with
           | Some reExport => [reExport]
           | None => []
           end)
        (getExportDeclarations sourceFile))%list.

(** The parser object: the source files its ts-morph project holds and
    the cache. *)
Record AstParser := mkAstParser {
  project : list SourceFile;
  cachedTypes : option (list ExtractedType)
}.

(** [new AstParser(path)] *)
Definition newAstParser : AstParser := mkAstParser [] None.

(** [this.addSourceFiles(['**/*.ts'])], [disk] being the source files
    under the root at the time of the call: the project gains those it
    does not hold yet. *)
Definition addSourceFiles (disk : list SourceFile) (p : list SourceFile)
  : list SourceFile :=
  (p ++ filter
          (fun f => negb (existsb
                            (fun g => String.eqb (getFilePath g) (getFilePath f)) p))
          disk)%list.

(** The [continue] test of the loop over the project's files. *)
Definition skipped (sourceFile : SourceFile) : bool :=
  includes (getFilePath sourceFile) "Tests"
  || includes (getFilePath sourceFile) ".d.ts".

(** [extractAllTypes()]: the returned array and the parser afterwards.
    An array, empty or not, is truthy; only [null] fails the test of
    the first line. *)
Definition extractAllTypes (disk : list SourceFile) (this : AstParser)
  : list ExtractedType * AstParser :=
  match cachedTypes this with
  | Some cached => (cached, this)
  | None =>
      let files := addSourceFiles disk (project this) in
      let types :=
        flat_map extractTypes (filter (fun f => negb (skipped f)) files) in
      (types, mkAstParser files (Some types))
  end.

End Corpus.

(** The score of a declaration for a query, as [fuzzySearch] computes
    it: [lowerQuery] and [words] come from the query. *)
Definition queryScore (query : string) (t : ExtractedType) : Z :=
  scoreOf (toLowerCase query) (split_spaces (toLowerCase query)) t.

(** No undocumented declaration stands before a documented one. *)
Fixpoint documentedFirst (l : list ExtractedType) : bool :=
  match l with
  | [] => true
  | t :: l' =>
      match docs t with
      | Some _ => documentedFirst l'
      | None => forallb (fun u => match docs u with Some _ => false | None => true end) l'
      end
  end.

(** ** Measures used in the statements *)

Definition sumZ (l : list Z) : Z := fold_right Z.add 0 l.

(** The number of declarations of kind [k] in an index. *)
Definition declarationsOfKind (k : ExtractedKind) (allTypes : list ExtractedType) : Z :=
  Z.of_nat (List.length (filter (fun t => kind_eqb (kind t) k) allTypes)).

(** The keys of a module map, the totals of its records, and the fact
    that every record is filed under its own module name. *)
Definition keys (mm : ModuleMap) : list string := map fst mm.

Definition totals (mm : ModuleMap) : list Z :=
  map (fun e => ModuleStatistics.total (snd e)) mm.

Definition selfNamed (mm : ModuleMap) : Prop :=
  Forall (fun e => ModuleStatistics.module (snd e) = fst e) mm.

(** The loop invariant of [getStatistics]: the state after the
    declarations [done] have been counted. *)
Definition statsInv (done : list ExtractedType) (st : KindCounts * ModuleMap) : Prop :=
  map fst (fst st) = allKinds
  /\ (forall k, kindCount k (fst st) = Some (declarationsOfKind k done))
  /\ sumZ (map snd (fst st)) = Z.of_nat (List.length done)
  /\ NoDup (keys (snd st))
  /\ selfNamed (snd st)
  /\ sumZ (totals (snd st)) = Z.of_nat (List.length done)
  /\ (forall m, In m (keys (snd st)) <-> In m (map module done)).

(** Some string of the (possibly absent) list [xs] contains [target]. *)
Definition mentions (xs : option (list string)) (target : string) : Prop :=
  exists s, In s (orEmpty xs) /\ includes s target = true.

(** The strings of the eight kinds. *)
Definition kindStrings : list string := map kindString allKinds.

(** ** Sample declarations for the examples

    A declaration with the given name, kind, module, documentation and
    supertype lists, in file [index.ts] of its module. *)
Definition sampleDecl (n : string) (k : ExtractedKind) (m : string)
    (d : option string) (ext impl : option (list string)) : ExtractedType :=
  {| name := n; kind := k; exported := true;
     file := m ++ "/index.ts"; module := m;
     signature := kindString k ++ " " ++ n;
     fullSignature := None; properties := None; methods := None;
     members := None; typeParameters := None;
     extends := ext; implements := impl;
     docs := d; value := None; reExportSource := None;
     lineNumber := Some 1 |}.

(** Two declarations whose names differ in case only, and a class that
    extends the second. *)
Definition caseIndex : list ExtractedType :=
  [ sampleDecl "proto" KVariable "Utils" None None None;
    sampleDecl "Proto" KInterface "Types" None None None;
    sampleDecl "WAProto" KInterface "Types" None (Some ["Proto"]) None ].

(** A class that refers to itself in its supertype, and a class that
    names it in both of its lists. *)
Definition hierarchyIndex : list ExtractedType :=
  [ sampleDecl "Node" KClass "Types" None (Some ["Comparable<Node>"]) None;
    sampleDecl "Tree" KClass "Types" None (Some ["Node"]) (Some ["Iterable<Node>"]) ].

(** A declaration node with a described comment and a comment of tags
    only, and one with the comment of tags alone. *)
Definition describedNode : DocNode.t :=
  DocNode.mk (Some [ JSDoc.mk (Some "Sends a message.") (Some "/** Sends a message. */");
                     JSDoc.mk (Some "") (Some "/** @deprecated */") ]).

Definition tagOnlyNode : DocNode.t :=
  DocNode.mk (Some [ JSDoc.mk (Some "") (Some "/** @deprecated */") ]).

Definition twoDescriptionsNode : DocNode.t :=
  DocNode.mk (Some [ JSDoc.mk (Some "Sends a message.") (Some "/** Sends a message. */");
                     JSDoc.mk (Some "Use with care.") (Some "/** Use with care. @internal */") ]).

(** The clauses [export * from ./a] and [export { x, y as z } from ./b]
    (specifiers in double quotes in the source), on lines 1 and 2. *)
Definition namespaceClause : ExportDeclaration.t :=
  ExportDeclaration.mk (Some "./a") [] true 1.

Definition namedClause : ExportDeclaration.t :=
  ExportDeclaration.mk (Some "./b")
    [ExportSpecifier.mk "x" None; ExportSpecifier.mk "y" (Some "z")] false 2.

Definition sampleIndex : list ExtractedType :=
  [ sampleDecl "Baz" KInterface "Types" None None None;
    sampleDecl "xFoo" KType "Types" None None None;
    sampleDecl "FooBar" KClass "Socket" (Some "Extends foo") (Some ["Foo"]) (Some ["Foo"]);
    sampleDecl "Foo" KClass "Socket" (Some "The base") None None ].

(** ** Further queries of the index *)

(** [searchType(typeName)] (lines 600-607): the first declaration whose
    lower-cased name is the lower-cased query or, when there is none, the
    first whose lower-cased name contains it. *)
Definition searchType (allTypes : list ExtractedType) (typeName : string)
  : option ExtractedType :=
  let lowerName := toLowerCase typeName in
  match find (fun t => String.eqb (toLowerCase (name t)) lowerName) allTypes with
  | Some t => Some t
  | None => find (fun t => includes (toLowerCase (name t)) lowerName) allTypes
  end.

(** [getTypesFromModule(moduleName)] (lines 638-645) *)
Definition getTypesFromModule (allTypes : list ExtractedType) (moduleName : string)
  : list ExtractedType :=
  let lowerModule := toLowerCase moduleName in
  filter
    (fun t => String.eqb (toLowerCase (module t)) lowerModule
              || includes (toLowerCase (file t)) lowerModule)
    allTypes.

(** The getters of lines 790-820, each a call of [getTypesByKind]. *)
Definition getVariables (allTypes : list ExtractedType) := getTypesByKind allTypes "variable".
Definition getNamespaces (allTypes : list ExtractedType) := getTypesByKind allTypes "namespace".
Definition getInterfaces (allTypes : list ExtractedType) := getTypesByKind allTypes "interface".
Definition getEnums (allTypes : list ExtractedType) := getTypesByKind allTypes "enum".
Definition getFunctions (allTypes : list ExtractedType) := getTypesByKind allTypes "function".
Definition getClasses (allTypes : list ExtractedType) := getTypesByKind allTypes "class".
Definition getTypes (allTypes : list ExtractedType) := getTypesByKind allTypes "type".

(** [getConstants()]: the variables whose signature starts with [const]. *)
Definition getConstants (allTypes : list ExtractedType)
  : completion (list ExtractedType) :=
  match getVariables allTypes with
  | Normal variables_ =>
      Normal (filter (fun v => startsWith (signature v) "const") variables_)
  | Throw message => Throw message
  end.

(** *** Dependencies (lines 766-788) *)

Module DependencyInfo.
Record t := mk {
  module : string;
  imports : list string;
  exports : list string;
  reExportsFrom : list string
}.

(** [info.exports.push(n)] and [info.reExportsFrom.push(s)] *)
Definition pushExport (n : string) (d : t) : t :=
  mk (module d) (imports d) (exports d ++ [n])%list (reExportsFrom d).

Definition pushReExport (s : string) (d : t) : t :=
  mk (module d) (imports d) (exports d) (reExportsFrom d ++ [s])%list.
End DependencyInfo.

(** [dependencies]: a [Map<string, DependencyInfo>]. *)
Definition DependencyMap := list (string * DependencyInfo.t).

Definition depHas (m : string) (dm : DependencyMap) : bool :=
  existsb (fun e => String.eqb (fst e) m) dm.

(** Mutating the record [dependencies.get(m)] refers to. *)
Definition depUpdate (m : string) (f : DependencyInfo.t -> DependencyInfo.t)
    (dm : DependencyMap) : DependencyMap :=
  map (fun e => if String.eqb (fst e) m then (fst e, f (snd e)) else e) dm.

(** [type.kind === 're-export' && type.reExportSource]: the source when
    the condition holds. *)
Definition reExportSourceOf (t : ExtractedType) : option string :=
  if kind_eqb (kind t) KReExport then
    match reExportSource t with
    | Some s => if truthy s then Some s else None
    | None => None
    end
  else None.

(** One round of the loop of [analyzeDependencies]. *)
Definition depStep (dm : DependencyMap) (t : ExtractedType) : DependencyMap :=
  let dm :=
    if negb (depHas (module t) dm)
    then (dm ++ [(module t, DependencyInfo.mk (module t) [] [name t] [])])%list
    else depUpdate (module t) (DependencyInfo.pushExport (name t)) dm in
  match reExportSourceOf t with
  | Some s => depUpdate (module t) (DependencyInfo.pushReExport s) dm
  | None => dm
  end.

Definition analyzeDependencies (allTypes : list ExtractedType) : list DependencyInfo.t :=
  map snd (fold_left depStep allTypes []).

(** *** What the statements about modules refer to *)

(** The modules of an index, each once, in the order of their first
    declaration. *)
Definition modulesInOrder (allTypes : list ExtractedType) : list string :=
  rev (nodup string_dec (rev (map module allTypes))).

(** The declarations of module [m]. *)
Definition declarationsOfModule (m : string) (allTypes : list ExtractedType)
  : list ExtractedType :=
  filter (fun t => String.eqb (module t) m) allTypes.

(** The present values of a list of optional values. *)
Fixpoint somes {A} (xs : list (option A)) : list A :=
  match xs with
  | [] => []
  | Some x :: xs' => x :: somes xs'
  | None :: xs' => somes xs'
  end.

(** The dependency record of module [m], read off the index. *)
Definition dependenciesOfModule (allTypes : list ExtractedType) (m : string)
  : DependencyInfo.t :=
  DependencyInfo.mk m []
    (map name (declarationsOfModule m allTypes))
    (somes (map reExportSourceOf (declarationsOfModule m allTypes))).

(** The statistics record of module [m], read off the index. *)
Definition statisticsOfModule (allTypes : list ExtractedType) (m : string)
  : ModuleStatistics.t :=
  let ds := declarationsOfModule m allTypes in
  ModuleStatistics.mk m
    (declarationsOfKind KInterface ds) (declarationsOfKind KType ds)
    (declarationsOfKind KEnum ds) (declarationsOfKind KFunction ds)
    (declarationsOfKind KClass ds) (declarationsOfKind KVariable ds)
    (declarationsOfKind KNamespace ds) (declarationsOfKind KReExport ds)
    (Z.of_nat (List.length ds)).

(** A map whose entries are computed from their keys. *)
Definition tabulate {V} (f : string -> V) (ks : list string) : list (string * V) :=
  map (fun k => (k, f k)) ks.

(** What one round of the loop does to the record of module [m]. *)
Definition depRound (t : ExtractedType) (d : DependencyInfo.t) : DependencyInfo.t :=
  let d := DependencyInfo.pushExport (name t) d in
  match reExportSourceOf t with
  | Some s => DependencyInfo.pushReExport s d
  | None => d
  end.

(** The result list of a call that returned normally. *)
Definition returned {A} (c : completion (list A)) : list A :=
  match c with Normal l => l | Throw _ => [] end.

(** ** Paths (lines 107-118)

    [path.relative] and [path.sep] belong to the host; [sep] is one code
    unit, [/] or the backslash. *)

Definition backslash : ascii := "092"%char.

(** [s.split(sep)] for a separator of one code unit. *)
Fixpoint splitChar (sep : ascii) (cur s : string) : list string :=
  match s with
  | EmptyString => [cur]
  | String c s' =>
      if Ascii.eqb c sep then cur :: splitChar sep EmptyString s'
      else splitChar sep (cur ++ String c EmptyString) s'
  end.

(** [c] occurs in [s]. *)
Fixpoint hasChar (c : ascii) (s : string) : bool :=
  match s with
  | EmptyString => false
  | String a s' => Ascii.eqb a c || hasChar c s'
  end.

Definition getModuleNameOf (relative_ : string -> string -> string) (sep : ascii)
    (whaileysSrcPath filePath : string) : string :=
  let relativePath := relative_ whaileysSrcPath filePath in
  let parts := splitChar sep EmptyString relativePath in
  match parts with
  | first :: _ :: _ => first
  | _ => "root"
  end.

(** [s.replace(/\\/g, '/')] *)
Fixpoint slashes (s : string) : string :=
  match s with
  | EmptyString => EmptyString
  | String c s' => String (if Ascii.eqb c backslash then "/"%char else c) (slashes s')
  end.

Definition getRelativePathOf (relative_ : string -> string -> string)
    (whaileysSrcPath filePath : string) : string :=
  slashes (relative_ whaileysSrcPath filePath).

(** ** The kind-specific extractors (lines 206-529)

    Each ts-morph node is the record of what the extractors read of it;
    a type is present by its text ([getType().getText()]). *)

(** A value that may be [undefined], in a template literal. *)
Definition interpolate (o : option string) : string :=
  match o with Some s => s | None => "undefined" end.

(** A non-negative integer in a template literal. *)
Definition decimal (n : nat) : string := NilEmpty.string_of_uint (Nat.to_uint n).

(** [a || b] on a string that may be [undefined]. *)
Definition orElse (o : option string) (d : string) : string :=
  match o with
  | Some s => if truthy s then s else d
  | None => d
  end.

Module TypeParameterNode.
Record t := mk {
  getName : string;
  getConstraint : option string;
  getDefault : option string
}.
End TypeParameterNode.

Module ParameterNode.
Record t := mk {
  getName : string;
  getTypeText : string;
  hasQuestionToken : bool
}.
End ParameterNode.

(** A property of an interface or of a class; [getScope] is read for
    class members only. *)
Module PropertyNode.
Record t := mk {
  getName : string;
  getTypeText : string;
  hasQuestionToken : bool;
  isReadonly : bool;
  getScope : option string;
  jsDocs : DocNode.t
}.
End PropertyNode.

Module MethodNode.
Record t := mk {
  getName : string;
  getParameters : list ParameterNode.t;
  getReturnTypeText : string;
  hasQuestionToken : bool;
  getScope : option string;
  jsDocs : DocNode.t
}.
End MethodNode.

Module CallSignatureNode.
Record t := mk {
  getParameters : list ParameterNode.t;
  getReturnTypeText : string;
  jsDocs : DocNode.t
}.
End CallSignatureNode.

Module IndexSignatureNode.
Record t := mk {
  getKeyName : string;
  getKeyTypeText : string;
  getReturnTypeText : string;
  isReadonly : bool;
  jsDocs : DocNode.t
}.
End IndexSignatureNode.

Module InterfaceDeclaration.
Record t := mk {
  isExported : bool;
  getName : string;
  getProperties : list PropertyNode.t;
  getMethods : list MethodNode.t;
  getCallSignatures : list CallSignatureNode.t;
  getIndexSignatures : list IndexSignatureNode.t;
  getTypeParameters : list TypeParameterNode.t;
  getExtends : list string;
  jsDocs : DocNode.t;
  getStartLineNumber : Z
}.
End InterfaceDeclaration.

Module TypeAliasDeclaration.
Record t := mk {
  isExported : bool;
  getName : string;
  getTypeParameters : list TypeParameterNode.t;
  getTypeText : string;
  jsDocs : DocNode.t;
  getStartLineNumber : Z
}.
End TypeAliasDeclaration.

(** The value of an enum member: a string, or a number given by the
    text a template literal renders it as. *)
Inductive EnumValue :=
| StringValue (s : string)
| NumberValue (rendered : string).

Module EnumMember.
Record t := mk {
  getName : string;
  getValue : option EnumValue;
  getInitializer : option string
}.
End EnumMember.

Module EnumDeclaration.
Record t := mk {
  isExported : bool;
  getName : string;
  getMembers : list EnumMember.t;
  jsDocs : DocNode.t;
  getStartLineNumber : Z
}.
End EnumDeclaration.

Module FunctionDeclaration.
Record t := mk {
  isExported : bool;
  getName : option string;
  getTypeParameters : list TypeParameterNode.t;
  getParameters : list ParameterNode.t;
  getReturnTypeText : string;
  jsDocs : DocNode.t;
  getStartLineNumber : Z
}.
End FunctionDeclaration.

Module ClassDeclaration.
Record t := mk {
  isExported : bool;
  getName : option string;
  getMethods : list MethodNode.t;
  getProperties : list PropertyNode.t;
  getTypeParameters : list TypeParameterNode.t;
  getExtends : option string;
  getImplements : list string;
  jsDocs : DocNode.t;
  getStartLineNumber : Z
}.
End ClassDeclaration.

Module VariableStatement.
Record t := mk {
  isExported : bool;
  getDeclarationKind : string;
  jsDocs : DocNode.t
}.
End VariableStatement.

Module VariableDeclaration.
Record t := mk {
  getName : string;
  getTypeText : string;
  getInitializer : option string;
  getVariableStatement : option VariableStatement.t;
  getStartLineNumber : Z
}.
End VariableDeclaration.

(** A namespace: the names of the declarations nested in it, by kind. *)
Module ModuleDeclaration.
Record t := mk {
  isExported : bool;
  getName : string;
  getInterfaces : list string;
  getTypeAliases : list string;
  getEnums : list string;
  getFunctions : list (option string);
  getClasses : list (option string);
  getModules : list string;
  jsDocs : DocNode.t;
  getStartLineNumber : Z
}.
End ModuleDeclaration.

Definition extractTypeParameters (nodes : list TypeParameterNode.t)
  : list TypeParameter.t :=
  map (fun tp => TypeParameter.mk (TypeParameterNode.getName tp)
                   (TypeParameterNode.getConstraint tp)
                   (TypeParameterNode.getDefault tp))
    nodes.

(** [typeParams.length > 0 ? `<${...join(', ')}>` : ''] *)
Definition typeParamsStr (typeParams : list TypeParameter.t) : string :=
  match typeParams with
  | [] => ""
  | _ => "<" ++ join ", " (map TypeParameter.name typeParams) ++ ">"
  end.

(** [`${p.getName()}: ${this.simplifyType(p.getType().getText())}`] *)
Definition renderParameter (p : ParameterNode.t) : string :=
  ParameterNode.getName p ++ ": " ++ simplifyType (ParameterNode.getTypeText p).

Definition interfaceProperty (prop : PropertyNode.t) : PropertyInfo.t :=
  PropertyInfo.mk (PropertyNode.getName prop)
    (simplifyType (PropertyNode.getTypeText prop))
    (PropertyNode.hasQuestionToken prop) (PropertyNode.isReadonly prop)
    (getJsDocs (PropertyNode.jsDocs prop))
    false false false None None.

Definition interfaceMethod (method : MethodNode.t) : PropertyInfo.t :=
  let params := map renderParameter (MethodNode.getParameters method) in
  PropertyInfo.mk (MethodNode.getName method)
    (simplifyType (MethodNode.getReturnTypeText method))
    (MethodNode.hasQuestionToken method) false
    (getJsDocs (MethodNode.jsDocs method))
    true false false (Some params)
    (Some (simplifyType (MethodNode.getReturnTypeText method))).

Definition interfaceCallSignature (callSig : CallSignatureNode.t) : PropertyInfo.t :=
  let params := map renderParameter (CallSignatureNode.getParameters callSig) in
  PropertyInfo.mk "(call)"
    (simplifyType (CallSignatureNode.getReturnTypeText callSig))
    false false
    (getJsDocs (CallSignatureNode.jsDocs callSig))
    false true false (Some params)
    (Some (simplifyType (CallSignatureNode.getReturnTypeText callSig))).

Definition interfaceIndexSignature (indexSig : IndexSignatureNode.t) : PropertyInfo.t :=
  PropertyInfo.mk
    ("[" ++ IndexSignatureNode.getKeyName indexSig ++ ": "
         ++ IndexSignatureNode.getKeyTypeText indexSig ++ "]")
    (simplifyType (IndexSignatureNode.getReturnTypeText indexSig))
    false (IndexSignatureNode.isReadonly indexSig)
    (getJsDocs (IndexSignatureNode.jsDocs indexSig))
    false false true None None.

Definition extractInterface (iface : InterfaceDeclaration.t) (file_ module_ : string)
  : ExtractedType :=
  let properties_ := map interfaceProperty (InterfaceDeclaration.getProperties iface) in
  let methods_ :=
    (map interfaceMethod (InterfaceDeclaration.getMethods iface)
     ++ map interfaceCallSignature (InterfaceDeclaration.getCallSignatures iface)
     ++ map interfaceIndexSignature (InterfaceDeclaration.getIndexSignatures iface))%list in
  let typeParams := extractTypeParameters (InterfaceDeclaration.getTypeParameters iface) in
  let extendsClause := InterfaceDeclaration.getExtends iface in
  let extendsStr :=
    match extendsClause with
    | [] => ""
    | _ => " extends " ++ join ", " extendsClause
    end in
  {| name := InterfaceDeclaration.getName iface;
     kind := KInterface;
     exported := true;
     file := file_;
     module := module_;
     signature := "interface " ++ InterfaceDeclaration.getName iface
                    ++ typeParamsStr typeParams ++ extendsStr;
     fullSignature := None;
     properties := Some properties_;
     methods := Some methods_;
     members := None;
     typeParameters := Some typeParams;
     extends := Some extendsClause;
     implements := None;
     docs := getJsDocs (InterfaceDeclaration.jsDocs iface);
     value := None;
     reExportSource := None;
     lineNumber := Some (InterfaceDeclaration.getStartLineNumber iface) |}.

Definition extractTypeAlias (typeAlias : TypeAliasDeclaration.t) (file_ module_ : string)
  : ExtractedType :=
  let typeParams := extractTypeParameters (TypeAliasDeclaration.getTypeParameters typeAlias) in
  let typeText := simplifyType (TypeAliasDeclaration.getTypeText typeAlias) in
  {| name := TypeAliasDeclaration.getName typeAlias;
     kind := KType;
     exported := true;
     file := file_;
     module := module_;
     signature := "type " ++ TypeAliasDeclaration.getName typeAlias
                    ++ typeParamsStr typeParams ++ " = " ++ typeText;
     fullSignature := Some ("type " ++ TypeAliasDeclaration.getName typeAlias
                              ++ typeParamsStr typeParams ++ " = "
                              ++ TypeAliasDeclaration.getTypeText typeAlias);
     properties := None;
     methods := None;
     members := None;
     typeParameters := Some typeParams;
     extends := None;
     implements := None;
     docs := getJsDocs (TypeAliasDeclaration.jsDocs typeAlias);
     value := None;
     reExportSource := None;
     lineNumber := Some (TypeAliasDeclaration.getStartLineNumber typeAlias) |}.

(** The callback of [enumDecl.getMembers().map]. *)
Definition renderEnumMember (m : EnumMember.t) : string :=
  let valueStr :=
    match EnumMember.getValue m with
    | Some (StringValue s) => dquote ++ s ++ dquote
    | Some (NumberValue rendered) => rendered
    | None =>
        match EnumMember.getInitializer m with
        | Some text => text
        | None => "auto"
        end
    end in
  EnumMember.getName m ++ " = " ++ valueStr.

Definition extractEnum (enumDecl : EnumDeclaration.t) (file_ module_ : string)
  : ExtractedType :=
  let members_ := map renderEnumMember (EnumDeclaration.getMembers enumDecl) in
  {| name := EnumDeclaration.getName enumDecl;
     kind := KEnum;
     exported := true;
     file := file_;
     module := module_;
     signature :=
       "enum " ++ EnumDeclaration.getName enumDecl ++ " { "
         ++ join ", " (slice0 5 members_)
         ++ (if (5 <? List.length members_)%nat
             then ", ... (+" ++ decimal (List.length members_ - 5) ++ ")"
             else "")
         ++ " }";
     fullSignature := None;
     properties := None;
     methods := None;
     members := Some members_;
     typeParameters := None;
     extends := None;
     implements := None;
     docs := getJsDocs (EnumDeclaration.jsDocs enumDecl);
     value := None;
     reExportSource := None;
     lineNumber := Some (EnumDeclaration.getStartLineNumber enumDecl) |}.

(** The callback of [funcDecl.getParameters().map]. *)
Definition renderFunctionParameter (p : ParameterNode.t) : string :=
  let optional_ := if ParameterNode.hasQuestionToken p then "?" else "" in
  ParameterNode.getName p ++ optional_ ++ ": "
    ++ simplifyType (ParameterNode.getTypeText p).

Definition extractFunction (funcDecl : FunctionDeclaration.t) (file_ module_ : string)
  : ExtractedType :=
  let typeParams := extractTypeParameters (FunctionDeclaration.getTypeParameters funcDecl) in
  let params := map renderFunctionParameter (FunctionDeclaration.getParameters funcDecl) in
  let returnType_ := simplifyType (FunctionDeclaration.getReturnTypeText funcDecl) in
  {| name := orElse (FunctionDeclaration.getName funcDecl) "anonymous";
     kind := KFunction;
     exported := true;
     file := file_;
     module := module_;
     signature := "function " ++ interpolate (FunctionDeclaration.getName funcDecl)
                    ++ typeParamsStr typeParams
                    ++ "(" ++ join ", " params ++ "): " ++ returnType_;
     fullSignature := None;
     properties := None;
     methods := None;
     members := None;
     typeParameters := Some typeParams;
     extends := None;
     implements := None;
     docs := getJsDocs (FunctionDeclaration.jsDocs funcDecl);
     value := None;
     reExportSource := None;
     lineNumber := Some (FunctionDeclaration.getStartLineNumber funcDecl) |}.

(** [scope === 'public' || !scope] *)
Definition isPublic (scope : option string) : bool :=
  match scope with
  | Some s => String.eqb s "public" || negb (truthy s)
  | None => true
  end.

Definition classMethod (method : MethodNode.t) : PropertyInfo.t :=
  let params := map renderParameter (MethodNode.getParameters method) in
  PropertyInfo.mk (MethodNode.getName method)
    (simplifyType (MethodNode.getReturnTypeText method))
    false false
    (getJsDocs (MethodNode.jsDocs method))
    true false false (Some params)
    (Some (simplifyType (MethodNode.getReturnTypeText method))).

Definition extractClass (classDecl : ClassDeclaration.t) (file_ module_ : string)
  : ExtractedType :=
  let methods_ :=
    map classMethod
      (filter (fun m => isPublic (MethodNode.getScope m))
         (ClassDeclaration.getMethods classDecl)) in
  let properties_ :=
    map interfaceProperty
      (filter (fun p => isPublic (PropertyNode.getScope p))
         (ClassDeclaration.getProperties classDecl)) in
  let typeParams := extractTypeParameters (ClassDeclaration.getTypeParameters classDecl) in
  let extendsClause := ClassDeclaration.getExtends classDecl in
  let implementsClause := ClassDeclaration.getImplements classDecl in
  let signature_ := "class " ++ interpolate (ClassDeclaration.getName classDecl)
                      ++ typeParamsStr typeParams in
  let signature_ :=
    match extendsClause with
    | Some text => signature_ ++ " extends " ++ text
    | None => signature_
    end in
  let signature_ :=
    match implementsClause with
    | [] => signature_
    | _ => signature_ ++ " implements " ++ join ", " implementsClause
    end in
  {| name := orElse (ClassDeclaration.getName classDecl) "AnonymousClass";
     kind := KClass;
     exported := true;
     file := file_;
     module := module_;
     signature := signature_;
     fullSignature := None;
     properties := Some properties_;
     methods := Some methods_;
     members := None;
     typeParameters := Some typeParams;
     extends := match extendsClause with Some text => Some [text] | None => None end;
     implements := match implementsClause with [] => None | _ => Some implementsClause end;
     docs := getJsDocs (ClassDeclaration.jsDocs classDecl);
     value := None;
     reExportSource := None;
     lineNumber := Some (ClassDeclaration.getStartLineNumber classDecl) |}.

(** [initText.length > 100 ? initText.substring(0, 100) + '...' : initText] *)
Definition truncateInitializer (initText : string) : string :=
  if (100 <? String.length initText)%nat
  then String.substring 0 100 initText ++ "..."
  else initText.

Definition extractVariable (varDecl : VariableDeclaration.t) (file_ module_ : string)
  : ExtractedType :=
  let name_ := VariableDeclaration.getName varDecl in
  let type_ := simplifyType (VariableDeclaration.getTypeText varDecl) in
  let value_ := option_map truncateInitializer (VariableDeclaration.getInitializer varDecl) in
  let varStmt := VariableDeclaration.getVariableStatement varDecl in
  let declarationKind :=
    orElse (option_map VariableStatement.getDeclarationKind varStmt) "const" in
  {| name := name_;
     kind := KVariable;
     exported := true;
     file := file_;
     module := module_;
     signature := declarationKind ++ " " ++ name_ ++ ": " ++ type_;
     fullSignature := None;
     properties := None;
     methods := None;
     members := None;
     typeParameters := None;
     extends := None;
     implements := None;
     docs := match varStmt with
             | Some stmt => getJsDocs (VariableStatement.jsDocs stmt)
             | None => None
             end;
     value := value_;
     reExportSource := None;
     lineNumber := Some (VariableDeclaration.getStartLineNumber varDecl) |}.

Definition extractNamespace (moduleDecl : ModuleDeclaration.t) (file_ module_ : string)
  : ExtractedType :=
  let members_ :=
    (map (fun n => ("interface " ++ n)%string) (ModuleDeclaration.getInterfaces moduleDecl)
     ++ map (fun n => ("type " ++ n)%string) (ModuleDeclaration.getTypeAliases moduleDecl)
     ++ map (fun n => ("enum " ++ n)%string) (ModuleDeclaration.getEnums moduleDecl)
     ++ map (fun n => ("function " ++ interpolate n)%string) (ModuleDeclaration.getFunctions moduleDecl)
     ++ map (fun n => ("class " ++ interpolate n)%string) (ModuleDeclaration.getClasses moduleDecl)
     ++ map (fun n => ("namespace " ++ n)%string) (ModuleDeclaration.getModules moduleDecl))%list in
  {| name := ModuleDeclaration.getName moduleDecl;
     kind := KNamespace;
     exported := true;
     file := file_;
     module := module_;
     signature := "namespace " ++ ModuleDeclaration.getName moduleDecl
                    ++ " { /* " ++ decimal (List.length members_) ++ " members */ }";
     fullSignature := None;
     properties := None;
     methods := None;
     members := Some members_;
     typeParameters := None;
     extends := None;
     implements := None;
     docs := getJsDocs (ModuleDeclaration.jsDocs moduleDecl);
     value := None;
     reExportSource := None;
     lineNumber := Some (ModuleDeclaration.getStartLineNumber moduleDecl) |}.

(** ** Source files and the concrete [extractTypes] (lines 148-204) *)

Module SourceFileNode.
Record t := mk {
  getFilePath : string;
  getInterfaces : list InterfaceDeclaration.t;
  getTypeAliases : list TypeAliasDeclaration.t;
  getEnums : list EnumDeclaration.t;
  getFunctions : list FunctionDeclaration.t;
  getClasses : list ClassDeclaration.t;
  getVariableDeclarations : list VariableDeclaration.t;
  getModules : list ModuleDeclaration.t;
  getExportDeclarations : list ExportDeclaration.t
}.
End SourceFileNode.

(** [varStmt?.isExported()] *)
Definition variableIsExported (varDecl : VariableDeclaration.t) : bool :=
  match VariableDeclaration.getVariableStatement varDecl with
  | Some stmt => VariableStatement.isExported stmt
  | None => false
  end.

(** The first seven loops of [extractTypes]. *)
Definition extractDeclaredOf (sourceFile : SourceFileNode.t)
    (relativePath moduleName : string) : list ExtractedType :=
  (map (fun n => extractInterface n relativePath moduleName)
     (filter InterfaceDeclaration.isExported (SourceFileNode.getInterfaces sourceFile))
   ++ map (fun n => extractTypeAlias n relativePath moduleName)
        (filter TypeAliasDeclaration.isExported (SourceFileNode.getTypeAliases sourceFile))
   ++ map (fun n => extractEnum n relativePath moduleName)
        (filter EnumDeclaration.isExported (SourceFileNode.getEnums sourceFile))
   ++ map (fun n => extractFunction n relativePath moduleName)
        (filter FunctionDeclaration.isExported (SourceFileNode.getFunctions sourceFile))
   ++ map (fun n => extractClass n relativePath moduleName)
        (filter ClassDeclaration.isExported (SourceFileNode.getClasses sourceFile))
   ++ map (fun n => extractVariable n relativePath moduleName)
        (filter variableIsExported (SourceFileNode.getVariableDeclarations sourceFile))
   ++ map (fun n => extractNamespace n relativePath moduleName)
        (filter ModuleDeclaration.isExported (SourceFileNode.getModules sourceFile)))%list.

(** [extractTypes] on such a source file, for a parser on the root
    [whaileysSrcPath]. *)
Definition extractTypesOf (relative_ : string -> string -> string) (sep : ascii)
    (whaileysSrcPath : string) (sourceFile : SourceFileNode.t) : list ExtractedType :=
  extractTypes SourceFileNode.t SourceFileNode.getFilePath
    SourceFileNode.getExportDeclarations
    (getRelativePathOf relative_ whaileysSrcPath)
    (getModuleNameOf relative_ sep whaileysSrcPath)
    extractDeclaredOf sourceFile.

(** The place of a kind in the order in which [extractTypes] emits. *)
Definition kindRank (k : ExtractedKind) : nat :=
  match k with
  | KInterface => 0 | KType => 1 | KEnum => 2 | KFunction => 3
  | KClass => 4 | KVariable => 5 | KNamespace => 6 | KReExport => 7
  end.

(** The optional fields a record of a kind may carry: whether the record
    has each of the fields that depend on the kind. *)
Definition fieldsOfKind (r : ExtractedType) : Prop :=
  match kind r with
  | KInterface =>
      properties r <> None /\ methods r <> None /\ typeParameters r <> None
      /\ extends r <> None /\ implements r = None /\ members r = None
      /\ fullSignature r = None /\ value r = None /\ reExportSource r = None
  | KType =>
      fullSignature r <> None /\ typeParameters r <> None
      /\ properties r = None /\ methods r = None /\ members r = None
      /\ extends r = None /\ implements r = None
      /\ value r = None /\ reExportSource r = None
  | KEnum | KNamespace =>
      members r <> None
      /\ properties r = None /\ methods r = None /\ typeParameters r = None
      /\ extends r = None /\ implements r = None /\ fullSignature r = None
      /\ value r = None /\ reExportSource r = None
  | KFunction =>
      typeParameters r <> None
      /\ properties r = None /\ methods r = None /\ members r = None
      /\ extends r = None /\ implements r = None /\ fullSignature r = None
      /\ value r = None /\ reExportSource r = None
  | KClass =>
      properties r <> None /\ methods r <> None /\ typeParameters r <> None
      /\ extends r <> Some [] /\ implements r <> Some [] /\ members r = None
      /\ fullSignature r = None /\ value r = None /\ reExportSource r = None
  | KVariable =>
      properties r = None /\ methods r = None /\ members r = None
      /\ typeParameters r = None /\ extends r = None /\ implements r = None
      /\ fullSignature r = None /\ reExportSource r = None
  | KReExport =>
      reExportSource r <> None /\ members r <> Some []
      /\ properties r = None /\ methods r = None /\ typeParameters r = None
      /\ extends r = None /\ implements r = None /\ fullSignature r = None
      /\ value r = None /\ docs r = None
  end.

(** *** Single files (lines 126-130) *)

Section CorpusFile.

Variable SourceFile : Type.
Variable getFilePath : SourceFile -> string.
Variable getExportDeclarations : SourceFile -> list ExportDeclaration.t.
Variable getRelativePath getModuleName : string -> string.
Variable extractDeclared : SourceFile -> string -> string -> list ExtractedType.

(** [path.join]; the file that is on disk at a full path, if any; and
    the files of the project once a file has been added to them, in the
    order in which the project lists its files (by directory depth and
    path, not by the time of their addition). *)
Variable pathJoin : string -> string -> string.
Variable fileAt : string -> option SourceFile.
Variable placeFile : SourceFile -> list SourceFile -> list SourceFile.



End CorpusFile.

(** How many of the three flags of a member entry are set. *)
Definition flagCount (p : PropertyInfo.t) : nat :=
  ((if PropertyInfo.isMethod p then 1 else 0)
   + (if PropertyInfo.isCallSignature p then 1 else 0)
   + (if PropertyInfo.isIndexSignature p then 1 else 0))%nat.

(** The three declaration kinds of a variable statement. *)
Definition declarationKinds : list string := ["var"; "let"; "const"].

(** The number of exported declarations of a source file. *)
Definition exportedDeclarations (sourceFile : SourceFileNode.t) : nat :=
  (List.length (filter InterfaceDeclaration.isExported
                  (SourceFileNode.getInterfaces sourceFile))
   + List.length (filter TypeAliasDeclaration.isExported
                    (SourceFileNode.getTypeAliases sourceFile))
   + List.length (filter EnumDeclaration.isExported
                    (SourceFileNode.getEnums sourceFile))
   + List.length (filter FunctionDeclaration.isExported
                    (SourceFileNode.getFunctions sourceFile))
   + List.length (filter ClassDeclaration.isExported
                    (SourceFileNode.getClasses sourceFile))
   + List.length (filter variableIsExported
                    (SourceFileNode.getVariableDeclarations sourceFile))
   + List.length (filter ModuleDeclaration.isExported
                    (SourceFileNode.getModules sourceFile)))%nat.

(** *** White space in a text *)

(** The text starts, or ends, with a white-space code unit. *)
Definition firstIsSpace (s : string) : bool :=
  match s with
  | String c _ => is_space c
  | EmptyString => false
  end.

Definition lastIsSpace (s : string) : bool :=
  firstIsSpace (rev_string EmptyString s).

(** Every white-space code unit of the text is a space that does not
    follow another white-space code unit; [prev] tells whether the code
    unit before the text is white space. *)
Fixpoint singleSpaces (prev : bool) (s : string) : bool :=
  match s with
  | EmptyString => true
  | String c s' =>
      if is_space c
      then Ascii.eqb c " "%char && negb prev && singleSpaces true s'
      else singleSpaces false s'
  end.

(** Some code unit of the text is white space. *)
Fixpoint hasSpace (s : string) : bool :=
  match s with
  | EmptyString => false
  | String c s' => is_space c || hasSpace s'
  end.

(** The test [here] fails on the text and on every text left after
    dropping code units from its start. *)
Fixpoint matchesNowhere (here : string -> bool) (s : string) : bool :=
  negb (here s)
  && match s with
     | EmptyString => true
     | String _ s' => matchesNowhere here s'
     end.

(** ** A sample source file

    [Types/State.ts] with an interface, an enum of eight members, a
    variable, a function without a name and two export clauses. *)

Definition noDocs : DocNode.t := DocNode.mk None.

Definition sampleEnum : EnumDeclaration.t :=
  EnumDeclaration.mk true "Presence"
    [ EnumMember.mk "unavailable" (Some (NumberValue "0")) None;
      EnumMember.mk "available" (Some (NumberValue "1")) None;
      EnumMember.mk "composing" (Some (StringValue "composing")) None;
      EnumMember.mk "recording" (Some (StringValue "recording")) None;
      EnumMember.mk "paused" (Some (StringValue "paused")) None;
      EnumMember.mk "a" None (Some "1 << 2");
      EnumMember.mk "b" None None;
      EnumMember.mk "c" None None ]
    noDocs 10.

Definition sampleSourceFile : SourceFileNode.t :=
  SourceFileNode.mk "Types/State.ts"
    [ InterfaceDeclaration.mk true "State"
        [ PropertyNode.mk "id" "string" false true None noDocs ]
        [ MethodNode.mk "get" [ ParameterNode.mk "key" "string" false ] "unknown"
            false None noDocs ]
        [ CallSignatureNode.mk [] "void" noDocs ]
        [ IndexSignatureNode.mk "key" "string" "unknown" false noDocs ]
        [] [ "Base" ] noDocs 1;
      InterfaceDeclaration.mk false "Hidden" [] [] [] [] [] [] noDocs 8 ]
    []
    [ sampleEnum ]
    [ FunctionDeclaration.mk true None [] [] "void" noDocs 30 ]
    []
    [ VariableDeclaration.mk "DEFAULT_STATE" "State" (Some "{}")
        (Some (VariableStatement.mk true "const" noDocs)) 20 ]
    []
    [ namespaceClause; namedClause ].

(** ** The fuzzy score, token by token

    The score in the words of the specification, with the tokens of the
    query taken as its maximal runs of code units that are not white
    space: none of them is empty. *)

Fixpoint tokensFrom (cur s : string) : list string :=
  match s with
  | EmptyString =>
      match cur with
      | EmptyString => []
      | _ => [cur]
      end
  | String c s' =>
      if is_space c then
        match cur with
        | EmptyString => tokensFrom EmptyString s'
        | _ => cur :: tokensFrom EmptyString s'
        end
      else tokensFrom (cur ++ String c EmptyString) s'
  end.

Definition queryTokens (query : string) : list string :=
  tokensFrom EmptyString query.

(** The documentation text of a declaration: its [docs], or the empty
    text when it has none. *)
Definition docsText (t : ExtractedType) : string :=
  match docs t with
  | Some d => d
  | None => EmptyString
  end.

Definition tokenScore (query : string) (t : ExtractedType) : Z :=
  let lowerName := toLowerCase (name t) in
  wholeQueryBonus lowerName (toLowerCase query)
  + fold_right Z.add 0
      (map (tokenBonus lowerName (toLowerCase (docsText t)))
         (queryTokens (toLowerCase query))).

(** The empty pieces that splitting a query at its runs of white space
    leaves beside its tokens: one for the empty query; otherwise one when
    the query starts with white space and one when it ends with it. *)
Definition emptyPieces (query : string) : nat :=
  match query with
  | EmptyString => 1
  | _ => (if firstIsSpace query then 1 else 0) + (if lastIsSpace query then 1 else 0)
  end.

(** The score with what the empty pieces add: every name and every
    documentation text contains the empty piece, which is worth 10 and
    5. *)
Definition amendedScore (query : string) (t : ExtractedType) : Z :=
  tokenScore query t + 15 * Z.of_nat (emptyPieces query).

(** The last code unit of [s] is white space, [prev] telling whether the
    code unit before [s] is. *)
Fixpoint endsInSpace (prev : bool) (s : string) : bool :=
  match s with
  | EmptyString => prev
  | String c s' => endsInSpace (is_space c) s'
  end.

(** * Properties *)

(** ** Stable descending sort *)

Section StableSortFacts.
Context {A : Type} (key : A -> Z).

Lemma insert_desc_perm (x : A) (l : list A) :
  Permutation (x :: l) (insert_desc key x l).
Proof.
  induction l as [|y l IH]; simpl; [reflexivity|].
  destruct (key y >? key x); [|reflexivity].
  rewrite perm_swap. now constructor.
Qed.

Lemma sort_desc_perm (l : list A) : Permutation l (sort_desc key l).
Proof.
  induction l as [|x l IH]; simpl; [constructor|].
  rewrite <- insert_desc_perm. now constructor.
Qed.

Lemma insert_desc_Forall (P : A -> Prop) (x : A) (l : list A) :
  P x -> Forall P l -> Forall P (insert_desc key x l).
Proof.
  intros Hx Hl. induction Hl as [|y l Hy Hl IH]; simpl.
  - now repeat constructor.
  - destruct (key y >? key x); now repeat constructor.
Qed.

Lemma insert_desc_sorted (x : A) (l : list A) :
  StronglySorted (descending key) l -> StronglySorted (descending key) (insert_desc key x l).
Proof.
  induction 1 as [|y l Hs IH Hy]; simpl.
  - repeat constructor.
  - destruct (key y >? key x) eqn:E.
    + constructor; [exact IH|].
      apply insert_desc_Forall; [unfold descending; lia | exact Hy].
    + constructor; [now constructor|].
      constructor; [unfold descending; lia|].
      eapply Forall_impl; [|exact Hy].
      unfold descending; intros; lia.
Qed.

Lemma sort_desc_sorted (l : list A) : StronglySorted (descending key) (sort_desc key l).
Proof.
  induction l as [|x l IH]; simpl; [constructor|].
  now apply insert_desc_sorted.
Qed.

(** Stability: the elements of one key keep their order. *)
Lemma insert_desc_filter (v : Z) (x : A) (l : list A) :
  filter (fun a => key a =? v) (insert_desc key x l)
  = filter (fun a => key a =? v) (x :: l).
Proof.
  induction l as [|y l IH]; [reflexivity|].
  cbn [insert_desc]. destruct (key y >? key x) eqn:E; [|reflexivity].
  cbn [filter] in *. rewrite IH.
  destruct (key x =? v) eqn:Ex; [|reflexivity].
  destruct (key y =? v) eqn:Ey; [lia|reflexivity].
Qed.

Lemma sort_desc_filter (v : Z) (l : list A) :
  filter (fun a => key a =? v) (sort_desc key l)
  = filter (fun a => key a =? v) l.
Proof.
  induction l as [|x l IH]; [reflexivity|].
  cbn [sort_desc]. rewrite insert_desc_filter. cbn [filter]. now rewrite IH.
Qed.

(** A list that is in descending order already is left as it is. *)
Lemma sort_desc_id (l : list A) :
  StronglySorted (descending key) l -> sort_desc key l = l.
Proof.
  induction 1 as [|x l Hs IH Hx]; [reflexivity|].
  cbn [sort_desc]. rewrite IH.
  destruct Hx as [|y l Hy _]; [reflexivity|].
  cbn [insert_desc]. unfold descending in Hy.
  destruct (key y >? key x) eqn:E; [lia|reflexivity].
Qed.

Lemma sort_desc_ext (key' : A -> Z) (l : list A) :
  (forall a, key a = key' a) -> sort_desc key l = sort_desc key' l.
Proof.
  intros H. induction l as [|x l IH]; [reflexivity|].
  cbn [sort_desc]. rewrite IH. generalize (sort_desc key' l) as s.
  induction s as [|y s IHs]; [reflexivity|].
  cbn [insert_desc]. now rewrite !H, IHs.
Qed.

(** Sorting pairs [(a, key a)] on the second component sorts the first
    components on [key]. *)
Lemma sort_desc_tagged (l : list A) :
  sort_desc snd (map (fun a => (a, key a)) l)
  = map (fun a => (a, key a)) (sort_desc key l).
Proof.
  induction l as [|x l IH]; [reflexivity|].
  cbn [sort_desc map]. rewrite IH. generalize (sort_desc key l) as s.
  induction s as [|y s IHs]; [reflexivity|].
  cbn [insert_desc map snd]. destruct (key y >? key x); [|reflexivity].
  now rewrite IHs.
Qed.

Lemma filter_tagged (p : Z -> bool) (l : list A) :
  filter (fun s => p (snd s)) (map (fun a => (a, key a)) l)
  = map (fun a => (a, key a)) (filter (fun a => p (key a)) l).
Proof.
  induction l as [|x l IH]; [reflexivity|].
  cbn [map filter snd]. destruct (p (key x)); cbn [map]; now rewrite IH.
Qed.

Lemma map_fst_tagged (l : list A) : map fst (map (fun a => (a, key a)) l) = l.
Proof. rewrite map_map. cbn. apply map_id. Qed.

End StableSortFacts.

Lemma slice0_nonneg {A} (n : Z) (l : list A) :
  0 <= n -> slice0 n l = firstn (Z.to_nat n) l.
Proof. intros H. unfold slice0. destruct (n <? 0) eqn:E; [lia|reflexivity]. Qed.

Lemma slice0_map {A B} (f : A -> B) (n : Z) (l : list A) :
  map f (slice0 n l) = slice0 n (map f l).
Proof.
  unfold slice0. rewrite length_map. destruct (n <? 0); now rewrite firstn_map.
Qed.

(** ** Fuzzy search *)

Lemma fold_wordStep (lowerName lowerDocs : string) (words : list string) (score : Z) :
  fold_left (wordStep lowerName lowerDocs) words score
  = score + fold_right Z.add 0 (map (tokenBonus lowerName lowerDocs) words).
Proof.
  revert score. induction words as [|w words IH]; intros score; cbn [fold_left map fold_right].
  - lia.
  - rewrite IH. unfold wordStep, tokenBonus.
    destruct (includes lowerName w), (includes lowerDocs w); lia.
Qed.

Lemma queryScore_spec (query : string) (t : ExtractedType) :
  queryScore query t = specScore query t.
Proof.
  unfold queryScore, scoreOf, specScore, wholeQueryBonus.
  rewrite fold_wordStep.
  destruct (String.eqb _ _); [reflexivity|].
  destruct (startsWith _ _); [reflexivity|].
  destruct (includes _ _); reflexivity.
Qed.

(** [fuzzySearch] without the intermediate array of scored pairs. *)
Lemma fuzzySearch_unfold (allTypes : list ExtractedType) (query : string) (maxResults : option Z) :
  fuzzySearch allTypes query maxResults
  = slice0 (match maxResults with Some n => n | None => 20 end)
      (sort_desc (queryScore query)
         (filter (fun t => queryScore query t >? 0) allTypes)).
Proof.
  unfold fuzzySearch. rewrite slice0_map. f_equal.
  change (fun t => (t, scoreOf (toLowerCase query) (split_spaces (toLowerCase query)) t))
    with (fun t => (t, queryScore query t)).
  rewrite (filter_tagged (queryScore query) (fun z => z >? 0)).
  rewrite sort_desc_tagged. apply map_fst_tagged.
Qed.

(** The ranking of [fuzzySearch], for any way [score] of writing the
    score the code computes: the result is the first [limit] elements (20
    when no limit is given) of a list which holds exactly the
    declarations of positive score, in descending order of score, those
    of equal score in index order. *)
Lemma fuzzySearch_ranked_by (score : ExtractedType -> Z)
    (allTypes : list ExtractedType) (query : string) (limit : Z) :
  (forall t, queryScore query t = score t) ->
  0 <= limit ->
  exists ranked : list ExtractedType,
    fuzzySearch allTypes query (Some limit) = firstn (Z.to_nat limit) ranked
    /\ fuzzySearch allTypes query None = firstn 20 ranked
    /\ Permutation ranked (filter (fun t => score t >? 0) allTypes)
    /\ StronglySorted (descending score) ranked
    /\ (forall v : Z,
          filter (fun t => score t =? v) ranked
          = if 0 <? v then filter (fun t => score t =? v) allTypes else []).
Proof.
  intros Hscore Hlimit.
  exists (sort_desc score (filter (fun t => score t >? 0) allTypes)).
  assert (Hsort : forall l, sort_desc (queryScore query) l = sort_desc score l)
    by (intros l; apply sort_desc_ext, Hscore).
  assert (Hfilter : filter (fun t => queryScore query t >? 0) allTypes
                    = filter (fun t => score t >? 0) allTypes)
    by (apply filter_ext; intros t; now rewrite Hscore).
  repeat split.
  - rewrite fuzzySearch_unfold, Hsort, Hfilter. now apply slice0_nonneg.
  - rewrite fuzzySearch_unfold, Hsort, Hfilter. reflexivity.
  - symmetry. apply sort_desc_perm.
  - apply sort_desc_sorted.
  - intros v. rewrite sort_desc_filter. clear Hfilter.
    induction allTypes as [|t l IH]; cbn [filter].
    + now destruct (0 <? v).
    + destruct (score t >? 0) eqn:Epos; cbn [filter]; rewrite IH.
      * destruct (score t =? v) eqn:Ev; [|reflexivity].
        destruct (0 <? v) eqn:E0; [reflexivity|lia].
      * destruct (score t =? v) eqn:Ev; [|reflexivity].
        destruct (0 <? v) eqn:E0; [lia|reflexivity].
Qed.

(** The ranking of the sample index for [Foo]: exact match, prefix,
    occurrence; [Baz] is left out. *)
Example fuzzySearch_sample :
  map name (fuzzySearch sampleIndex "Foo" None) = ["Foo"; "FooBar"; "xFoo"]
  /\ map (queryScore "Foo") sampleIndex = [0; 35; 65; 110].
Proof. split; reflexivity. Qed.

(** A query that ends in white space has an empty last piece, which
    every name and every documentation text contains: no declaration of
    the sample index is left out. *)
Example fuzzySearch_trailing_space :
  split_spaces (toLowerCase "Foo ") = ["foo"; ""]
  /\ map (queryScore "Foo ") sampleIndex = [15; 25; 30; 25]
  /\ map name (fuzzySearch sampleIndex "Foo " None) = ["FooBar"; "xFoo"; "Foo"; "Baz"].
Proof. repeat split; reflexivity. Qed.

(** *** The empty query *)

Lemma toLowerCase_empty (s : string) : toLowerCase s = EmptyString -> s = EmptyString.
Proof. destruct s; [reflexivity|discriminate]. Qed.

Lemma startsWith_empty (s : string) : startsWith s EmptyString = true.
Proof. now destruct s. Qed.

Lemma includes_empty (s : string) : includes s EmptyString = true.
Proof. destruct s; reflexivity. Qed.

Lemma queryScore_empty_query (t : ExtractedType) :
  queryScore "" t = if String.eqb (name t) "" then 115 else 65.
Proof.
  unfold queryScore, scoreOf. cbn [toLowerCase split_spaces split_spaces_from fold_left].
  unfold wordStep. rewrite !includes_empty, startsWith_empty.
  destruct (name t) as [|c n]; reflexivity.
Qed.

(** C10, as the code has it.  For the empty query every declaration
    scores at least 65: 50 for the prefix (100 when its name is empty),
    10 because its name contains the empty piece of the query and 5
    because its documentation text, present or not, contains it too.  No
    declaration is excluded, and the result is the first [limit]
    declarations of the stable descending sort; declarations with a name
    all score 65, so that when every name is non-empty the result is the
    first [limit] declarations in index order, documented or not. *)
Theorem fuzzySearch_empty_query :
  forall (allTypes : list ExtractedType) (limit : Z),
    0 <= limit ->
    (forall t, 65 <= queryScore "" t)
    /\ (forall t, name t <> "" -> queryScore "" t = 65)
    /\ fuzzySearch allTypes "" (Some limit)
       = firstn (Z.to_nat limit) (sort_desc (queryScore "") allTypes)
    /\ ((forall t, In t allTypes -> name t <> "") ->
        fuzzySearch allTypes "" (Some limit) = firstn (Z.to_nat limit) allTypes).
Proof.
  intros allTypes limit Hlimit.
  assert (Hall : filter (fun t => queryScore "" t >? 0) allTypes = allTypes).
  { induction allTypes as [|t l IH]; [reflexivity|].
    cbn [filter]. rewrite IH, queryScore_empty_query.
    now destruct (String.eqb (name t) ""). }
  assert (Hnamed : forall t, name t <> "" -> queryScore "" t = 65).
  { intros t Hn. rewrite queryScore_empty_query.
    destruct (String.eqb_spec (name t) ""); [contradiction|reflexivity]. }
  repeat split.
  - intros t. rewrite queryScore_empty_query.
    destruct (String.eqb (name t) ""); lia.
  - exact Hnamed.
  - rewrite fuzzySearch_unfold, Hall. now apply slice0_nonneg.
  - intros Hnames. rewrite fuzzySearch_unfold, Hall, slice0_nonneg by exact Hlimit.
    f_equal. apply sort_desc_id. clear Hall.
    induction allTypes as [|t l IH]; constructor.
    + apply IH. intros u Hu. apply Hnames. now right.
    + apply Forall_forall. intros u Hu. unfold descending.
      rewrite (Hnamed t), (Hnamed u); [lia| |]; apply Hnames; [now right|now left].
Qed.

Lemma fuzzySearch_empty_query_witness :
  0 <= 3 /\
  (forall t, 65 <= queryScore "" t)
  /\ (forall t, name t <> "" -> queryScore "" t = 65)
  /\ fuzzySearch sampleIndex "" (Some 3)
     = firstn (Z.to_nat 3) (sort_desc (queryScore "") sampleIndex)
  /\ ((forall t, In t sampleIndex -> name t <> "") ->
      fuzzySearch sampleIndex "" (Some 3) = firstn (Z.to_nat 3) sampleIndex).
Proof.
  split; [lia|]. apply (fuzzySearch_empty_query sampleIndex 3). lia.
Defined.

(** C10 as stated fails: in the sample index the undocumented [Baz] and
    [xFoo] score 65 like the documented [FooBar] and [Foo], not 60, and
    they stay ahead of them in the result. *)
Lemma fuzzySearch_empty_query_counterexample :
  map name (fuzzySearch sampleIndex "" None) = ["Baz"; "xFoo"; "FooBar"; "Foo"]
  /\ map docs (fuzzySearch sampleIndex "" None)
     = [None; None; Some "Extends foo"; Some "The base"]
  /\ map (queryScore "") sampleIndex = [65; 65; 65; 65]
  /\ documentedFirst (fuzzySearch sampleIndex "" None) = false.
Proof. repeat split; reflexivity. Qed.

(** ** Statistics *)

Lemma sumZ_app (l1 l2 : list Z) : sumZ (l1 ++ l2) = sumZ l1 + sumZ l2.
Proof.
  unfold sumZ. induction l1 as [|x l1 IH]; cbn [app fold_right]; [reflexivity|].
  rewrite IH. lia.
Qed.

Lemma sumZ_perm (l1 l2 : list Z) : Permutation l1 l2 -> sumZ l1 = sumZ l2.
Proof. unfold sumZ. induction 1; cbn [fold_right]; lia. Qed.

Lemma kind_eqb_eq (a b : ExtractedKind) : kind_eqb a b = true <-> a = b.
Proof. destruct a, b; cbn; split; intros H; try reflexivity; discriminate. Qed.

Lemma byKind_shape (c : KindCounts) :
  map fst c = allKinds ->
  exists n1 n2 n3 n4 n5 n6 n7 n8,
    c = [(KInterface, n1); (KType, n2); (KEnum, n3); (KFunction, n4);
         (KClass, n5); (KVariable, n6); (KNamespace, n7); (KReExport, n8)].
Proof.
  intros H.
  do 8 (destruct c as [|[? ?] c]; [discriminate|]).
  destruct c; [|discriminate].
  cbn in H. injection H as -> -> -> -> -> -> -> ->.
  now repeat eexists.
Qed.

Lemma bumpKind_keys (k : ExtractedKind) (c : KindCounts) :
  map fst (bumpKind k c) = map fst c.
Proof.
  unfold bumpKind. rewrite map_map. apply map_ext.
  intros [k' n]. cbn. now destruct (kind_eqb k' k).
Qed.

Lemma bumpKind_sum (k : ExtractedKind) (c : KindCounts) :
  map fst c = allKinds -> sumZ (map snd (bumpKind k c)) = sumZ (map snd c) + 1.
Proof.
  intros H. destruct (byKind_shape c H) as (n1&n2&n3&n4&n5&n6&n7&n8&->).
  destruct k; cbn; lia.
Qed.

Lemma bumpKind_count (k k' : ExtractedKind) (c : KindCounts) (n : Z) :
  map fst c = allKinds ->
  kindCount k' c = Some n ->
  kindCount k' (bumpKind k c) = Some (if kind_eqb k k' then n + 1 else n).
Proof.
  intros H. destruct (byKind_shape c H) as (n1&n2&n3&n4&n5&n6&n7&n8&->).
  destruct k, k'; cbn; intros [= <-]; reflexivity.
Qed.

Section ModuleMapFacts.

Lemma mapHas_keys (m : string) (mm : ModuleMap) :
  mapHas m mm = true <-> In m (keys mm).
Proof.
  unfold mapHas, keys. rewrite existsb_exists, in_map_iff. split.
  - intros (e & He & Heq). exists e. split; [now apply String.eqb_eq|exact He].
  - intros (e & Heq & He). exists e. split; [exact He|now apply String.eqb_eq].
Qed.

Lemma mapUpdate_keys (m : string) f (mm : ModuleMap) :
  keys (mapUpdate m f mm) = keys mm.
Proof.
  unfold keys, mapUpdate. rewrite map_map. apply map_ext.
  intros [m' s]. cbn. now destruct (String.eqb m' m).
Qed.

Lemma mapUpdate_absent (m : string) f (mm : ModuleMap) :
  ~ In m (keys mm) -> mapUpdate m f mm = mm.
Proof.
  induction mm as [|[m' s] mm IH]; [reflexivity|].
  cbn. intros H. destruct (String.eqb_spec m' m) as [->|_].
  - exfalso. apply H. now left.
  - f_equal. apply IH. intros Hin. apply H. now right.
Qed.

Lemma mapUpdate_cons (m m' : string) f s (mm : ModuleMap) :
  mapUpdate m f ((m', s) :: mm)
  = (if String.eqb m' m then (m', f s) else (m', s)) :: mapUpdate m f mm.
Proof. reflexivity. Qed.

Lemma count_total (k : ExtractedKind) (s : ModuleStatistics.t) :
  ModuleStatistics.total (ModuleStatistics.count k s) = ModuleStatistics.total s + 1.
Proof. now destruct k. Qed.

Lemma count_module (k : ExtractedKind) (s : ModuleStatistics.t) :
  ModuleStatistics.module (ModuleStatistics.count k s) = ModuleStatistics.module s.
Proof. now destruct k. Qed.

Lemma mapUpdate_totals (m : string) (k : ExtractedKind) (mm : ModuleMap) :
  NoDup (keys mm) -> In m (keys mm) ->
  sumZ (totals (mapUpdate m (ModuleStatistics.count k) mm)) = sumZ (totals mm) + 1.
Proof.
  induction mm as [|[m' s] mm IH]; [contradiction|].
  intros Hnd Hin. inversion Hnd as [|? ? Hnotin Hnd']; subst.
  rewrite mapUpdate_cons.
  destruct (String.eqb_spec m' m) as [->|Hne].
  - rewrite mapUpdate_absent by exact Hnotin.
    unfold totals, sumZ. cbn [map fold_right snd]. rewrite count_total. lia.
  - destruct Hin as [Heq|Hin]; [contradiction|].
    specialize (IH Hnd' Hin). unfold totals, sumZ in *.
    cbn [map fold_right snd]. lia.
Qed.

Lemma mapUpdate_selfNamed (m : string) (k : ExtractedKind) (mm : ModuleMap) :
  selfNamed mm -> selfNamed (mapUpdate m (ModuleStatistics.count k) mm).
Proof.
  unfold selfNamed, mapUpdate. intros H. apply Forall_map.
  eapply Forall_impl; [|exact H].
  intros [m' s] Hs. cbn in *. destruct (String.eqb m' m); [|exact Hs].
  cbn [fst snd]. now rewrite count_module.
Qed.

End ModuleMapFacts.

Lemma declarationsOfKind_snoc (k : ExtractedKind) (done : list ExtractedType) (t : ExtractedType) :
  declarationsOfKind k (done ++ [t])
  = declarationsOfKind k done + (if kind_eqb (kind t) k then 1 else 0).
Proof.
  unfold declarationsOfKind. rewrite filter_app, length_app. cbn [filter].
  destruct (kind_eqb (kind t) k); cbn [List.length]; lia.
Qed.

Lemma statsInv_init : statsInv [] (byKindInit, []).
Proof.
  repeat split; try reflexivity; try (now constructor); try contradiction.
  now intros [].
Qed.

Lemma statsInv_step (done : list ExtractedType) (st : KindCounts * ModuleMap) (t : ExtractedType) :
  statsInv done st -> statsInv (done ++ [t]) (statsStep st t).
Proof.
  destruct st as [bk mm]. unfold statsInv. cbn [fst snd statsStep].
  intros (Hkeys & Hcount & Hsum & Hnd & Hself & Htot & Hmods).
  rewrite length_app, Nat2Z.inj_add. cbn [List.length].
  (* the map once the key of [t] is in it *)
  set (mm1 := if negb (mapHas (module t) mm)
              then mapSetNew (module t) (ModuleStatistics.zero (module t)) mm
              else mm).
  assert (Hin1 : In (module t) (keys mm1)).
  { subst mm1. destruct (mapHas (module t) mm) eqn:E; cbn [negb].
    - now apply mapHas_keys.
    - unfold mapSetNew, keys. rewrite map_app. apply in_or_app. right. now left. }
  assert (Hnd1 : NoDup (keys mm1)).
  { subst mm1. destruct (mapHas (module t) mm) eqn:E; cbn [negb]; [exact Hnd|].
    unfold mapSetNew, keys. rewrite map_app. cbn [map fst].
    apply NoDup_app; [exact Hnd|repeat constructor; now intros []|].
    intros m Hm [<-|[]]. apply mapHas_keys in Hm. congruence. }
  assert (Hself1 : selfNamed mm1).
  { subst mm1. destruct (mapHas (module t) mm); cbn [negb]; [exact Hself|].
    apply Forall_app. split; [exact Hself|]. now repeat constructor. }
  assert (Htot1 : sumZ (totals mm1) = Z.of_nat (List.length done)).
  { subst mm1. destruct (mapHas (module t) mm); cbn [negb]; [exact Htot|].
    unfold mapSetNew, totals. rewrite map_app, sumZ_app. fold (totals mm).
    rewrite Htot. cbn. lia. }
  assert (Hmods1 : forall m, In m (keys mm1) <-> In m (map module (done ++ [t]))).
  { intros m. rewrite map_app, in_app_iff. cbn [map In]. subst mm1.
    destruct (mapHas (module t) mm) eqn:E; cbn [negb].
    - rewrite Hmods. split; [tauto|]. intros [H|[<-|[]]]; [exact H|].
      apply Hmods. now apply mapHas_keys.
    - unfold mapSetNew, keys. rewrite map_app, in_app_iff. cbn [map fst In].
      fold (keys mm). rewrite Hmods. tauto. }
  repeat split.
  - now rewrite bumpKind_keys.
  - intros k. rewrite (bumpKind_count _ _ _ _ Hkeys (Hcount k)).
    rewrite declarationsOfKind_snoc. f_equal.
    destruct (kind_eqb (kind t) k); lia.
  - rewrite bumpKind_sum by exact Hkeys. lia.
  - now rewrite mapUpdate_keys.
  - now apply mapUpdate_selfNamed.
  - rewrite mapUpdate_totals by assumption. lia.
  - rewrite mapUpdate_keys. apply Hmods1.
  - rewrite mapUpdate_keys. apply Hmods1.
Qed.

Lemma statsInv_fold (allTypes : list ExtractedType) :
  statsInv allTypes (fold_left statsStep allTypes (byKindInit, [])).
Proof.
  induction allTypes as [|t done IH] using rev_ind.
  - apply statsInv_init.
  - rewrite fold_left_app. cbn [fold_left]. now apply statsInv_step.
Qed.

(** C2. The statistics of every index are consistent: the eight counts
    of [byKind] add up to [totalDeclarations], and so do the totals of
    the records of [byModule]; [byKind] has one entry for each of the
    eight kinds, holding the number of declarations of that kind (zero
    when there is none); [byModule] has exactly one record for every
    module that occurs in the index and none for any other, in
    descending order of [total]. *)
Theorem getStatistics_consistent :
  forall allTypes : list ExtractedType,
    let stats := getStatistics allTypes in
    sumZ (map snd (LibraryStatistics.byKind stats))
    = LibraryStatistics.totalDeclarations stats
    /\ sumZ (map ModuleStatistics.total (LibraryStatistics.byModule stats))
       = LibraryStatistics.totalDeclarations stats
    /\ LibraryStatistics.totalDeclarations stats = Z.of_nat (List.length allTypes)
    /\ map fst (LibraryStatistics.byKind stats) = allKinds
    /\ (forall k, kindCount k (LibraryStatistics.byKind stats)
                  = Some (declarationsOfKind k allTypes))
    /\ NoDup (map ModuleStatistics.module (LibraryStatistics.byModule stats))
    /\ (forall m, In m (map ModuleStatistics.module (LibraryStatistics.byModule stats))
                  <-> In m (map module allTypes))
    /\ StronglySorted (descending ModuleStatistics.total)
         (LibraryStatistics.byModule stats).
Proof.
  intros allTypes. cbv zeta. unfold getStatistics.
  pose proof (statsInv_fold allTypes) as Hinv.
  destruct (fold_left statsStep allTypes (byKindInit, [])) as [bk mm].
  destruct Hinv as (Hkeys & Hcount & Hsum & Hnd & Hself & Htot & Hmods).
  cbn [fst snd] in *.
  cbn [LibraryStatistics.byKind LibraryStatistics.byModule
         LibraryStatistics.totalDeclarations].
  pose proof (sort_desc_perm ModuleStatistics.total (map snd mm)) as Hperm.
  assert (Hnames : map ModuleStatistics.module (map snd mm) = keys mm).
  { unfold keys. rewrite map_map. apply map_ext_in. intros e He.
    unfold selfNamed in Hself. rewrite Forall_forall in Hself. now apply Hself. }
  assert (Hpn : Permutation (keys mm)
                  (map ModuleStatistics.module
                     (sort_desc ModuleStatistics.total (map snd mm)))).
  { rewrite <- Hnames. now apply Permutation_map. }
  repeat split.
  - exact Hsum.
  - rewrite <- (sumZ_perm _ _ (Permutation_map ModuleStatistics.total Hperm)).
    rewrite map_map. exact Htot.
  - exact Hkeys.
  - exact Hcount.
  - eapply Permutation_NoDup; eassumption.
  - intros H. apply Hmods. eapply Permutation_in; [symmetry|]; eassumption.
  - intros H. apply Hmods in H. eapply Permutation_in; eassumption.
  - apply sort_desc_sorted.
Qed.

(** The statistics of the sample index. *)
Example getStatistics_sample :
  LibraryStatistics.byKind (getStatistics sampleIndex)
  = [(KInterface, 1); (KType, 1); (KEnum, 0); (KFunction, 0);
     (KClass, 2); (KVariable, 0); (KNamespace, 0); (KReExport, 0)]
  /\ map (fun s => (ModuleStatistics.module s, ModuleStatistics.total s))
       (LibraryStatistics.byModule (getStatistics sampleIndex))
     = [("Types", 2); ("Socket", 2)].
Proof. split; reflexivity. Qed.

(** ** Kind filter *)

Lemma kindString_known (k : ExtractedKind) : In (kindString k) kindStrings.
Proof. destruct k; cbn; tauto. Qed.

(** C3, as the code has it.  A filter value that is none of the eight
    kind strings makes [getTypesByKind] return the empty array; the call
    returns normally and throws nothing. *)
Theorem getTypesByKind_unknown_kind :
  forall (allTypes : list ExtractedType) (kind_ : string),
    ~ In kind_ kindStrings ->
    getTypesByKind allTypes kind_ = Normal [].
Proof.
  intros allTypes kind_ Hunknown. unfold getTypesByKind. f_equal.
  induction allTypes as [|t l IH]; [reflexivity|].
  cbn [filter]. destruct (String.eqb_spec (kindString (kind t)) kind_) as [Heq|_].
  - exfalso. apply Hunknown. rewrite <- Heq. apply kindString_known.
  - exact IH.
Qed.

Lemma getTypesByKind_unknown_kind_witness :
  ~ In "widget" kindStrings /\ getTypesByKind sampleIndex "widget" = Normal [].
Proof.
  assert (H : ~ In "widget" kindStrings).
  { cbn. intros [H|[H|[H|[H|[H|[H|[H|[H|[]]]]]]]]]; discriminate H. }
  split; [exact H|]. apply (getTypesByKind_unknown_kind sampleIndex "widget" H).
Defined.

(** C3 as stated fails: for the unknown kind [widget] the call on the
    sample index returns the empty array and does not throw. *)
Lemma getTypesByKind_unknown_kind_counterexample :
  ~ In "widget" kindStrings
  /\ getTypesByKind sampleIndex "widget" = Normal []
  /\ ~ (exists message, getTypesByKind sampleIndex "widget" = Throw message).
Proof.
  split; [|split].
  - cbn. intros [H|[H|[H|[H|[H|[H|[H|[H|[]]]]]]]]]; discriminate H.
  - reflexivity.
  - intros [message H]. discriminate H.
Qed.

(** ** Hierarchy *)

Lemma someIncludes_mentions (xs : option (list string)) (target : string) :
  someIncludes xs target = true <-> mentions xs target.
Proof.
  unfold someIncludes, mentions. destruct xs as [l|]; cbn [orEmpty].
  - apply existsb_exists.
  - split; [discriminate|]. now intros (s & [] & _).
Qed.

Lemma lookupByName_found (allTypes : list ExtractedType) (B : ExtractedType) :
  In B allTypes -> exists T, lookupByName allTypes (name B) = Some T.
Proof.
  intros HB. unfold lookupByName.
  destruct (find _ allTypes) as [T|] eqn:E; [now exists T|].
  exfalso. apply (find_none _ _ E) in HB. now rewrite String.eqb_refl in HB.
Qed.

Lemma children_of_mention (allTypes : list ExtractedType) (target : string) (A : ExtractedType) :
  In A allTypes ->
  mentions (extends A) target \/ mentions (implements A) target ->
  In (name A) (flat_map (childEntries target) allTypes).
Proof.
  intros HA Hm. apply in_flat_map. exists A. split; [exact HA|].
  unfold childEntries. apply in_or_app.
  destruct Hm as [Hm|Hm]; apply someIncludes_mentions in Hm; rewrite Hm;
    [left|right]; now left.
Qed.

(** C8, as the code has it.  Let [A] and [B] be declarations of the
    index such that a string of [A]'s [extends] or [implements] list
    contains [B]'s name.  If the declaration that the case-insensitive
    lookup of [B]'s name finds (the first one whose lower-cased name is
    [B]'s lower-cased name) is named exactly like [B], then
    [getTypeHierarchy] of [B]'s name returns a result whose [children]
    contain [A]'s name. *)
Theorem getTypeHierarchy_children_of_supertype :
  forall (allTypes : list ExtractedType) (A B : ExtractedType),
    In A allTypes -> In B allTypes ->
    (forall T, lookupByName allTypes (name B) = Some T -> name T = name B) ->
    mentions (extends A) (name B) \/ mentions (implements A) (name B) ->
    exists h, getTypeHierarchy allTypes (name B) = Some h
              /\ In (name A) (Hierarchy.children h).
Proof.
  intros allTypes A B HA HB Hsame Hm.
  destruct (lookupByName_found allTypes B HB) as [T HT].
  unfold getTypeHierarchy. rewrite HT. eexists. split; [reflexivity|].
  cbn [Hierarchy.children]. rewrite (Hsame T HT).
  now apply children_of_mention.
Qed.

Lemma getTypeHierarchy_children_of_supertype_witness :
  exists h, getTypeHierarchy hierarchyIndex "Node" = Some h
            /\ In "Tree" (Hierarchy.children h).
Proof.
  apply (getTypeHierarchy_children_of_supertype hierarchyIndex
           (sampleDecl "Tree" KClass "Types" None (Some ["Node"]) (Some ["Iterable<Node>"]))
           (sampleDecl "Node" KClass "Types" None (Some ["Comparable<Node>"]) None)).
  - cbn. tauto.
  - cbn. tauto.
  - intros T HT. cbn in HT. injection HT as <-. reflexivity.
  - left. exists "Node". split; [now left|reflexivity].
Defined.

(** C8 as stated fails: [WAProto] extends [Proto], but the lookup of
    [Proto] finds the variable [proto] first, and no supertype text
    contains that lower-case name, so the children are empty. *)
Lemma getTypeHierarchy_children_counterexample :
  let A := sampleDecl "WAProto" KInterface "Types" None (Some ["Proto"]) None in
  let B := sampleDecl "Proto" KInterface "Types" None None None in
  In A caseIndex /\ In B caseIndex
  /\ mentions (extends A) (name B)
  /\ exists h, getTypeHierarchy caseIndex (name B) = Some h
               /\ name (Hierarchy.type h) = "proto"
               /\ Hierarchy.children h = []
               /\ ~ In (name A) (Hierarchy.children h).
Proof.
  cbv zeta. split; [cbn; tauto|]. split; [cbn; tauto|]. split.
  - exists "Proto". split; [now left|reflexivity].
  - eexists. split; [reflexivity|]. repeat split. intros [].
Qed.

(** C9. Let [getTypeHierarchy] return a result for a declaration
    [target].  A declaration of the index with a string containing
    [target]'s name in its [extends] list and another in its
    [implements] list has its name at least twice in [children]; and
    when a string of [target]'s own [extends] or [implements] list
    contains its name, [target]'s name is among its own children.  Both
    happen: see the witness. *)
Theorem getTypeHierarchy_children_duplicates_and_self :
  forall (allTypes : list ExtractedType) (typeName : string) (h : Hierarchy.t),
    getTypeHierarchy allTypes typeName = Some h ->
    let target := Hierarchy.type h in
    In target allTypes
    /\ (forall t, In t allTypes ->
                  mentions (extends t) (name target) ->
                  mentions (implements t) (name target) ->
                  (2 <= count_occ string_dec (Hierarchy.children h) (name t))%nat)
    /\ (mentions (extends target) (name target)
        \/ mentions (implements target) (name target) ->
        In (name target) (Hierarchy.children h)).
Proof.
  intros allTypes typeName h Hh. cbv zeta.
  unfold getTypeHierarchy in Hh.
  destruct (lookupByName allTypes typeName) as [T|] eqn:HT; [|discriminate].
  injection Hh as <-. cbn [Hierarchy.type Hierarchy.children].
  assert (HinT : In T allTypes) by (apply (find_some _ _ HT)).
  split; [exact HinT|]. split.
  - intros t Ht He Hi.
    destruct (in_split _ _ Ht) as (l1 & l2 & ->).
    rewrite flat_map_app. cbn [flat_map]. rewrite !count_occ_app.
    unfold childEntries at 2.
    apply someIncludes_mentions in He, Hi. rewrite He, Hi.
    cbn [app count_occ]. destruct (string_dec (name t) (name t)); [lia|contradiction].
  - intros Hm. now apply children_of_mention.
Qed.

Lemma getTypeHierarchy_children_duplicates_and_self_witness :
  exists h,
    getTypeHierarchy hierarchyIndex "node" = Some h
    /\ Hierarchy.children h = ["Node"; "Tree"; "Tree"]
    /\ In (Hierarchy.type h) hierarchyIndex
    /\ (forall t, In t hierarchyIndex ->
                  mentions (extends t) (name (Hierarchy.type h)) ->
                  mentions (implements t) (name (Hierarchy.type h)) ->
                  (2 <= count_occ string_dec (Hierarchy.children h) (name t))%nat)
    /\ (mentions (extends (Hierarchy.type h)) (name (Hierarchy.type h))
        \/ mentions (implements (Hierarchy.type h)) (name (Hierarchy.type h)) ->
        In (name (Hierarchy.type h)) (Hierarchy.children h)).
Proof.
  eexists. split; [reflexivity|]. split; [reflexivity|].
  apply (getTypeHierarchy_children_duplicates_and_self hierarchyIndex "node").
  reflexivity.
Defined.

(** ** Documentation *)

Lemma allSpaces_trimStart (s : string) : allSpaces (trimStart s) = allSpaces s.
Proof.
  induction s as [|c s IH]; [reflexivity|].
  cbn [trimStart allSpaces]. destruct (is_space c) eqn:E; [exact IH|].
  cbn [allSpaces]. now rewrite E.
Qed.

Lemma allSpaces_rev_string (acc s : string) :
  allSpaces (rev_string acc s) = allSpaces acc && allSpaces s.
Proof.
  revert acc. induction s as [|c s IH]; intros acc; cbn [rev_string allSpaces].
  - now rewrite andb_true_r.
  - rewrite IH. cbn [allSpaces]. destruct (is_space c), (allSpaces acc); reflexivity.
Qed.

Lemma allSpaces_trim (s : string) : allSpaces (trim s) = allSpaces s.
Proof.
  unfold trim.
  now rewrite allSpaces_rev_string, allSpaces_trimStart, allSpaces_rev_string,
    allSpaces_trimStart.
Qed.

Lemma trim_not_empty (s : string) : allSpaces s = false -> trim s <> EmptyString.
Proof. intros H E. rewrite <- allSpaces_trim, E in H. discriminate H. Qed.

Lemma allSpaces_append (a b : string) :
  allSpaces (a ++ b) = allSpaces a && allSpaces b.
Proof.
  induction a as [|c a IH]; [reflexivity|].
  cbn [append allSpaces]. rewrite IH. now rewrite andb_assoc.
Qed.

Lemma allSpaces_join (sep x : string) (xs : list string) :
  In x xs -> allSpaces x = false -> allSpaces (join sep xs) = false.
Proof.
  intros Hin Hx. unfold join. induction xs as [|y xs IH]; [contradiction|].
  destruct xs as [|z xs].
  - destruct Hin as [->|[]]. exact Hx.
  - change (String.concat sep (y :: z :: xs))
      with (y ++ sep ++ String.concat sep (z :: xs)).
    rewrite !allSpaces_append. destruct Hin as [->|Hin].
    + now rewrite Hx.
    + rewrite (IH Hin). now rewrite !andb_false_r.
Qed.

Lemma filterBoolean_in (x : string) (xs : list (option string)) :
  In (Some x) xs -> truthy x = true -> In x (filterBoolean xs).
Proof.
  intros Hin Hx. induction xs as [|[y|] xs IH]; [contradiction| |].
  - cbn [filterBoolean]. destruct Hin as [[= ->]|Hin].
    + rewrite Hx. now left.
    + destruct (truthy y); [right|]; now apply IH.
  - cbn [filterBoolean]. destruct Hin as [Hin|Hin]; [discriminate|now apply IH].
Qed.

Lemma filterBoolean_described (ds : list JSDoc.t) :
  (forall d, In d ds -> truthy (jsDocDescription d) = true) ->
  filterBoolean (map descriptionOrText ds) = map jsDocDescription ds.
Proof.
  induction ds as [|d ds IH]; intros H; [reflexivity|].
  cbn [map filterBoolean]. pose proof (H d (or_introl eq_refl)) as Hd.
  unfold descriptionOrText, jsDocDescription in *.
  destruct (JSDoc.getDescription d) as [s|]; [|discriminate].
  rewrite Hd, Hd. f_equal. apply IH. intros d' Hd'. apply H. now right.
Qed.

(** C4, as the code has it.  The [docs] that [getJsDocs] extracts for a
    declaration node is absent exactly when the node has no
    documentation comment.  Otherwise it is the trimmed newline-joined
    text of its comments, where a comment contributes its description
    or, when the description is empty (a comment of tags only), its whole
    source text, and nothing when it has neither.  When every comment has
    a non-empty description, [docs] is the newline-joined descriptions,
    trimmed.  [docs] is not the empty string when some comment
    contributes text that is not all white space.  The record of a
    re-export clause has no [docs]. *)
Theorem getJsDocs_description_or_text :
  forall node : DocNode.t,
    (getJsDocs node = None <-> orEmpty (DocNode.getJsDocs node) = [])
    /\ (forall ds, DocNode.getJsDocs node = Some ds -> ds <> [] ->
          getJsDocs node
          = Some (trim (join newline (filterBoolean (map descriptionOrText ds))))
          /\ ((forall d, In d ds -> truthy (jsDocDescription d) = true) ->
              getJsDocs node = option_map trim (specDocs node))
          /\ ((exists d x, In d ds /\ descriptionOrText d = Some x /\ allSpaces x = false) ->
              getJsDocs node <> Some EmptyString))
    /\ (forall d, descriptionOrText d
                  = if truthy (jsDocDescription d) then Some (jsDocDescription d)
                    else JSDoc.getText d)
    /\ (forall exportDecl file_ module_ r,
          extractReExport exportDecl file_ module_ = Some r -> docs r = None).
Proof.
  intros [jsDocs]. unfold getJsDocs, specDocs. cbn [DocNode.getJsDocs].
  split; [|split; [|split]].
  - destruct jsDocs as [[|d ds]|]; cbn [orEmpty]; split; intros H;
      try reflexivity; discriminate H.
  - intros ds [= ->] Hne. destruct ds as [|d ds]; [contradiction|].
    split; [reflexivity|]. split.
    + intros Hall. cbn [option_map].
      now rewrite (filterBoolean_described (d :: ds) Hall).
    + intros (d' & x & Hin & Hx & Hsp) [= E].
      revert E. apply trim_not_empty. apply (allSpaces_join _ x); [|exact Hsp].
      apply (filterBoolean_in x (map descriptionOrText (d :: ds))).
      * rewrite <- Hx. now apply in_map.
      * destruct x; [discriminate Hsp|reflexivity].
  - intros d. unfold descriptionOrText, jsDocDescription.
    destruct (JSDoc.getDescription d) as [s|]; reflexivity.
  - intros exportDecl file_ module_ r. unfold extractReExport.
    destruct (ExportDeclaration.getModuleSpecifierValue exportDecl) as [spec|];
      [|discriminate].
    destruct (truthy spec); cbn [negb]; [|discriminate].
    destruct (ExportDeclaration.isNamespaceExport exportDecl).
    + now intros [= <-].
    + destruct (0 <? _)%nat; [now intros [= <-]|discriminate].
Qed.

Lemma getJsDocs_description_or_text_witness :
  getJsDocs twoDescriptionsNode
  = Some (trim (join newline
                  (filterBoolean
                     (map descriptionOrText
                        (orEmpty (DocNode.getJsDocs twoDescriptionsNode))))))
  /\ getJsDocs twoDescriptionsNode = option_map trim (specDocs twoDescriptionsNode)
  /\ getJsDocs twoDescriptionsNode <> Some EmptyString.
Proof.
  destruct (getJsDocs_description_or_text twoDescriptionsNode) as (_ & H & _).
  destruct (H (orEmpty (DocNode.getJsDocs twoDescriptionsNode)) eq_refl)
    as (H1 & H2 & H3); [discriminate|].
  split; [exact H1|]. split.
  - apply H2. intros d [<-|[<-|[]]]; reflexivity.
  - apply H3. eexists; eexists. split; [now left|]. split; reflexivity.
Defined.

(** C4 as stated fails: for a declaration whose only comment consists of
    a tag, the descriptions join to the empty string, while [docs] is the
    source text of the comment, tag included; and after a described
    comment the tag-only comment adds its source text to [docs]. *)
Lemma getJsDocs_counterexample :
  getJsDocs tagOnlyNode = Some "/** @deprecated */"
  /\ specDocs tagOnlyNode = Some EmptyString
  /\ getJsDocs tagOnlyNode <> specDocs tagOnlyNode
  /\ getJsDocs tagOnlyNode <> None
  /\ getJsDocs describedNode = Some ("Sends a message." ++ newline ++ "/** @deprecated */")
  /\ specDocs describedNode = Some ("Sends a message." ++ newline).
Proof. repeat split; try reflexivity; discriminate. Qed.

(** ** Re-export clauses *)

Lemma truthy_nonempty (s : string) : s <> EmptyString -> truthy s = true.
Proof. destruct s; [contradiction|reflexivity]. Qed.

(** C5, as the code has it.  A clause with a non-empty module specifier
    yields exactly one record of kind re-export whose [reExportSource] is
    the specifier: for the namespace form, a record without a [members]
    field; for the named form (at least one name), a record whose
    [members] are the rendered names in order, an aliased one rendered as
    original, [as], alias. *)
Theorem extractReExport_shape :
  forall (exportDecl : ExportDeclaration.t) (file_ module_ specifier : string),
    ExportDeclaration.getModuleSpecifierValue exportDecl = Some specifier ->
    specifier <> EmptyString ->
    (ExportDeclaration.isNamespaceExport exportDecl = true ->
     exists r, extractReExport exportDecl file_ module_ = Some r
               /\ kind r = KReExport
               /\ reExportSource r = Some specifier
               /\ members r = None)
    /\ (ExportDeclaration.isNamespaceExport exportDecl = false ->
        ExportDeclaration.getNamedExports exportDecl <> [] ->
        exists r, extractReExport exportDecl file_ module_ = Some r
                  /\ kind r = KReExport
                  /\ reExportSource r = Some specifier
                  /\ members r
                     = Some (map renderSpecifier
                               (ExportDeclaration.getNamedExports exportDecl)))
    /\ (forall original alias,
          renderSpecifier (ExportSpecifier.mk original (Some alias))
          = original ++ " as " ++ alias)
    /\ (forall original,
          renderSpecifier (ExportSpecifier.mk original None) = original).
Proof.
  intros exportDecl file_ module_ specifier Hspec Hne.
  unfold extractReExport. rewrite Hspec, (truthy_nonempty _ Hne). cbn [negb].
  repeat split.
  - intros ->. eexists. repeat split.
  - intros -> Hnamed.
    destruct (ExportDeclaration.getNamedExports exportDecl) as [|ne nes];
      [contradiction|].
    cbn [List.length Nat.ltb Nat.leb]. eexists. repeat split.
Qed.

Lemma extractReExport_shape_witness :
  (exists r, extractReExport namespaceClause "index.ts" "root" = Some r
             /\ kind r = KReExport
             /\ reExportSource r = Some "./a"
             /\ members r = None)
  /\ (exists r, extractReExport namedClause "index.ts" "root" = Some r
                /\ kind r = KReExport
                /\ reExportSource r = Some "./b"
                /\ members r = Some ["x"; "y as z"]).
Proof.
  split.
  - destruct (extractReExport_shape namespaceClause "index.ts" "root" "./a" eq_refl)
      as (H & _); [discriminate|]. exact (H eq_refl).
  - destruct (extractReExport_shape namedClause "index.ts" "root" "./b" eq_refl)
      as (_ & H & _); [discriminate|]. apply (H eq_refl). discriminate.
Defined.

(** C5 as stated fails in its first half: the record of the namespace
    clause has no [members] field at all instead of an empty list. *)
Lemma extractReExport_namespace_counterexample :
  option_map members (extractReExport namespaceClause "index.ts" "root") = Some None
  /\ option_map members (extractReExport namespaceClause "index.ts" "root")
     <> Some (Some []).
Proof. split; [reflexivity|discriminate]. Qed.

(** ** Type-text simplification *)

(** The third expression matches at an occurrence of [d:/] and nowhere
    else: a text without one goes through that step unchanged, whatever
    paths it holds. *)
Lemma replaceAll_drive_path_only (s : string) :
  includes s "d:/" = false ->
  Regex.replaceAll Regex.matchDrivePath "" s = s.
Proof.
  unfold Regex.replaceAll. induction s as [|c s IH]; [reflexivity|].
  intros H. cbn [includes] in H. apply orb_false_elim in H as [Hhere Hrest].
  cbn [Regex.replaceFrom]. unfold Regex.matchDrivePath at 1. rewrite Hhere.
  now rewrite (IH Hrest).
Qed.

(** C7 on the inputs where the code falls short.  The third expression
    starts at a lower-case [d:/] only: the same reference is shortened to
    its file name under a path on drive [d:] and is left whole under any
    other absolute path.  The first expression consumes the [import]
    part of a [typeof import] prefix, so the second never sees it and
    [typeof] stays. *)
Example simplifyType_absolute_paths :
  simplifyType ("typeof import(" ++ dquote ++ "d:/dev/whaileys/src/Types/index" ++ dquote ++ ")")
  = "typeof import(" ++ dquote ++ "index" ++ dquote ++ ")"
  /\ simplifyType ("typeof import(" ++ dquote ++ "/home/dev/whaileys/src/Types/index" ++ dquote ++ ")")
     = "typeof import(" ++ dquote ++ "/home/dev/whaileys/src/Types/index" ++ dquote ++ ")"
  /\ simplifyType ("typeof import(" ++ dquote ++ "C:/dev/whaileys/src/Types/index" ++ dquote ++ ")")
     = "typeof import(" ++ dquote ++ "C:/dev/whaileys/src/Types/index" ++ dquote ++ ")"
  /\ simplifyType ("typeof import(" ++ dquote ++ "./Defaults" ++ dquote ++ ").DEFAULT_CONFIG")
     = "typeof DEFAULT_CONFIG"
  /\ simplifyType ("Promise<import(" ++ dquote ++ "d:/dev/whaileys/src/Types/Message" ++ dquote ++ ").WAMessage>")
     = "Promise<WAMessage>"
  /\ simplifyType "  { id:   string;   name?:  string }  " = "{ id: string; name?: string }".
Proof. repeat split; reflexivity. Qed.

(** ** The cache of the corpus index *)

Section CorpusFacts.

Variable SourceFile : Type.
Variable getFilePath : SourceFile -> string.
Variable getExportDeclarations : SourceFile -> list ExportDeclaration.t.
Variable getRelativePath getModuleName : string -> string.
Variable extractDeclared : SourceFile -> string -> string -> list ExtractedType.

Let extractAll :=
  extractAllTypes SourceFile getFilePath getExportDeclarations
    getRelativePath getModuleName extractDeclared.

(** After any call the cache holds the array that was returned. *)
Lemma extractAllTypes_fills_cache (disk : list SourceFile) (parser : AstParser SourceFile) :
  cachedTypes SourceFile (snd (extractAll disk parser)) = Some (fst (extractAll disk parser)).
Proof.
  unfold extractAll, extractAllTypes.
  destruct (cachedTypes SourceFile parser) as [cached|] eqn:E; cbn [fst snd].
  - exact E.
  - reflexivity.
Qed.

(** A parser with a filled cache answers from it, whatever is on
    disk, and stays as it is. *)
Lemma extractAllTypes_cached (disk : list SourceFile) (parser : AstParser SourceFile)
    (cached : list ExtractedType) :
  cachedTypes SourceFile parser = Some cached ->
  extractAll disk parser = (cached, parser).
Proof. intros H. unfold extractAll, extractAllTypes. now rewrite H. Qed.

(** C6. A second call of [extractAllTypes] on the same parser returns
    the array of the first call and leaves the parser, with the files
    of its project, as the first call left it: nothing is scanned
    again, whatever the source tree holds by then.  This includes a
    first call that found no declaration, since the cached empty array
    passes the test of the cache as well. *)
Theorem extractAllTypes_idempotent :
  forall (disk1 disk2 : list SourceFile) (parser : AstParser SourceFile),
    let first := extractAll disk1 parser in
    let second := extractAll disk2 (snd first) in
    fst second = fst first /\ snd second = snd first.
Proof.
  intros disk1 disk2 parser. cbv zeta.
  pose proof (extractAllTypes_fills_cache disk1 parser) as Hcache.
  rewrite (extractAllTypes_cached disk2 _ _ Hcache). cbn [fst snd].
  now split.
Qed.

(** A source root without any file: the first call caches the empty
    array, and later calls return it even when files have appeared. *)
Example extractAllTypes_empty_root (disk : list SourceFile) :
  extractAll [] (newAstParser SourceFile)
  = ([], mkAstParser SourceFile [] (Some []))
  /\ extractAll disk (snd (extractAll [] (newAstParser SourceFile)))
     = ([], mkAstParser SourceFile [] (Some [])).
Proof. split; reflexivity. Qed.

End CorpusFacts.


(** * Further properties of the query engine *)

(** ** Strings *)

Lemma lower_char_idempotent (c : ascii) : lower_char (lower_char c) = lower_char c.
Proof.
  destruct c as [b0 b1 b2 b3 b4 b5 b6 b7].
  destruct b0, b1, b2, b3, b4, b5, b6, b7; reflexivity.
Qed.

Lemma toLowerCase_idempotent (s : string) : toLowerCase (toLowerCase s) = toLowerCase s.
Proof.
  induction s as [|c s IH]; [reflexivity|].
  cbn [toLowerCase]. now rewrite lower_char_idempotent, IH.
Qed.

Lemma startsWith_refl (s : string) : startsWith s s = true.
Proof.
  induction s as [|c s IH]; [reflexivity|].
  cbn [startsWith]. now rewrite Ascii.eqb_refl, IH.
Qed.

Lemma includes_refl (s : string) : includes s s = true.
Proof. destruct s; cbn [includes]; now rewrite startsWith_refl. Qed.

(** The element [find] returns is the first that passes the test. *)
Lemma find_first {A} (f : A -> bool) (l : list A) (x : A) :
  find f l = Some x ->
  exists l1 l2, l = (l1 ++ x :: l2)%list /\ f x = true
                /\ forall y, In y l1 -> f y = false.
Proof.
  induction l as [|y l IH]; [discriminate|].
  cbn [find]. destruct (f y) eqn:E.
  - intros [= ->]. exists [], l. repeat split; [exact E|]. now intros ? [].
  - intros H. destruct (IH H) as (l1 & l2 & -> & Hx & Hl1).
    exists (y :: l1), l2. repeat split; [exact Hx|].
    intros z [<-|Hz]; [exact E|now apply Hl1].
Qed.

(** ** Exact search *)

(** X1. [searchType] finds nothing exactly when no declaration has a
    name that contains the query, letter case apart. *)
Theorem searchType_none_iff :
  forall (allTypes : list ExtractedType) (typeName : string),
    searchType allTypes typeName = None
    <-> forall t, In t allTypes ->
                  includes (toLowerCase (name t)) (toLowerCase typeName) = false.
Proof.
  intros allTypes typeName. unfold searchType. split.
  - destruct (find _ allTypes) eqn:E1; [discriminate|].
    intros E2 t Ht. exact (find_none _ _ E2 t Ht).
  - intros H.
    destruct (find (fun t => String.eqb _ _) allTypes) as [t|] eqn:E1.
    + destruct (find_some _ _ E1) as [Ht Heq]. apply String.eqb_eq in Heq.
      specialize (H t Ht). rewrite Heq, includes_refl in H. discriminate H.
    + destruct (find (fun t => includes _ _) allTypes) as [t|] eqn:E2; [|reflexivity].
      destruct (find_some _ _ E2) as [Ht Hin]. rewrite (H t Ht) in Hin. discriminate Hin.
Qed.

(** X2. What [searchType] returns is a declaration of the index whose
    name contains the query, letter case apart.  When some name equals
    the query up to case, the result is the first declaration with such
    a name, even behind declarations that merely contain the query;
    otherwise it is the first declaration whose name contains it. *)
Theorem searchType_prefers_exact :
  forall (allTypes : list ExtractedType) (typeName : string) (r : ExtractedType),
    searchType allTypes typeName = Some r ->
    let exact t := String.eqb (toLowerCase (name t)) (toLowerCase typeName) in
    let partial t := includes (toLowerCase (name t)) (toLowerCase typeName) in
    exists before after,
      allTypes = (before ++ r :: after)%list
      /\ partial r = true
      /\ ((exists t, In t allTypes /\ exact t = true) ->
          exact r = true /\ forall t, In t before -> exact t = false)
      /\ ((forall t, In t allTypes -> exact t = false) ->
          forall t, In t before -> partial t = false).
Proof.
  intros allTypes typeName r. cbv zeta. unfold searchType.
  destruct (find (fun t => String.eqb _ _) allTypes) as [t|] eqn:E1.
  - intros [= ->]. destruct (find_first _ _ _ E1) as (l1 & l2 & Hl & Hr & Hl1).
    exists l1, l2. split; [exact Hl|]. split.
    + apply String.eqb_eq in Hr. rewrite Hr. apply includes_refl.
    + split.
      * intros _. now split.
      * intros Hnone. pose proof (find_some _ _ E1) as [Hin _].
        rewrite (Hnone r Hin) in Hr. discriminate Hr.
  - intros E2. destruct (find_first _ _ _ E2) as (l1 & l2 & Hl & Hr & Hl1).
    exists l1, l2. split; [exact Hl|]. split; [exact Hr|]. split.
    + intros (t & Ht & Hex). rewrite (find_none _ _ E1 t Ht) in Hex. discriminate Hex.
    + intros _. exact Hl1.
Qed.

Lemma searchType_prefers_exact_witness :
  exists before after,
    sampleIndex = (before ++ sampleDecl "Foo" KClass "Socket" (Some "The base") None None
                     :: after)%list
    /\ includes (toLowerCase "Foo") (toLowerCase "foo") = true
    /\ ((exists t, In t sampleIndex
                   /\ String.eqb (toLowerCase (name t)) (toLowerCase "foo") = true) ->
        String.eqb (toLowerCase "Foo") (toLowerCase "foo") = true
        /\ forall t, In t before ->
                     String.eqb (toLowerCase (name t)) (toLowerCase "foo") = false)
    /\ ((forall t, In t sampleIndex ->
                   String.eqb (toLowerCase (name t)) (toLowerCase "foo") = false) ->
        forall t, In t before ->
                  includes (toLowerCase (name t)) (toLowerCase "foo") = false).
Proof.
  apply (searchType_prefers_exact sampleIndex "foo"
           (sampleDecl "Foo" KClass "Socket" (Some "The base") None None)).
  reflexivity.
Defined.

Lemma tokenBonus_sum_nonneg (lowerName lowerDocs : string) (words : list string) :
  0 <= fold_right Z.add 0 (map (tokenBonus lowerName lowerDocs) words).
Proof.
  induction words as [|w words IH]; cbn [map fold_right]; [lia|].
  unfold tokenBonus at 1.
  destruct (includes lowerName w), (includes lowerDocs w); lia.
Qed.

Lemma queryScore_partial_match (query : string) (t : ExtractedType) :
  includes (toLowerCase (name t)) (toLowerCase query) = true ->
  25 <= queryScore query t.
Proof.
  intros H. rewrite queryScore_spec. unfold specScore, wholeQueryBonus.
  pose proof (tokenBonus_sum_nonneg (toLowerCase (name t)) (toLowerCase (docsOrEmpty t))
                (split_spaces (toLowerCase query))) as Hsum.
  rewrite H. destruct (String.eqb _ _); [lia|]. destruct (startsWith _ _); lia.
Qed.

(** X3. A declaration that [searchType] finds for a query scores at
    least 25 in [fuzzySearch] for the same query, and is among its
    results when the limit is the size of the index. *)
Theorem searchType_found_is_ranked :
  forall (allTypes : list ExtractedType) (query : string) (r : ExtractedType),
    searchType allTypes query = Some r ->
    25 <= queryScore query r
    /\ In r (fuzzySearch allTypes query (Some (Z.of_nat (List.length allTypes)))).
Proof.
  intros allTypes query r Hr.
  assert (Hin : In r allTypes /\ includes (toLowerCase (name r)) (toLowerCase query) = true).
  { unfold searchType in Hr.
    destruct (find (fun t => String.eqb _ _) allTypes) as [t|] eqn:E1.
    - injection Hr as ->. destruct (find_some _ _ E1) as [Hin Heq].
      apply String.eqb_eq in Heq. rewrite Heq. split; [exact Hin|apply includes_refl].
    - exact (find_some _ _ Hr). }
  destruct Hin as [Hin Hinc].
  pose proof (queryScore_partial_match query r Hinc) as Hscore.
  split; [exact Hscore|].
  rewrite fuzzySearch_unfold, slice0_nonneg by lia. rewrite Nat2Z.id.
  set (ranked := sort_desc (queryScore query)
                   (filter (fun t => queryScore query t >? 0) allTypes)).
  assert (Hlen : (List.length ranked <= List.length allTypes)%nat).
  { unfold ranked.
    rewrite <- (Permutation_length (sort_desc_perm (queryScore query) _)).
    apply filter_length_le. }
  rewrite firstn_all2 by exact Hlen.
  unfold ranked. eapply Permutation_in; [apply sort_desc_perm|].
  apply filter_In. split; [exact Hin|]. apply Z.gtb_lt. lia.
Qed.

Lemma searchType_found_is_ranked_witness :
  25 <= queryScore "oo" (sampleDecl "xFoo" KType "Types" None None None)
  /\ In (sampleDecl "xFoo" KType "Types" None None None)
       (fuzzySearch sampleIndex "oo" (Some (Z.of_nat (List.length sampleIndex)))).
Proof.
  apply (searchType_found_is_ranked sampleIndex "oo"). reflexivity.
Defined.

(** X4. The four name queries ignore the letter case of their argument:
    each gives for the lower-cased query what it gives for the query. *)
Theorem queries_ignore_case :
  forall (allTypes : list ExtractedType) (query : string) (maxResults : option Z),
    searchType allTypes (toLowerCase query) = searchType allTypes query
    /\ fuzzySearch allTypes (toLowerCase query) maxResults
       = fuzzySearch allTypes query maxResults
    /\ getTypesFromModule allTypes (toLowerCase query) = getTypesFromModule allTypes query
    /\ getTypeHierarchy allTypes (toLowerCase query) = getTypeHierarchy allTypes query.
Proof.
  intros allTypes query maxResults.
  unfold searchType, fuzzySearch, getTypesFromModule, getTypeHierarchy, lookupByName.
  now rewrite !toLowerCase_idempotent.
Qed.

(** ** Hierarchy lookup *)

(** X5. [getTypeHierarchy] has no result exactly when no declaration's
    name equals the query up to letter case (a name that only contains
    the query is not enough, other than for [searchType]).  When it has
    one, its declaration is the one [searchType] returns, its parents
    are the [extends] entries followed by the [implements] entries of
    that declaration, and every child is the name of a declaration of the
    index that names the target in one of its two lists. *)
Theorem getTypeHierarchy_resolution :
  forall (allTypes : list ExtractedType) (typeName : string),
    (getTypeHierarchy allTypes typeName = None
     <-> forall t, In t allTypes ->
                   toLowerCase (name t) <> toLowerCase typeName)
    /\ forall h, getTypeHierarchy allTypes typeName = Some h ->
         searchType allTypes typeName = Some (Hierarchy.type h)
         /\ Hierarchy.parents h
            = (orEmpty (extends (Hierarchy.type h))
               ++ orEmpty (implements (Hierarchy.type h)))%list
         /\ forall c, In c (Hierarchy.children h) ->
              exists t, In t allTypes /\ name t = c
                        /\ (mentions (extends t) (name (Hierarchy.type h))
                            \/ mentions (implements t) (name (Hierarchy.type h))).
Proof.
  intros allTypes typeName. unfold getTypeHierarchy, searchType, lookupByName.
  destruct (find _ allTypes) as [T|] eqn:E; split.
  - split; [discriminate|]. intros H. destruct (find_some _ _ E) as [Hin Heq].
    apply String.eqb_eq in Heq. now elim (H T Hin).
  - intros h [= <-]. cbn [Hierarchy.type Hierarchy.parents Hierarchy.children].
    repeat split. intros c Hc. apply in_flat_map in Hc as (t & Ht & Hc).
    exists t. split; [exact Ht|]. unfold childEntries in Hc.
    apply in_app_or in Hc as [Hc|Hc].
    + destruct (someIncludes (extends t) (name T)) eqn:Es; [|contradiction].
      destruct Hc as [<-|[]]. split; [reflexivity|]. left. now apply someIncludes_mentions.
    + destruct (someIncludes (implements t) (name T)) eqn:Es; [|contradiction].
      destruct Hc as [<-|[]]. split; [reflexivity|]. right. now apply someIncludes_mentions.
  - split; [|reflexivity]. intros _ t Ht Heq.
    pose proof (find_none _ _ E t Ht) as Hne. cbn in Hne.
    rewrite Heq, String.eqb_refl in Hne. discriminate Hne.
  - discriminate.
Qed.

Lemma getTypeHierarchy_resolution_witness :
  exists h, getTypeHierarchy hierarchyIndex "NODE" = Some h
            /\ searchType hierarchyIndex "NODE" = Some (Hierarchy.type h)
            /\ Hierarchy.parents h = ["Comparable<Node>"]
            /\ forall c, In c (Hierarchy.children h) ->
                 exists t, In t hierarchyIndex /\ name t = c
                           /\ (mentions (extends t) (name (Hierarchy.type h))
                               \/ mentions (implements t) (name (Hierarchy.type h))).
Proof.
  eexists. split; [reflexivity|].
  destruct (getTypeHierarchy_resolution hierarchyIndex "NODE") as [_ H].
  destruct (H _ eq_refl) as (H1 & H2 & H3).
  split; [exact H1|]. split; [exact H2|exact H3].
Defined.

(** ** Module filter *)

(** X6. [getTypesFromModule] returns every declaration of the named
    module, letter case apart, and also every declaration whose file
    path contains the name, whatever its module; with the empty name it
    returns the whole index. *)
Theorem getTypesFromModule_covers :
  forall (allTypes : list ExtractedType) (moduleName : string),
    (forall t, In t allTypes ->
               toLowerCase (module t) = toLowerCase moduleName ->
               In t (getTypesFromModule allTypes moduleName))
    /\ (forall t, In t allTypes ->
                  includes (toLowerCase (file t)) (toLowerCase moduleName) = true ->
                  In t (getTypesFromModule allTypes moduleName))
    /\ getTypesFromModule allTypes "" = allTypes.
Proof.
  intros allTypes moduleName. unfold getTypesFromModule. repeat split.
  - intros t Ht Heq. apply filter_In. split; [exact Ht|].
    now rewrite Heq, String.eqb_refl.
  - intros t Ht Hinc. apply filter_In. split; [exact Ht|].
    rewrite Hinc. apply orb_true_r.
  - induction allTypes as [|t l IH]; [reflexivity|].
    cbn [filter toLowerCase]. rewrite includes_empty, orb_true_r. f_equal. exact IH.
Qed.

Lemma getTypesFromModule_covers_witness :
  In (sampleDecl "Foo" KClass "Socket" (Some "The base") None None)
    (getTypesFromModule sampleIndex "SOCKET")
  /\ In (sampleDecl "Baz" KInterface "Types" None None None)
       (getTypesFromModule sampleIndex "index")
  /\ getTypesFromModule sampleIndex "" = sampleIndex.
Proof.
  destruct (getTypesFromModule_covers sampleIndex "SOCKET") as (H1 & _ & _).
  destruct (getTypesFromModule_covers sampleIndex "index") as (_ & H2 & H3).
  split; [|split].
  - apply H1; [cbn; tauto|reflexivity].
  - apply H2; [cbn; tauto|reflexivity].
  - exact H3.
Defined.

(** ** Kind filter and statistics *)

Lemma kindString_eqb (a b : ExtractedKind) :
  String.eqb (kindString a) (kindString b) = kind_eqb a b.
Proof. destruct a, b; reflexivity. Qed.

Lemma getTypesByKind_known (allTypes : list ExtractedType) (k : ExtractedKind) :
  getTypesByKind allTypes (kindString k)
  = Normal (filter (fun t => kind_eqb (kind t) k) allTypes).
Proof.
  unfold getTypesByKind. f_equal. apply filter_ext.
  intros t. apply kindString_eqb.
Qed.

Lemma kinds_partition (l : list ExtractedType) :
  sumZ (map (fun k => declarationsOfKind k l) allKinds) = Z.of_nat (List.length l).
Proof.
  induction l as [|t l IH]; [reflexivity|].
  unfold declarationsOfKind, allKinds, sumZ in *.
  cbn [map fold_right filter List.length] in *.
  destruct (kind t); cbn [kind_eqb List.length]; lia.
Qed.

(** X7. For each of the eight kinds, [getTypesByKind] returns normally
    the declarations of that kind in index order, as many as [byKind] of
    the statistics counts; the eight results together have as many
    elements as the index. *)
Theorem getTypesByKind_agrees_with_statistics :
  forall allTypes : list ExtractedType,
    let found k := returned (getTypesByKind allTypes (kindString k)) in
    (forall k, getTypesByKind allTypes (kindString k)
               = Normal (filter (fun t => kind_eqb (kind t) k) allTypes))
    /\ (forall k, kindCount k (LibraryStatistics.byKind (getStatistics allTypes))
                  = Some (Z.of_nat (List.length (found k))))
    /\ sumZ (map (fun k => Z.of_nat (List.length (found k))) allKinds)
       = Z.of_nat (List.length allTypes).
Proof.
  intros allTypes. cbv zeta. split; [|split].
  - intros k. apply getTypesByKind_known.
  - intros k. rewrite getTypesByKind_known. cbn [returned].
    unfold getStatistics. pose proof (statsInv_fold allTypes) as Hinv.
    destruct (fold_left statsStep allTypes (byKindInit, [])) as [bk mm].
    destruct Hinv as (_ & Hcount & _). cbn [fst] in Hcount.
    cbn [LibraryStatistics.byKind]. exact (Hcount k).
  - rewrite <- (kinds_partition allTypes). f_equal. apply map_ext.
    intros k. now rewrite getTypesByKind_known.
Qed.

(** X8. The three top lists of the statistics are the names of the first
    ten interfaces, type aliases and functions that the getters return,
    in index order; none is longer than ten. *)
Theorem getStatistics_top_lists :
  forall allTypes : list ExtractedType,
    let stats := getStatistics allTypes in
    LibraryStatistics.topInterfaces stats
    = firstn 10 (map name (returned (getInterfaces allTypes)))
    /\ LibraryStatistics.topTypes stats
       = firstn 10 (map name (returned (getTypes allTypes)))
    /\ LibraryStatistics.topFunctions stats
       = firstn 10 (map name (returned (getFunctions allTypes)))
    /\ (List.length (LibraryStatistics.topInterfaces stats) <= 10
        /\ List.length (LibraryStatistics.topTypes stats) <= 10
        /\ List.length (LibraryStatistics.topFunctions stats) <= 10)%nat.
Proof.
  intros allTypes. cbv zeta. unfold getStatistics.
  destruct (fold_left statsStep allTypes (byKindInit, [])) as [bk mm].
  cbn [LibraryStatistics.topInterfaces LibraryStatistics.topTypes
         LibraryStatistics.topFunctions].
  unfold getInterfaces, getTypes, getFunctions, topOfKind.
  change "interface" with (kindString KInterface).
  change "type" with (kindString KType).
  change "function" with (kindString KFunction).
  rewrite !getTypesByKind_known. cbn [returned].
  rewrite !slice0_nonneg by lia. change (Z.to_nat 10) with 10%nat.
  rewrite !firstn_map.
  repeat split; try reflexivity; rewrite length_map; apply firstn_le_length.
Qed.

(** ** Modules in order of first declaration *)

Lemma modulesInOrder_In (allTypes : list ExtractedType) (m : string) :
  In m (modulesInOrder allTypes) <-> In m (map module allTypes).
Proof.
  unfold modulesInOrder. rewrite <- in_rev, nodup_In, <- in_rev. reflexivity.
Qed.

Lemma modulesInOrder_NoDup (allTypes : list ExtractedType) :
  NoDup (modulesInOrder allTypes).
Proof. unfold modulesInOrder. apply NoDup_rev, NoDup_nodup. Qed.

Lemma modulesInOrder_snoc (done : list ExtractedType) (t : ExtractedType) :
  modulesInOrder (done ++ [t])
  = if existsb (String.eqb (module t)) (modulesInOrder done)
    then modulesInOrder done
    else (modulesInOrder done ++ [module t])%list.
Proof.
  unfold modulesInOrder at 1. rewrite map_app, rev_app_distr. cbn [map rev app nodup].
  destruct (in_dec string_dec (module t) (rev (map module done))) as [Hin|Hnin].
  - fold (modulesInOrder done).
    destruct (existsb _ (modulesInOrder done)) eqn:E; [reflexivity|].
    exfalso. apply in_rev in Hin. apply modulesInOrder_In in Hin.
    assert (Hex : existsb (String.eqb (module t)) (modulesInOrder done) = true).
    { apply existsb_exists. exists (module t). split; [exact Hin|apply String.eqb_refl]. }
    congruence.
  - cbn [rev]. fold (modulesInOrder done).
    destruct (existsb _ (modulesInOrder done)) eqn:E; [|reflexivity].
    exfalso. apply existsb_exists in E as (m & Hm & Heq).
    apply String.eqb_eq in Heq. subst m.
    apply Hnin. apply -> in_rev. now apply modulesInOrder_In.
Qed.

Lemma declarationsOfModule_snoc (m : string) (done : list ExtractedType) (t : ExtractedType) :
  declarationsOfModule m (done ++ [t])
  = (declarationsOfModule m done ++ if String.eqb (module t) m then [t] else [])%list.
Proof. unfold declarationsOfModule. now rewrite filter_app. Qed.

Lemma declarationsOfModule_absent (m : string) (done : list ExtractedType) :
  ~ In m (map module done) -> declarationsOfModule m done = [].
Proof.
  intros H. unfold declarationsOfModule. induction done as [|t l IH]; [reflexivity|].
  cbn [filter]. destruct (String.eqb_spec (module t) m) as [Heq|_].
  - exfalso. apply H. left. exact Heq.
  - apply IH. intros Hin. apply H. now right.
Qed.

Lemma tabulate_has {V} (f : string -> V) (ks : list string) (m : string) :
  existsb (fun e : string * V => String.eqb (fst e) m) (tabulate f ks)
  = existsb (String.eqb m) ks.
Proof.
  unfold tabulate. induction ks as [|k ks IH]; [reflexivity|].
  cbn [map existsb fst]. now rewrite IH, (String.eqb_sym k m).
Qed.

Lemma tabulate_update {V} (f : string -> V) (g : V -> V) (ks : list string) (m : string) :
  map (fun e : string * V => if String.eqb (fst e) m then (fst e, g (snd e)) else e)
    (tabulate f ks)
  = tabulate (fun k => if String.eqb k m then g (f k) else f k) ks.
Proof.
  unfold tabulate. rewrite map_map. apply map_ext.
  intros k. cbn [fst snd]. now destruct (String.eqb k m).
Qed.

Lemma tabulate_ext_in {V} (f g : string -> V) (ks : list string) :
  (forall k, In k ks -> f k = g k) -> tabulate f ks = tabulate g ks.
Proof. intros H. unfold tabulate. apply map_ext_in. intros k Hk. now rewrite H. Qed.

Lemma tabulate_snoc {V} (f : string -> V) (ks : list string) (k : string) :
  (tabulate f ks ++ [(k, f k)])%list = tabulate f (ks ++ [k]).
Proof. unfold tabulate. now rewrite map_app. Qed.

Lemma existsb_eqb_In (m : string) (ks : list string) :
  existsb (String.eqb m) ks = true <-> In m ks.
Proof.
  rewrite existsb_exists. split.
  - intros (k & Hk & Heq). apply String.eqb_eq in Heq. now subst.
  - intros H. exists m. split; [exact H|apply String.eqb_refl].
Qed.

(** ** Statistics by module *)

Lemma statisticsOfModule_absent (done : list ExtractedType) (m : string) :
  ~ In m (map module done) -> statisticsOfModule done m = ModuleStatistics.zero m.
Proof.
  intros H. unfold statisticsOfModule. now rewrite (declarationsOfModule_absent m done H).
Qed.

Lemma statisticsOfModule_snoc (done : list ExtractedType) (t : ExtractedType) (m : string) :
  statisticsOfModule (done ++ [t]) m
  = if String.eqb m (module t)
    then ModuleStatistics.count (kind t) (statisticsOfModule done m)
    else statisticsOfModule done m.
Proof.
  unfold statisticsOfModule. rewrite declarationsOfModule_snoc, (String.eqb_sym m).
  destruct (String.eqb (module t) m); [|now rewrite app_nil_r].
  rewrite !declarationsOfKind_snoc, length_app, Nat2Z.inj_add.
  destruct (kind t); unfold ModuleStatistics.count;
    cbn [ModuleStatistics.module ModuleStatistics.interfaces ModuleStatistics.types
           ModuleStatistics.enums ModuleStatistics.functions ModuleStatistics.classes
           ModuleStatistics.variables ModuleStatistics.namespaces
           ModuleStatistics.reExports ModuleStatistics.total kind_eqb List.length];
    f_equal; lia.
Qed.

(** The module map of [getStatistics] after the loop. *)
Lemma statsFold_modules (allTypes : list ExtractedType) :
  snd (fold_left statsStep allTypes (byKindInit, []))
  = tabulate (statisticsOfModule allTypes) (modulesInOrder allTypes).
Proof.
  induction allTypes as [|t done IH] using rev_ind; [reflexivity|].
  rewrite fold_left_app. cbn [fold_left].
  destruct (fold_left statsStep done (byKindInit, [])) as [bk mm].
  cbn [snd] in IH. subst mm. cbn [statsStep snd].
  unfold mapHas, mapSetNew, mapUpdate. rewrite tabulate_has, modulesInOrder_snoc.
  destruct (existsb (String.eqb (module t)) (modulesInOrder done)) eqn:E; cbn [negb].
  - rewrite tabulate_update. apply tabulate_ext_in.
    intros k _. now rewrite statisticsOfModule_snoc.
  - assert (Hnew : ~ In (module t) (map module done)).
    { intros Hin. apply modulesInOrder_In, existsb_eqb_In in Hin. congruence. }
    rewrite <- (statisticsOfModule_absent done (module t) Hnew), tabulate_snoc.
    rewrite tabulate_update. apply tabulate_ext_in.
    intros k _. now rewrite statisticsOfModule_snoc.
Qed.

Lemma getStatistics_byModule_eq (allTypes : list ExtractedType) :
  LibraryStatistics.byModule (getStatistics allTypes)
  = sort_desc ModuleStatistics.total
      (map (statisticsOfModule allTypes) (modulesInOrder allTypes)).
Proof.
  unfold getStatistics. pose proof (statsFold_modules allTypes) as H.
  destruct (fold_left statsStep allTypes (byKindInit, [])) as [bk mm].
  cbn [snd] in H. subst mm. cbn [LibraryStatistics.byModule].
  unfold tabulate. rewrite map_map. cbn [snd]. reflexivity.
Qed.

Lemma statisticsOfModule_total (allTypes : list ExtractedType) (m : string) :
  let r := statisticsOfModule allTypes m in
  ModuleStatistics.total r
  = ModuleStatistics.interfaces r + ModuleStatistics.types r + ModuleStatistics.enums r
    + ModuleStatistics.functions r + ModuleStatistics.classes r
    + ModuleStatistics.variables r + ModuleStatistics.namespaces r
    + ModuleStatistics.reExports r.
Proof.
  cbv zeta. unfold statisticsOfModule.
  cbn [ModuleStatistics.interfaces ModuleStatistics.types
         ModuleStatistics.enums ModuleStatistics.functions ModuleStatistics.classes
         ModuleStatistics.variables ModuleStatistics.namespaces
         ModuleStatistics.reExports ModuleStatistics.total].
  rewrite <- (kinds_partition (declarationsOfModule m allTypes)).
  unfold allKinds, sumZ. cbn [map fold_right]. lia.
Qed.

Lemma declarationsOfModule_present (allTypes : list ExtractedType) (m : string) :
  In m (modulesInOrder allTypes) ->
  (1 <= List.length (declarationsOfModule m allTypes))%nat.
Proof.
  intros H. apply modulesInOrder_In, in_map_iff in H as (t & Hm & Ht).
  assert (Hin : In t (declarationsOfModule m allTypes)).
  { apply filter_In. split; [exact Ht|]. now apply String.eqb_eq. }
  destruct (declarationsOfModule m allTypes); [contradiction|cbn; lia].
Qed.

(** X9. [byModule] of the statistics holds, for every module in order
    of first declaration, the record with the number of its declarations
    of each kind and their number in all, stably sorted by descending
    total.  So every record's total is the sum of its eight counts and is
    at least one, and modules of equal total stay in the order of their
    first declaration. *)
Theorem getStatistics_byModule_counts :
  forall allTypes : list ExtractedType,
    let byModule := LibraryStatistics.byModule (getStatistics allTypes) in
    let records := map (statisticsOfModule allTypes) (modulesInOrder allTypes) in
    byModule = sort_desc ModuleStatistics.total records
    /\ (forall r, In r byModule ->
          r = statisticsOfModule allTypes (ModuleStatistics.module r)
          /\ ModuleStatistics.total r
             = ModuleStatistics.interfaces r + ModuleStatistics.types r
               + ModuleStatistics.enums r + ModuleStatistics.functions r
               + ModuleStatistics.classes r + ModuleStatistics.variables r
               + ModuleStatistics.namespaces r + ModuleStatistics.reExports r
          /\ 1 <= ModuleStatistics.total r)
    /\ (forall v, filter (fun r => ModuleStatistics.total r =? v) byModule
                  = filter (fun r => ModuleStatistics.total r =? v) records).
Proof.
  intros allTypes. cbv zeta. rewrite getStatistics_byModule_eq.
  split; [reflexivity|]. split.
  - intros r Hr.
    apply (Permutation_in _ (Permutation_sym (sort_desc_perm _ _))) in Hr.
    apply in_map_iff in Hr as (m & <- & Hm).
    split; [reflexivity|]. split; [apply statisticsOfModule_total|].
    pose proof (declarationsOfModule_present allTypes m Hm) as Hlen.
    unfold statisticsOfModule. cbn [ModuleStatistics.total]. lia.
  - intros v. apply sort_desc_filter.
Qed.

(** ** Dependencies *)

Lemma somes_app {A} (xs ys : list (option A)) :
  somes (xs ++ ys) = (somes xs ++ somes ys)%list.
Proof.
  induction xs as [|[x|] xs IH]; cbn [app somes]; [reflexivity| |exact IH].
  now rewrite IH.
Qed.

Lemma dependenciesOfModule_absent (done : list ExtractedType) (m : string) :
  ~ In m (map module done) ->
  dependenciesOfModule done m = DependencyInfo.mk m [] [] [].
Proof.
  intros H. unfold dependenciesOfModule.
  now rewrite (declarationsOfModule_absent m done H).
Qed.

Lemma dependenciesOfModule_snoc (done : list ExtractedType) (t : ExtractedType) (m : string) :
  dependenciesOfModule (done ++ [t]) m
  = if String.eqb m (module t)
    then depRound t (dependenciesOfModule done m)
    else dependenciesOfModule done m.
Proof.
  unfold dependenciesOfModule. rewrite declarationsOfModule_snoc, (String.eqb_sym m).
  destruct (String.eqb (module t) m); [|now rewrite app_nil_r].
  rewrite !map_app, somes_app. cbn [map somes]. unfold depRound.
  destruct (reExportSourceOf t); cbn [somes]; [reflexivity|].
  unfold DependencyInfo.pushExport. cbn [DependencyInfo.module DependencyInfo.imports
    DependencyInfo.exports DependencyInfo.reExportsFrom]. now rewrite app_nil_r.
Qed.

Lemma depUpdate_twice (m : string) f g (dm : DependencyMap) :
  depUpdate m g (depUpdate m f dm) = depUpdate m (fun d => g (f d)) dm.
Proof.
  unfold depUpdate. rewrite map_map. apply map_ext.
  intros [k d]. cbn [fst snd]. destruct (String.eqb k m) eqn:E; cbn [fst snd]; now rewrite E.
Qed.

(** One round of the loop, as an update of the record of the module once
    the record is there. *)
Lemma depStep_update (dm : DependencyMap) (t : ExtractedType) :
  depStep dm t
  = depUpdate (module t) (depRound t)
      (if negb (depHas (module t) dm)
       then (dm ++ [(module t, DependencyInfo.mk (module t) [] [] [])])%list
       else dm).
Proof.
  unfold depStep. destruct (depHas (module t) dm) eqn:E; cbn [negb].
  - unfold depRound. destruct (reExportSourceOf t); [|reflexivity].
    now rewrite depUpdate_twice.
  - assert (Hold : forall f, depUpdate (module t) f dm = dm).
    { intros f. unfold depUpdate, depHas in *. rewrite <- (map_id dm) at 2.
      apply map_ext_in. intros e He.
      destruct (String.eqb (fst e) (module t)) eqn:Ee; [|reflexivity].
      exfalso. assert (existsb (fun e => String.eqb (fst e) (module t)) dm = true)
        by (apply existsb_exists; now exists e). congruence. }
    unfold depUpdate in *. rewrite !map_app, !Hold. cbn [map fst snd].
    rewrite String.eqb_refl. unfold depRound.
    destruct (reExportSourceOf t).
    + rewrite map_app, Hold. cbn [map fst snd]. now rewrite String.eqb_refl.
    + reflexivity.
Qed.

(** The dependency map after the loop. *)
Lemma depFold_modules (allTypes : list ExtractedType) :
  fold_left depStep allTypes []
  = tabulate (dependenciesOfModule allTypes) (modulesInOrder allTypes).
Proof.
  induction allTypes as [|t done IH] using rev_ind; [reflexivity|].
  rewrite fold_left_app. cbn [fold_left]. rewrite IH, depStep_update.
  unfold depHas, depUpdate. rewrite tabulate_has, modulesInOrder_snoc.
  destruct (existsb (String.eqb (module t)) (modulesInOrder done)) eqn:E; cbn [negb].
  - rewrite tabulate_update. apply tabulate_ext_in.
    intros k _. now rewrite dependenciesOfModule_snoc.
  - assert (Hnew : ~ In (module t) (map module done)).
    { intros Hin. apply modulesInOrder_In, existsb_eqb_In in Hin. congruence. }
    rewrite <- (dependenciesOfModule_absent done (module t) Hnew), tabulate_snoc.
    rewrite tabulate_update. apply tabulate_ext_in.
    intros k _. now rewrite dependenciesOfModule_snoc.
Qed.

Lemma analyzeDependencies_eq (allTypes : list ExtractedType) :
  analyzeDependencies allTypes
  = map (dependenciesOfModule allTypes) (modulesInOrder allTypes).
Proof.
  unfold analyzeDependencies. rewrite depFold_modules.
  unfold tabulate. rewrite map_map. reflexivity.
Qed.

(** X10. [analyzeDependencies] returns one record per module, in the
    order in which the modules first occur in the index.  The record of a
    module lists under [exports] the names of all its declarations in
    index order, under [reExportsFrom] the non-empty sources of its
    re-export records in index order, and never anything under
    [imports]. *)
Theorem analyzeDependencies_by_module :
  forall allTypes : list ExtractedType,
    analyzeDependencies allTypes
    = map (dependenciesOfModule allTypes) (modulesInOrder allTypes)
    /\ map DependencyInfo.module (analyzeDependencies allTypes)
       = modulesInOrder allTypes
    /\ NoDup (map DependencyInfo.module (analyzeDependencies allTypes))
    /\ forall d, In d (analyzeDependencies allTypes) ->
         let own := declarationsOfModule (DependencyInfo.module d) allTypes in
         DependencyInfo.imports d = []
         /\ DependencyInfo.exports d = map name own
         /\ DependencyInfo.reExportsFrom d = somes (map reExportSourceOf own)
         /\ own <> [].
Proof.
  intros allTypes. rewrite analyzeDependencies_eq.
  assert (Hmods : map DependencyInfo.module
                    (map (dependenciesOfModule allTypes) (modulesInOrder allTypes))
                  = modulesInOrder allTypes).
  { rewrite map_map. cbn [dependenciesOfModule DependencyInfo.module]. apply map_id. }
  split; [reflexivity|]. split; [exact Hmods|]. split.
  - rewrite Hmods. apply modulesInOrder_NoDup.
  - intros d Hd. cbv zeta. apply in_map_iff in Hd as (m & <- & Hm).
    cbn [dependenciesOfModule DependencyInfo.module DependencyInfo.imports
           DependencyInfo.exports DependencyInfo.reExportsFrom].
    repeat split. intros Hnil.
    pose proof (declarationsOfModule_present allTypes m Hm) as Hlen.
    rewrite Hnil in Hlen. cbn in Hlen. lia.
Qed.

(** X11. The dependency records and the module statistics describe the
    same modules, and the number of names a module exports is the total
    of its statistics record: the pairs of module and count of the one
    list are a rearrangement of the pairs of the other.  All the exports
    together are as many as the declarations of the index. *)
Theorem analyzeDependencies_agrees_with_statistics :
  forall allTypes : list ExtractedType,
    Permutation
      (map (fun d => (DependencyInfo.module d,
                      Z.of_nat (List.length (DependencyInfo.exports d))))
         (analyzeDependencies allTypes))
      (map (fun r => (ModuleStatistics.module r, ModuleStatistics.total r))
         (LibraryStatistics.byModule (getStatistics allTypes)))
    /\ sumZ (map (fun d => Z.of_nat (List.length (DependencyInfo.exports d)))
               (analyzeDependencies allTypes))
       = Z.of_nat (List.length allTypes).
Proof.
  intros allTypes. rewrite analyzeDependencies_eq, getStatistics_byModule_eq.
  assert (Hsame : map (fun d => (DependencyInfo.module d,
                                 Z.of_nat (List.length (DependencyInfo.exports d))))
                    (map (dependenciesOfModule allTypes) (modulesInOrder allTypes))
                  = map (fun r => (ModuleStatistics.module r, ModuleStatistics.total r))
                      (map (statisticsOfModule allTypes) (modulesInOrder allTypes))).
  { rewrite !map_map. apply map_ext. intros m.
    cbn [dependenciesOfModule statisticsOfModule DependencyInfo.module
           DependencyInfo.exports ModuleStatistics.module ModuleStatistics.total].
    now rewrite length_map. }
  split.
  - rewrite Hsame. apply Permutation_map, sort_desc_perm.
  - pose proof (statsInv_fold allTypes) as Hinv.
    pose proof (statsFold_modules allTypes) as Hmm.
    destruct (fold_left statsStep allTypes (byKindInit, [])) as [bk mm].
    destruct Hinv as (_ & _ & _ & _ & _ & Htot & _). cbn [snd] in Htot, Hmm.
    rewrite <- Htot, Hmm. f_equal. unfold totals, tabulate. rewrite !map_map.
    apply map_ext. intros m.
    cbn [dependenciesOfModule statisticsOfModule DependencyInfo.exports
           ModuleStatistics.total snd].
    now rewrite length_map.
Qed.

(** The dependencies of the sample index. *)
Example analyzeDependencies_sample :
  analyzeDependencies sampleIndex
  = [ DependencyInfo.mk "Types" [] ["Baz"; "xFoo"] [];
      DependencyInfo.mk "Socket" [] ["FooBar"; "Foo"] [] ].
Proof. reflexivity. Qed.


(** * Properties of the declaration normalizer *)

(** ** Paths *)

Lemma append_snoc_assoc (a : string) (c : ascii) (b : string) :
  (a ++ String c EmptyString) ++ b = a ++ String c b.
Proof. induction a as [|x a IH]; cbn [append]; [reflexivity|now rewrite IH]. Qed.

Lemma append_empty_r (a : string) : a ++ EmptyString = a.
Proof. induction a as [|x a IH]; cbn [append]; [reflexivity|now rewrite IH]. Qed.

Lemma hasChar_append (c : ascii) (a b : string) :
  hasChar c (a ++ b) = hasChar c a || hasChar c b.
Proof.
  induction a as [|x a IH]; cbn [append hasChar]; [reflexivity|].
  now rewrite IH, orb_assoc.
Qed.

Lemma splitChar_nonempty (sep : ascii) (cur s : string) :
  exists p ps, splitChar sep cur s = p :: ps.
Proof.
  revert cur. induction s as [|c s IH]; intros cur; cbn [splitChar].
  - now eexists; eexists.
  - destruct (Ascii.eqb c sep); [now eexists; eexists|apply IH].
Qed.

Lemma splitChar_no_sep (sep : ascii) (cur s : string) :
  hasChar sep s = false -> splitChar sep cur s = [cur ++ s].
Proof.
  revert cur. induction s as [|c s IH]; intros cur; cbn [splitChar hasChar].
  - now rewrite append_empty_r.
  - intros H. apply orb_false_elim in H as [Hc Hs]. rewrite Hc.
    rewrite (IH _ Hs). now rewrite append_snoc_assoc.
Qed.

Lemma splitChar_first (sep : ascii) (cur s : string) :
  hasChar sep s = true ->
  exists first rest p ps,
    s = first ++ String sep rest
    /\ hasChar sep first = false
    /\ splitChar sep cur s = (cur ++ first) :: p :: ps.
Proof.
  revert cur. induction s as [|c s IH]; intros cur; cbn [splitChar hasChar];
    [discriminate|].
  destruct (Ascii.eqb_spec c sep) as [->|Hne]; cbn [orb].
  - intros _. destruct (splitChar_nonempty sep EmptyString s) as (p & ps & Hp).
    exists EmptyString, s, p, ps. rewrite Hp, append_empty_r. now repeat split.
  - intros H. destruct (IH (cur ++ String c EmptyString) H)
      as (first & rest & p & ps & -> & Hfirst & Hsplit).
    exists (String c first), rest, p, ps. repeat split.
    + cbn [hasChar]. rewrite Hfirst.
      destruct (Ascii.eqb_spec c sep); [contradiction|reflexivity].
    + now rewrite Hsplit, append_snoc_assoc.
Qed.

(** X12. The module of a file is [root] when its path relative to the
    source root holds no separator; otherwise it is the text of that
    path before its first separator, so that it never holds a separator
    itself. *)
Theorem getModuleNameOf_first_segment :
  forall (relative_ : string -> string -> string) (sep : ascii)
         (whaileysSrcPath filePath : string),
    let relativePath := relative_ whaileysSrcPath filePath in
    let moduleName := getModuleNameOf relative_ sep whaileysSrcPath filePath in
    (hasChar sep relativePath = false -> moduleName = "root")
    /\ (hasChar sep relativePath = true ->
        hasChar sep moduleName = false
        /\ exists rest, relativePath = moduleName ++ String sep rest).
Proof.
  intros relative_ sep src filePath. cbv zeta. unfold getModuleNameOf. split.
  - intros H. now rewrite (splitChar_no_sep _ _ _ H).
  - intros H. destruct (splitChar_first sep EmptyString _ H)
      as (first & rest & p & ps & Hrel & Hfirst & Hsplit).
    rewrite Hsplit. cbn [append]. split; [exact Hfirst|]. now exists rest.
Qed.

Lemma getModuleNameOf_first_segment_witness :
  getModuleNameOf (fun _ f => f) "/"%char "/repo/src" "index.ts" = "root"
  /\ hasChar "/"%char
       (getModuleNameOf (fun _ f => f) "/"%char "/repo/src" "Types/Message.ts") = false
  /\ exists rest,
       "Types/Message.ts"
       = getModuleNameOf (fun _ f => f) "/"%char "/repo/src" "Types/Message.ts"
           ++ String "/"%char rest.
Proof.
  destruct (getModuleNameOf_first_segment (fun _ f => f) "/"%char "/repo/src" "index.ts")
    as [H1 _].
  destruct (getModuleNameOf_first_segment (fun _ f => f) "/"%char "/repo/src"
              "Types/Message.ts") as [_ H2].
  split; [apply H1; reflexivity|]. apply H2. reflexivity.
Defined.

(** X13. The [file] of a record is the relative path with every
    backslash turned into a slash: it holds no backslash, has the length
    of the relative path, and is the relative path itself when that has
    no backslash. *)
Theorem getRelativePathOf_forward_slashes :
  forall (relative_ : string -> string -> string) (whaileysSrcPath filePath : string),
    let relativePath := relative_ whaileysSrcPath filePath in
    let file_ := getRelativePathOf relative_ whaileysSrcPath filePath in
    hasChar backslash file_ = false
    /\ String.length file_ = String.length relativePath
    /\ (hasChar backslash relativePath = false -> file_ = relativePath).
Proof.
  intros relative_ src filePath. cbv zeta. unfold getRelativePathOf.
  generalize (relative_ src filePath) as s. intros s. repeat split.
  - induction s as [|c s IH]; [reflexivity|]. cbn [slashes hasChar].
    rewrite IH. destruct (Ascii.eqb_spec c backslash) as [->|Hne]; [reflexivity|].
    destruct (Ascii.eqb_spec c backslash); [contradiction|reflexivity].
  - induction s as [|c s IH]; [reflexivity|]. cbn [slashes String.length]. now rewrite IH.
  - induction s as [|c s IH]; [reflexivity|]. cbn [slashes hasChar].
    intros H. apply orb_false_elim in H as [Hc Hs]. now rewrite Hc, (IH Hs).
Qed.

(** ** Interfaces and classes *)

(** X14. In the record of an interface, [properties] has one entry per
    declared property, none of them flagged; [methods] has one entry per
    method, call signature and index signature, in that order, each with
    exactly one of the three flags set.  Methods and call signatures
    carry their parameters and a return type equal to their type; index
    signatures carry neither. *)
Theorem extractInterface_entries :
  forall (iface : InterfaceDeclaration.t) (file_ module_ : string),
    exists ps ms,
      properties (extractInterface iface file_ module_) = Some ps
      /\ methods (extractInterface iface file_ module_) = Some ms
      /\ map PropertyInfo.name ps
         = map PropertyNode.getName (InterfaceDeclaration.getProperties iface)
      /\ List.length ms
         = (List.length (InterfaceDeclaration.getMethods iface)
            + List.length (InterfaceDeclaration.getCallSignatures iface)
            + List.length (InterfaceDeclaration.getIndexSignatures iface))%nat
      /\ (forall p, In p ps ->
            flagCount p = 0%nat
            /\ PropertyInfo.parameters p = None /\ PropertyInfo.returnType p = None)
      /\ (forall p, In p ms ->
            flagCount p = 1%nat
            /\ (PropertyInfo.isIndexSignature p = false ->
                PropertyInfo.parameters p <> None
                /\ PropertyInfo.returnType p = Some (PropertyInfo.type p))
            /\ (PropertyInfo.isIndexSignature p = true ->
                PropertyInfo.parameters p = None /\ PropertyInfo.returnType p = None)).
Proof.
  intros iface file_ module_. unfold extractInterface. cbn [properties methods].
  eexists; eexists. split; [reflexivity|]. split; [reflexivity|].
  split; [rewrite map_map; reflexivity|]. split.
  - rewrite !length_app, !length_map. lia.
  - split.
    + intros p Hp. apply in_map_iff in Hp as (node & <- & _).
      unfold interfaceProperty, flagCount.
      cbn [PropertyInfo.isMethod PropertyInfo.isCallSignature
             PropertyInfo.isIndexSignature PropertyInfo.parameters
             PropertyInfo.returnType]. repeat split; reflexivity.
    + intros p Hp. apply in_app_or in Hp as [Hp|Hp];
        [|apply in_app_or in Hp as [Hp|Hp]];
        apply in_map_iff in Hp as (node & <- & _);
        unfold interfaceMethod, interfaceCallSignature, interfaceIndexSignature, flagCount;
        cbn [PropertyInfo.isMethod PropertyInfo.isCallSignature
               PropertyInfo.isIndexSignature PropertyInfo.parameters
               PropertyInfo.returnType PropertyInfo.type];
        repeat split; try discriminate; reflexivity.
Qed.

(** X15. In the record of a class, [methods] and [properties] hold the
    members whose scope is public or not given, in source order, and no
    other: a name that belongs to non-public members only does not
    occur.  Every entry of [methods] is flagged as a method only,
    required and not read-only.  [extends] is absent or holds the one
    base class; [implements] is absent or non-empty. *)
Theorem extractClass_public_members :
  forall (classDecl : ClassDeclaration.t) (file_ module_ : string),
    exists ps ms,
      properties (extractClass classDecl file_ module_) = Some ps
      /\ methods (extractClass classDecl file_ module_) = Some ms
      /\ map PropertyInfo.name ms
         = map MethodNode.getName
             (filter (fun m => isPublic (MethodNode.getScope m))
                (ClassDeclaration.getMethods classDecl))
      /\ map PropertyInfo.name ps
         = map PropertyNode.getName
             (filter (fun p => isPublic (PropertyNode.getScope p))
                (ClassDeclaration.getProperties classDecl))
      /\ (forall n,
            (forall m, In m (ClassDeclaration.getMethods classDecl) ->
                       MethodNode.getName m = n ->
                       isPublic (MethodNode.getScope m) = false) ->
            ~ In n (map PropertyInfo.name ms))
      /\ (forall p, In p ms ->
            PropertyInfo.isMethod p = true /\ flagCount p = 1%nat
            /\ PropertyInfo.optional p = false /\ PropertyInfo.readonly p = false)
      /\ (forall p, In p ps -> flagCount p = 0%nat)
      /\ extends (extractClass classDecl file_ module_)
         = option_map (fun text => [text]) (ClassDeclaration.getExtends classDecl)
      /\ implements (extractClass classDecl file_ module_)
         = match ClassDeclaration.getImplements classDecl with
           | [] => None
           | texts => Some texts
           end.
Proof.
  intros classDecl file_ module_. unfold extractClass.
  cbn [properties methods extends implements].
  eexists; eexists. split; [reflexivity|]. split; [reflexivity|].
  split; [rewrite map_map; reflexivity|]. split; [rewrite map_map; reflexivity|]. split.
  - intros n Hn Hin. rewrite map_map in Hin.
    apply in_map_iff in Hin as (m & Hname & Hm). apply filter_In in Hm as [Hm Hpub].
    unfold classMethod in Hname. cbn [PropertyInfo.name] in Hname.
    rewrite (Hn m Hm Hname) in Hpub. discriminate Hpub.
  - split; [|split].
    + intros p Hp. apply in_map_iff in Hp as (m & <- & _).
      unfold classMethod, flagCount.
      cbn [PropertyInfo.isMethod PropertyInfo.isCallSignature
             PropertyInfo.isIndexSignature PropertyInfo.optional PropertyInfo.readonly].
      repeat split; reflexivity.
    + intros p Hp. apply in_map_iff in Hp as (m & <- & _). reflexivity.
    + split; [destruct (ClassDeclaration.getExtends classDecl); reflexivity|].
      destruct (ClassDeclaration.getImplements classDecl); reflexivity.
Qed.

Lemma startsWith_append (p s : string) : startsWith (p ++ s) p = true.
Proof.
  induction p as [|c p IH]; cbn [append startsWith]; [now destruct s|].
  now rewrite Ascii.eqb_refl, IH.
Qed.

Lemma startsWith_append_l (a b p : string) :
  startsWith a p = true -> startsWith (a ++ b) p = true.
Proof.
  revert a. induction p as [|c p IH]; intros a; [now destruct (a ++ b)|].
  destruct a as [|x a]; cbn [append startsWith]; [discriminate|].
  intros H. apply andb_prop in H as [Hc Hp]. now rewrite Hc, (IH _ Hp).
Qed.

Lemma string_append_assoc (a b c : string) : (a ++ b) ++ c = a ++ b ++ c.
Proof. induction a as [|x a IH]; cbn [append]; [reflexivity|now rewrite IH]. Qed.

(** X16. An exported function or class without a name gets the name
    [anonymous] or [AnonymousClass], while its signature is built from
    the missing name and shows [undefined] in its place. *)
Theorem anonymous_name_and_signature :
  (forall (funcDecl : FunctionDeclaration.t) (file_ module_ : string),
     FunctionDeclaration.getName funcDecl = None ->
     name (extractFunction funcDecl file_ module_) = "anonymous"
     /\ startsWith (signature (extractFunction funcDecl file_ module_))
          "function undefined" = true)
  /\ (forall (classDecl : ClassDeclaration.t) (file_ module_ : string),
        ClassDeclaration.getName classDecl = None ->
        name (extractClass classDecl file_ module_) = "AnonymousClass"
        /\ startsWith (signature (extractClass classDecl file_ module_))
             "class undefined" = true).
Proof.
  split.
  - intros funcDecl file_ module_ Hname. unfold extractFunction.
    cbn [name signature]. rewrite Hname. cbn [orElse interpolate].
    split; [reflexivity|].
    change ("function " ++ "undefined" ++ ?s) with ("function undefined" ++ s).
    apply startsWith_append.
  - intros classDecl file_ module_ Hname. unfold extractClass.
    cbn [name signature]. rewrite Hname. cbn [orElse interpolate].
    split; [reflexivity|].
    assert (H0 : forall s, startsWith ("class " ++ "undefined" ++ s) "class undefined" = true).
    { intros s. change ("class " ++ "undefined" ++ s) with ("class undefined" ++ s).
      apply startsWith_append. }
    set (base := "class " ++ "undefined" ++ _).
    assert (Hbase : startsWith base "class undefined" = true) by apply H0.
    destruct (ClassDeclaration.getExtends classDecl) as [text|],
      (ClassDeclaration.getImplements classDecl) as [|i texts].
    + now apply startsWith_append_l.
    + now do 2 apply startsWith_append_l.
    + exact Hbase.
    + now apply startsWith_append_l.
Qed.

Lemma anonymous_name_and_signature_witness :
  name (extractFunction
          (FunctionDeclaration.mk true None [] [] "void" (DocNode.mk None) 1)
          "index.ts" "root") = "anonymous"
  /\ signature (extractFunction
                  (FunctionDeclaration.mk true None [] [] "void" (DocNode.mk None) 1)
                  "index.ts" "root") = "function undefined(): void".
Proof.
  destruct anonymous_name_and_signature as [H _].
  split; [|reflexivity].
  apply (H (FunctionDeclaration.mk true None [] [] "void" (DocNode.mk None) 1)).
  reflexivity.
Defined.

(** ** Variables *)

Lemma string_length_append (a b : string) :
  String.length (a ++ b) = (String.length a + String.length b)%nat.
Proof. induction a as [|c a IH]; cbn [append String.length]; [reflexivity|now rewrite IH]. Qed.

Lemma substring_prefix_length (n : nat) (s : string) :
  String.length (String.substring 0 n s) = Nat.min n (String.length s).
Proof.
  revert s. induction n as [|n IH]; intros s; destruct s as [|c s];
    cbn [String.substring String.length Nat.min]; try reflexivity.
  now rewrite IH.
Qed.

Lemma substring_prefix (n : nat) (s : string) :
  startsWith s (String.substring 0 n s) = true.
Proof.
  revert s. induction n as [|n IH]; intros s; destruct s as [|c s];
    cbn [String.substring startsWith]; try reflexivity.
  now rewrite Ascii.eqb_refl, IH.
Qed.

(** X17. The [value] of a variable record is absent exactly when the
    variable has no initializer.  An initializer of at most 100 code
    units is kept as it is; a longer one is cut to its first 100 code
    units followed by three dots, 103 code units in all: no value is
    longer than that. *)
Theorem extractVariable_value :
  forall (varDecl : VariableDeclaration.t) (file_ module_ : string),
    let r := extractVariable varDecl file_ module_ in
    (value r = None <-> VariableDeclaration.getInitializer varDecl = None)
    /\ forall initText, VariableDeclaration.getInitializer varDecl = Some initText ->
         exists v, value r = Some v
           /\ (String.length v <= 103)%nat
           /\ ((String.length initText <= 100)%nat -> v = initText)
           /\ ((100 < String.length initText)%nat ->
               v = String.substring 0 100 initText ++ "..."
               /\ String.length v = 103%nat
               /\ startsWith initText (String.substring 0 100 initText) = true).
Proof.
  intros varDecl file_ module_. cbv zeta. unfold extractVariable. cbn [value]. split.
  - destruct (VariableDeclaration.getInitializer varDecl); cbn [option_map];
      split; intros H; try reflexivity; discriminate H.
  - intros initText ->. cbn [option_map]. eexists. split; [reflexivity|].
    unfold truncateInitializer.
    destruct (100 <? String.length initText)%nat eqn:E.
    + apply Nat.ltb_lt in E.
      assert (Hlen : String.length (String.substring 0 100 initText ++ "...") = 103%nat).
      { rewrite string_length_append, substring_prefix_length.
        change (String.length "...") with 3%nat. lia. }
      split; [lia|]. split; [lia|]. intros _.
      split; [reflexivity|]. split; [exact Hlen|apply substring_prefix].
    + apply Nat.ltb_ge in E. split; [lia|]. split; [reflexivity|]. lia.
Qed.

Lemma extractVariable_value_witness :
  exists v,
    value (extractVariable
             (VariableDeclaration.mk "DEFAULT_TIMEOUT" "number" (Some "60_000") None 3)
             "Defaults/index.ts" "Defaults") = Some v
    /\ (String.length v <= 103)%nat
    /\ ((String.length "60_000" <= 100)%nat -> v = "60_000")
    /\ ((100 < String.length "60_000")%nat ->
        v = String.substring 0 100 "60_000" ++ "..."
        /\ String.length v = 103%nat
        /\ startsWith "60_000" (String.substring 0 100 "60_000") = true).
Proof.
  destruct (extractVariable_value
              (VariableDeclaration.mk "DEFAULT_TIMEOUT" "number" (Some "60_000") None 3)
              "Defaults/index.ts" "Defaults") as [_ H].
  apply H. reflexivity.
Defined.

(** X18. A variable record in the index is among [getConstants] exactly
    when the declaration kind of its statement, one of [var], [let] and
    [const], is [const]; it also is when the variable has no statement
    or the statement no kind, since the signature then starts with the
    default [const]. *)
Theorem getConstants_by_declaration_kind :
  forall (allTypes : list ExtractedType) (varDecl : VariableDeclaration.t)
         (file_ module_ : string),
    let r := extractVariable varDecl file_ module_ in
    In r allTypes ->
    (forall stmt, VariableDeclaration.getVariableStatement varDecl = Some stmt ->
                  In (VariableStatement.getDeclarationKind stmt) declarationKinds ->
                  (In r (returned (getConstants allTypes))
                   <-> VariableStatement.getDeclarationKind stmt = "const"))
    /\ (orElse (option_map VariableStatement.getDeclarationKind
                  (VariableDeclaration.getVariableStatement varDecl)) "const" = "const" ->
        In r (returned (getConstants allTypes))).
Proof.
  intros allTypes varDecl file_ module_. cbv zeta. intros Hin.
  assert (Hconst : forall r, In r (returned (getConstants allTypes))
                             <-> In r allTypes /\ kind r = KVariable
                                 /\ startsWith (signature r) "const" = true).
  { intros r. unfold getConstants, getVariables.
    change "variable" with (kindString KVariable). rewrite getTypesByKind_known.
    cbn [returned]. rewrite !filter_In, kind_eqb_eq. tauto. }
  split.
  - intros stmt Hstmt Hkind. rewrite Hconst.
    unfold extractVariable in *. rewrite Hstmt in *. cbn [option_map kind signature] in *.
    destruct Hkind as [Hk|[Hk|[Hk|[]]]]; rewrite <- Hk in *; cbn [orElse truthy] in *.
    + split; [intros (_ & _ & H); discriminate H|discriminate].
    + split; [intros (_ & _ & H); discriminate H|discriminate].
    + split; [reflexivity|]. intros _. split; [exact Hin|]. split; [reflexivity|].
      apply startsWith_append.
  - intros Hdefault. apply Hconst. split; [exact Hin|]. split; [reflexivity|].
    unfold extractVariable. cbn [signature]. rewrite Hdefault.
    apply startsWith_append.
Qed.

Lemma getConstants_by_declaration_kind_witness :
  let constDecl :=
    VariableDeclaration.mk "DEFAULT_TIMEOUT" "number" (Some "60_000")
      (Some (VariableStatement.mk true "const" (DocNode.mk None))) 3 in
  In (extractVariable constDecl "Defaults/index.ts" "Defaults")
    (returned (getConstants [extractVariable constDecl "Defaults/index.ts" "Defaults"]))
  <-> "const" = "const".
Proof.
  cbv zeta.
  destruct (getConstants_by_declaration_kind
              [extractVariable
                 (VariableDeclaration.mk "DEFAULT_TIMEOUT" "number" (Some "60_000")
                    (Some (VariableStatement.mk true "const" (DocNode.mk None))) 3)
                 "Defaults/index.ts" "Defaults"]
              (VariableDeclaration.mk "DEFAULT_TIMEOUT" "number" (Some "60_000")
                 (Some (VariableStatement.mk true "const" (DocNode.mk None))) 3)
              "Defaults/index.ts" "Defaults") as [H _]; [now left|].
  apply (H (VariableStatement.mk true "const" (DocNode.mk None)) eq_refl).
  cbn. tauto.
Defined.

(** ** The records of a source file *)

Lemma extractReExport_record (exportDecl : ExportDeclaration.t) (file_ module_ : string)
    (r : ExtractedType) :
  extractReExport exportDecl file_ module_ = Some r ->
  kind r = KReExport /\ exported r = true /\ file r = file_ /\ module r = module_
  /\ fieldsOfKind r
  /\ signature r = "export " ++ name r
  /\ exists specifier,
       ExportDeclaration.getModuleSpecifierValue exportDecl = Some specifier
       /\ specifier <> EmptyString /\ reExportSource r = Some specifier.
Proof.
  unfold extractReExport.
  destruct (ExportDeclaration.getModuleSpecifierValue exportDecl) as [spec|];
    [|discriminate].
  destruct spec as [|c spec]; cbn [truthy negb]; [discriminate|].
  destruct (ExportDeclaration.isNamespaceExport exportDecl).
  - intros [= <-]. unfold fieldsOfKind.
    cbn [kind exported file module signature name reExportSource members properties
           methods typeParameters extends implements fullSignature value docs].
    repeat split; try discriminate.
    exists (String c spec). repeat split. discriminate.
  - destruct (ExportDeclaration.getNamedExports exportDecl) as [|ne nes];
      cbn [List.length Nat.ltb Nat.leb]; [discriminate|].
    intros [= <-]. unfold fieldsOfKind.
    cbn [kind exported file module signature name reExportSource members properties
           methods typeParameters extends implements fullSignature value docs].
    repeat split; try discriminate.
    exists (String c spec). repeat split. discriminate.
Qed.

Ltac record_fields :=
  unfold fieldsOfKind;
  cbn [kind exported file module signature name reExportSource members properties
         methods typeParameters extends implements fullSignature value docs];
  repeat split; try discriminate.

(** X19. Every record that [extractTypes] produces for a source file is
    marked exported, carries the relative path of the file with forward
    slashes and the module name derived from that path, and has the
    optional fields of its kind and no other: for example an enum record
    has [members] and neither [properties] nor [methods], and a class
    record has [extends] and [implements] absent rather than empty. *)
Theorem extractTypes_record_shape :
  forall (relative_ : string -> string -> string) (sep : ascii)
         (whaileysSrcPath : string) (sourceFile : SourceFileNode.t) (r : ExtractedType),
    In r (extractTypesOf relative_ sep whaileysSrcPath sourceFile) ->
    exported r = true
    /\ file r = getRelativePathOf relative_ whaileysSrcPath
                  (SourceFileNode.getFilePath sourceFile)
    /\ module r = getModuleNameOf relative_ sep whaileysSrcPath
                    (SourceFileNode.getFilePath sourceFile)
    /\ fieldsOfKind r.
Proof.
  intros relative_ sep src sourceFile r.
  unfold extractTypesOf, extractTypes, extractDeclaredOf.
  set (rel := getRelativePathOf relative_ src _).
  set (mdl := getModuleNameOf relative_ sep src _).
  rewrite <- !app_assoc. rewrite !in_app_iff.
  intros [H|[H|[H|[H|[H|[H|[H|H]]]]]]];
    try (apply in_map_iff in H as (node & <- & _)).
  - unfold extractInterface. record_fields.
  - unfold extractTypeAlias. record_fields.
  - unfold extractEnum. record_fields.
  - unfold extractFunction. record_fields.
  - unfold extractClass. record_fields.
    + now destruct (ClassDeclaration.getExtends node).
    + now destruct (ClassDeclaration.getImplements node).
  - unfold extractVariable. record_fields.
  - unfold extractNamespace. record_fields.
  - apply in_flat_map in H as (exportDecl & _ & H).
    destruct (extractReExport exportDecl rel mdl) as [x|] eqn:E; [|contradiction].
    destruct H as [<-|[]].
    destruct (extractReExport_record _ _ _ _ E) as (_ & H1 & H2 & H3 & H4 & _).
    now repeat split.
Qed.

Lemma sorted_block (a a' : nat) (block rest : list nat) :
  (a' <= a)%nat ->
  Forall (eq a) block ->
  StronglySorted le rest /\ Forall (le a) rest ->
  StronglySorted le (block ++ rest) /\ Forall (le a') (block ++ rest).
Proof.
  intros Ha Hblock [Hs Hle]. induction Hblock as [|x block <- Hb IH]; cbn [app].
  - split; [exact Hs|]. eapply Forall_impl; [|exact Hle]. intros; lia.
  - destruct IH as [IHs IHle]. split.
    + constructor; [exact IHs|]. apply Forall_app. split; [|exact Hle].
      eapply Forall_impl; [|exact Hb]. intros y <-. lia.
    + constructor; [exact Ha|exact IHle].
Qed.

Lemma block_ranks {N} (f : N -> ExtractedType) (k : ExtractedKind) (nodes : list N) :
  (forall n, kind (f n) = k) ->
  Forall (eq (kindRank k)) (map (fun r => kindRank (kind r)) (map f nodes)).
Proof.
  intros H. rewrite map_map. apply Forall_forall.
  intros x Hx. apply in_map_iff in Hx as (n & <- & _). now rewrite H.
Qed.

(** X20. [extractTypes] emits the records of a source file grouped by
    kind, in the fixed order interface, type alias, enum, function,
    class, variable, namespace, re-export, whatever the order of the
    declarations in the file; and it emits one record per exported
    declaration and at most one per export clause. *)
Theorem extractTypes_grouped_by_kind :
  forall (relative_ : string -> string -> string) (sep : ascii)
         (whaileysSrcPath : string) (sourceFile : SourceFileNode.t),
    let records := extractTypesOf relative_ sep whaileysSrcPath sourceFile in
    StronglySorted le (map (fun r => kindRank (kind r)) records)
    /\ (List.length records
        <= exportedDeclarations sourceFile
           + List.length (SourceFileNode.getExportDeclarations sourceFile))%nat
    /\ List.length (filter (fun r => negb (kind_eqb (kind r) KReExport)) records)
       = exportedDeclarations sourceFile.
Proof.
  intros relative_ sep src sourceFile. cbv zeta.
  unfold extractTypesOf, extractTypes, extractDeclaredOf, exportedDeclarations.
  set (rel := getRelativePathOf relative_ src _).
  set (mdl := getModuleNameOf relative_ sep src _).
  set (reExports := flat_map _ (SourceFileNode.getExportDeclarations sourceFile)).
  assert (Hre : Forall (fun r => kind r = KReExport) reExports).
  { apply Forall_forall. intros r Hr. apply in_flat_map in Hr as (e & _ & Hr).
    destruct (extractReExport e rel mdl) as [x|] eqn:E; [|contradiction].
    destruct Hr as [<-|[]]. now destruct (extractReExport_record _ _ _ _ E). }
  assert (Hlen : (List.length reExports
                  <= List.length (SourceFileNode.getExportDeclarations sourceFile))%nat).
  { clear Hre. subst reExports.
    induction (SourceFileNode.getExportDeclarations sourceFile) as [|e l IH];
      [cbn; lia|].
    cbn [flat_map]. rewrite length_app. cbn [List.length].
    destruct (extractReExport e rel mdl); cbn [List.length]; lia. }
  rewrite <- !app_assoc. split; [|split].
  - rewrite !map_app.
    eapply proj1.
    apply (sorted_block 0 0); [lia|now apply (block_ranks _ KInterface)|].
    apply (sorted_block 1 0); [lia|now apply (block_ranks _ KType)|].
    apply (sorted_block 2 1); [lia|now apply (block_ranks _ KEnum)|].
    apply (sorted_block 3 2); [lia|now apply (block_ranks _ KFunction)|].
    apply (sorted_block 4 3); [lia|now apply (block_ranks _ KClass)|].
    apply (sorted_block 5 4); [lia|now apply (block_ranks _ KVariable)|].
    apply (sorted_block 6 5); [lia|now apply (block_ranks _ KNamespace)|].
    rewrite <- (app_nil_r (map _ reExports)).
    apply (sorted_block 7 6); [lia| |split; constructor].
    apply Forall_forall. intros x Hx. apply in_map_iff in Hx as (r & <- & Hr).
    rewrite Forall_forall in Hre. now rewrite (Hre r Hr).
  - rewrite !length_app, !length_map. lia.
  - rewrite !filter_app, !length_app.
    assert (Hnone : filter (fun r => negb (kind_eqb (kind r) KReExport)) reExports = []).
    { clear Hlen. induction Hre as [|r l Hr _ IH]; [reflexivity|].
      cbn [filter]. now rewrite Hr, IH. }
    rewrite Hnone. cbn [List.length].
    assert (Hall : forall {N} (f : N -> ExtractedType) (nodes : list N),
               (forall n, kind (f n) <> KReExport) ->
               List.length (filter (fun r => negb (kind_eqb (kind r) KReExport))
                              (map f nodes)) = List.length nodes).
    { intros N f nodes Hk. induction nodes as [|n nodes IH]; [reflexivity|].
      cbn [map filter]. destruct (kind_eqb (kind (f n)) KReExport) eqn:E.
      - apply kind_eqb_eq in E. now elim (Hk n).
      - cbn [negb List.length]. now rewrite IH. }
    rewrite !Hall by (intros n; discriminate). lia.
Qed.

(** ** Building the index *)

Section CorpusBuildFacts.

Variable SourceFile : Type.
Variable getFilePath : SourceFile -> string.
Variable getExportDeclarations : SourceFile -> list ExportDeclaration.t.
Variable getRelativePath getModuleName : string -> string.
Variable extractDeclared : SourceFile -> string -> string -> list ExtractedType.
Variable pathJoin : string -> string -> string.
Variable fileAt : string -> option SourceFile.
Variable placeFile : SourceFile -> list SourceFile -> list SourceFile.

Let typesOf :=
  extractTypes SourceFile getFilePath getExportDeclarations
    getRelativePath getModuleName extractDeclared.
Let buildAll :=
  extractAllTypes SourceFile getFilePath getExportDeclarations
    getRelativePath getModuleName extractDeclared.
Let isSkipped := skipped SourceFile getFilePath.

Lemma addSourceFiles_empty (disk : list SourceFile) :
  addSourceFiles SourceFile getFilePath disk [] = disk.
Proof.
  unfold addSourceFiles. cbn [app existsb negb].
  induction disk as [|f disk IH]; [reflexivity|]. cbn [filter]. now rewrite IH.
Qed.

(** X21. The first call of [extractAllTypes] on a new parser returns the
    records of the source files in the order of the project, those files
    left out whose path contains [Tests] or [.d.ts] anywhere, directory
    names and the path of the root included; when every path does, the
    index is empty. *)
Theorem extractAllTypes_first_call :
  forall disk : list SourceFile,
    fst (buildAll disk (newAstParser SourceFile))
    = flat_map typesOf (filter (fun f => negb (isSkipped f)) disk)
    /\ project SourceFile (snd (buildAll disk (newAstParser SourceFile))) = disk
    /\ ((forall f, In f disk ->
                   includes (getFilePath f) "Tests" = true
                   \/ includes (getFilePath f) ".d.ts" = true) ->
        fst (buildAll disk (newAstParser SourceFile)) = []).
Proof.
  intros disk. unfold buildAll, extractAllTypes, newAstParser.
  cbn [cachedTypes project fst snd]. rewrite addSourceFiles_empty.
  split; [reflexivity|]. split; [reflexivity|].
  intros Hall. induction disk as [|f disk IH]; [reflexivity|].
  cbn [filter]. unfold skipped at 1.
  assert (Hf : includes (getFilePath f) "Tests" || includes (getFilePath f) ".d.ts" = true).
  { destruct (Hall f (or_introl eq_refl)) as [H|H]; rewrite H;
      [reflexivity|apply orb_true_r]. }
  rewrite Hf. cbn [negb]. apply IH. intros g Hg. apply Hall. now right.
Qed.


End CorpusBuildFacts.

(** ** Re-export clauses, continued *)

(** X23. An export clause yields no record exactly when it has no
    module specifier or an empty one, or when it is neither a namespace
    export nor has any named export.  The signature of a record it
    yields is its name behind the word [export], and the record carries
    the line of the clause. *)
Theorem extractReExport_yields :
  forall (exportDecl : ExportDeclaration.t) (file_ module_ : string),
    (extractReExport exportDecl file_ module_ = None
     <-> orElse (ExportDeclaration.getModuleSpecifierValue exportDecl) "" = ""
         \/ (ExportDeclaration.isNamespaceExport exportDecl = false
             /\ ExportDeclaration.getNamedExports exportDecl = []))
    /\ forall r, extractReExport exportDecl file_ module_ = Some r ->
         signature r = "export " ++ name r
         /\ kind r = KReExport
         /\ lineNumber r = Some (ExportDeclaration.getStartLineNumber exportDecl).
Proof.
  intros exportDecl file_ module_. split.
  - unfold extractReExport, orElse.
    destruct (ExportDeclaration.getModuleSpecifierValue exportDecl) as [[|c spec]|];
      cbn [truthy negb].
    + split; [now left|reflexivity].
    + destruct (ExportDeclaration.isNamespaceExport exportDecl).
      * split; [discriminate|]. intros [H|[H _]]; discriminate H.
      * destruct (ExportDeclaration.getNamedExports exportDecl) as [|ne nes];
          cbn [List.length Nat.ltb Nat.leb].
        -- split; [now right|reflexivity].
        -- split; [discriminate|]. intros [H|[_ H]]; discriminate H.
    + split; [now left|reflexivity].
  - intros r Hr.
    destruct (extractReExport_record _ _ _ _ Hr) as (Hk & _ & _ & _ & _ & Hsig & _).
    split; [exact Hsig|]. split; [exact Hk|].
    unfold extractReExport in Hr.
    destruct (ExportDeclaration.getModuleSpecifierValue exportDecl) as [spec|];
      [|discriminate].
    destruct (truthy spec); cbn [negb] in Hr; [|discriminate].
    destruct (ExportDeclaration.isNamespaceExport exportDecl);
      [now injection Hr as <-|].
    destruct (0 <? _)%nat; [now injection Hr as <-|discriminate].
Qed.

(** ** Type-text simplification, continued *)

Lemma rev_string_append (acc s : string) :
  rev_string acc s = rev_string EmptyString s ++ acc.
Proof.
  revert acc. induction s as [|c s IH]; intros acc; cbn [rev_string]; [reflexivity|].
  rewrite (IH (String c acc)), (IH (String c EmptyString)).
  now rewrite string_append_assoc.
Qed.

Lemma rev_string_of_append (a b : string) :
  rev_string EmptyString (a ++ b)
  = rev_string EmptyString b ++ rev_string EmptyString a.
Proof.
  induction a as [|c a IH]; cbn [append rev_string].
  - now rewrite append_empty_r.
  - rewrite (rev_string_append (String c EmptyString) (a ++ b)), IH.
    rewrite (rev_string_append (String c EmptyString) a).
    now rewrite string_append_assoc.
Qed.

Lemma rev_string_involutive (s : string) :
  rev_string EmptyString (rev_string EmptyString s) = s.
Proof.
  induction s as [|c s IH]; [reflexivity|]. cbn [rev_string].
  rewrite (rev_string_append (String c EmptyString) s), rev_string_of_append, IH.
  reflexivity.
Qed.

Lemma trimStart_split (s : string) :
  exists lead, s = lead ++ trimStart s /\ allSpaces lead = true.
Proof.
  induction s as [|c s (lead & Hs & Hlead)]; [now exists EmptyString|].
  cbn [trimStart]. destruct (is_space c) eqn:E.
  - exists (String c lead). cbn [append allSpaces]. rewrite E, Hlead. now rewrite <- Hs.
  - now exists EmptyString.
Qed.

Lemma trimStart_first (s : string) : firstIsSpace (trimStart s) = false.
Proof.
  induction s as [|c s IH]; [reflexivity|]. cbn [trimStart].
  destruct (is_space c) eqn:E; [exact IH|]. cbn [firstIsSpace]. exact E.
Qed.

Lemma trimStart_id (s : string) : firstIsSpace s = false -> trimStart s = s.
Proof. destruct s as [|c s]; [reflexivity|]. cbn [firstIsSpace trimStart]. now intros ->. Qed.

Lemma firstIsSpace_append (a b : string) :
  a <> EmptyString -> firstIsSpace (a ++ b) = firstIsSpace a.
Proof. destruct a; [contradiction|reflexivity]. Qed.

Lemma rev_string_empty (s : string) :
  rev_string EmptyString s = EmptyString -> s = EmptyString.
Proof.
  intros H. rewrite <- (rev_string_involutive s), H. reflexivity.
Qed.

(** A text that does not end in white space still does not after
    [trimStart]. *)
Lemma trimStart_last (w : string) :
  lastIsSpace w = false -> lastIsSpace (trimStart w) = false.
Proof.
  unfold lastIsSpace. intros H.
  destruct (trimStart_split w) as (lead & Hw & _).
  destruct (trimStart w) as [|c t] eqn:E; [reflexivity|].
  rewrite Hw, rev_string_of_append, firstIsSpace_append in H; [exact H|].
  intros Hnil. apply rev_string_empty in Hnil. discriminate Hnil.
Qed.

(** What [trim] leaves neither starts nor ends with white space, and
    [trim] cuts white space only: the text is what is left, between two
    runs of white space. *)
Lemma trim_ends (s : string) :
  firstIsSpace (trim s) = false /\ lastIsSpace (trim s) = false
  /\ exists lead trail,
       s = lead ++ trim s ++ trail
       /\ allSpaces lead = true /\ allSpaces trail = true.
Proof.
  unfold trim.
  set (u := trimStart s). set (v := trimStart (rev_string EmptyString u)).
  split; [|split].
  - change (lastIsSpace v = false). apply trimStart_last.
    unfold lastIsSpace. rewrite rev_string_involutive. apply trimStart_first.
  - unfold lastIsSpace. rewrite rev_string_involutive. apply trimStart_first.
  - destruct (trimStart_split s) as (l1 & Hs & Hl1).
    destruct (trimStart_split (rev_string EmptyString u)) as (l2 & Hu & Hl2).
    fold u in Hs. fold v in Hu.
    exists l1, (rev_string EmptyString l2). split; [|split].
    + rewrite <- rev_string_of_append, <- Hu, rev_string_involutive. exact Hs.
    + exact Hl1.
    + rewrite allSpaces_rev_string. exact Hl2.
Qed.

Lemma trim_id (s : string) :
  firstIsSpace s = false -> lastIsSpace s = false -> trim s = s.
Proof.
  intros Hf Hl. unfold trim. rewrite (trimStart_id s Hf).
  rewrite (trimStart_id _ Hl). apply rev_string_involutive.
Qed.

Lemma singleSpaces_weaken (s : string) :
  singleSpaces true s = true -> singleSpaces false s = true.
Proof.
  destruct s as [|c s]; [reflexivity|]. cbn [singleSpaces].
  destruct (is_space c); [|trivial]. cbn [negb]. now rewrite andb_false_r.
Qed.

Lemma singleSpaces_suffix (prev : bool) (a b : string) :
  singleSpaces prev (a ++ b) = true -> singleSpaces false b = true.
Proof.
  revert prev. induction a as [|c a IH]; intros prev; cbn [append].
  - destruct prev; [apply singleSpaces_weaken|trivial].
  - cbn [singleSpaces]. destruct (is_space c).
    + intros H. apply andb_prop in H as [_ H]. exact (IH _ H).
    + apply IH.
Qed.

Lemma singleSpaces_prefix (prev : bool) (a b : string) :
  singleSpaces prev (a ++ b) = true -> singleSpaces prev a = true.
Proof.
  revert prev. induction a as [|c a IH]; intros prev; cbn [append singleSpaces];
    [reflexivity|].
  destruct (is_space c).
  - intros H. apply andb_prop in H as [H1 H2]. now rewrite H1, (IH _ H2).
  - apply IH.
Qed.

(** Replacing the runs of white space by a space leaves single spaces. *)
Lemma collapse_singleSpaces (s : string) :
  singleSpaces false (Regex.replaceFrom Regex.matchSpaces " " 0 s) = true
  /\ singleSpaces true
       (Regex.replaceFrom Regex.matchSpaces " " (Regex.run is_space s) s) = true.
Proof.
  induction s as [|c s [IHa IHb]]; [now split|].
  cbn [Regex.replaceFrom Regex.run]. unfold Regex.matchSpaces. cbn [Regex.run].
  destruct (is_space c) eqn:E.
  - split; [|exact IHb].
    change (singleSpaces true
              (Regex.replaceFrom Regex.matchSpaces " " (Regex.run is_space s) s) = true).
    exact IHb.
  - cbn [singleSpaces]. rewrite E. now split.
Qed.

(** X24. Whatever the text, the result of [simplifyType] neither starts
    nor ends with white space, every white-space code unit in it is a
    single space between two other code units, and trimming it again
    changes nothing. *)
Theorem simplifyType_spacing :
  forall type_ : string,
    firstIsSpace (simplifyType type_) = false
    /\ lastIsSpace (simplifyType type_) = false
    /\ singleSpaces false (simplifyType type_) = true
    /\ trim (simplifyType type_) = simplifyType type_.
Proof.
  intros type_. unfold simplifyType.
  set (collapsed := Regex.replaceAll Regex.matchSpaces " " _).
  destruct (trim_ends collapsed) as (Hf & Hl & lead & trail & Hsplit & _ & _).
  split; [exact Hf|]. split; [exact Hl|]. split; [|now apply trim_id].
  assert (Hc : singleSpaces false collapsed = true)
    by (apply collapse_singleSpaces).
  rewrite Hsplit in Hc. apply singleSpaces_suffix in Hc.
  now apply singleSpaces_prefix in Hc.
Qed.

Lemma includes_cons (c : ascii) (s t : string) :
  includes s t = true -> includes (String c s) t = true.
Proof. intros H. cbn [includes]. rewrite H. apply orb_true_r. Qed.

Lemma includes_of_startsWith (s t : string) :
  startsWith s t = true -> includes s t = true.
Proof. intros H. destruct s; cbn [includes]; now rewrite H. Qed.

Lemma typeofImport_has_import (s : string) :
  startsWith s "typeof import(" = true -> includes s "import(" = true.
Proof.
  intros H.
  do 7 (destruct s as [|? s]; [discriminate H|];
        cbn [startsWith] in H; apply andb_prop in H as [_ H]).
  do 7 apply includes_cons. now apply includes_of_startsWith.
Qed.

(** A replacement whose expression matches at no position changes
    nothing. *)
Lemma replaceAll_no_match (matchAt : string -> option nat) (by_ s : string)
    (here : string -> bool) :
  (forall t, here t = false -> matchAt t = None) ->
  matchesNowhere here s = true ->
  Regex.replaceAll matchAt by_ s = s.
Proof.
  intros Hm. unfold Regex.replaceAll. induction s as [|c s IH]; [reflexivity|].
  cbn [matchesNowhere]. intros H. apply andb_prop in H as [Hh Hs].
  apply negb_true_iff in Hh.
  cbn [Regex.replaceFrom]. rewrite (Hm _ Hh). now rewrite (IH Hs).
Qed.

Lemma startsWith_nowhere (s x : string) :
  includes s x = false -> matchesNowhere (fun t => startsWith t x) s = true.
Proof.
  induction s as [|c s IH]; cbn [includes matchesNowhere].
  - intros H. apply orb_false_elim in H as [H _]. now rewrite H.
  - intros H. apply orb_false_elim in H as [H1 H2]. now rewrite H1, (IH H2).
Qed.

Lemma includes_nowhere (s x : string) :
  includes s x = false -> matchesNowhere (fun t => includes t x) s = true.
Proof.
  induction s as [|c s IH]; intros H.
  - cbn [matchesNowhere]. now rewrite H.
  - cbn [matchesNowhere]. rewrite H. cbn [negb andb].
    cbn [includes] in H. apply orb_false_elim in H as [_ H]. now apply IH.
Qed.

Lemma firstIsSpace_nowhere (s : string) :
  hasSpace s = false -> matchesNowhere firstIsSpace s = true.
Proof.
  induction s as [|c s IH]; [reflexivity|].
  cbn [hasSpace matchesNowhere firstIsSpace]. intros H.
  apply orb_false_elim in H as [Hc Hs]. now rewrite Hc, (IH Hs).
Qed.

Lemma replaceAll_spaces_none (s : string) :
  hasSpace s = false -> Regex.replaceAll Regex.matchSpaces " " s = s.
Proof.
  intros H. apply (replaceAll_no_match _ _ _ firstIsSpace).
  - intros [|c t]; [reflexivity|]. cbn [firstIsSpace]. intros Hc.
    unfold Regex.matchSpaces. cbn [Regex.run]. now rewrite Hc.
  - now apply firstIsSpace_nowhere.
Qed.

Lemma hasSpace_first (s : string) : hasSpace s = false -> firstIsSpace s = false.
Proof.
  destruct s as [|c s]; [reflexivity|]. cbn [hasSpace firstIsSpace].
  intros H. now apply orb_false_elim in H as [H _].
Qed.

Lemma hasSpace_rev_string (acc s : string) :
  hasSpace (rev_string acc s) = hasSpace acc || hasSpace s.
Proof.
  revert acc. induction s as [|c s IH]; intros acc; cbn [rev_string hasSpace].
  - now rewrite orb_false_r.
  - rewrite IH. cbn [hasSpace]. destruct (is_space c), (hasSpace acc); reflexivity.
Qed.

(** X25. A type text without white space and without an occurrence of
    [import(] or [d:/] is returned as it is. *)
Theorem simplifyType_plain_text :
  forall type_ : string,
    hasSpace type_ = false ->
    includes type_ "import(" = false ->
    includes type_ "d:/" = false ->
    simplifyType type_ = type_.
Proof.
  intros type_ Hsp Himp Hdrv. unfold simplifyType.
  assert (H1 : Regex.replaceAll Regex.matchImport "" type_ = type_).
  { apply (replaceAll_no_match _ _ _ (fun t => startsWith t "import(")).
    - intros t Ht. unfold Regex.matchImport, Regex.matchCall. now rewrite Ht.
    - now apply startsWith_nowhere. }
  assert (H2 : Regex.replaceAll Regex.matchTypeofImport "" type_ = type_).
  { apply (replaceAll_no_match _ _ _ (fun t => includes t "import(")).
    - intros t Ht. unfold Regex.matchTypeofImport, Regex.matchCall.
      destruct (startsWith t "typeof import(") eqn:E; [|reflexivity].
      apply typeofImport_has_import in E. congruence.
    - now apply includes_nowhere. }
  rewrite H1, H2, (replaceAll_drive_path_only _ Hdrv), (replaceAll_spaces_none _ Hsp).
  apply trim_id; [now apply hasSpace_first|].
  unfold lastIsSpace. apply hasSpace_first. now rewrite hasSpace_rev_string.
Qed.

Lemma simplifyType_plain_text_witness :
  simplifyType "Record<string,WAMessage[]>" = "Record<string,WAMessage[]>".
Proof.
  apply (simplifyType_plain_text "Record<string,WAMessage[]>"); reflexivity.
Defined.

Lemma run_to_char (c : ascii) (a t : string) :
  hasChar c a = false ->
  Regex.run (Regex.notChar c) (a ++ String c t) = String.length a.
Proof.
  induction a as [|x a IH]; cbn [append hasChar Regex.run String.length].
  - intros _. unfold Regex.notChar. now rewrite Ascii.eqb_refl.
  - intros H. apply orb_false_elim in H as [Hx Ha].
    unfold Regex.notChar at 1. rewrite Hx. cbn [negb]. now rewrite (IH Ha).
Qed.

Lemma drop_append (a b : string) : Regex.drop (String.length a) (a ++ b) = b.
Proof. induction a as [|x a IH]; [now destruct b|exact IH]. Qed.

Lemma replaceFrom_skip (matchAt : string -> option nat) (by_ a b : string) :
  Regex.replaceFrom matchAt by_ (String.length a) (a ++ b)
  = Regex.replaceFrom matchAt by_ 0 b.
Proof.
  induction a as [|x a IH]; [reflexivity|].
  cbn [String.length append Regex.replaceFrom]. exact IH.
Qed.

Lemma matchImport_qualifier (path rest : string) :
  path <> EmptyString ->
  hasChar ")"%char path = false ->
  Regex.matchImport ("import(" ++ path ++ ")." ++ rest)
  = Some (S (String.length ("mport(" ++ path ++ ").")))%nat.
Proof.
  intros Hne Hpath. unfold Regex.matchImport, Regex.matchCall.
  rewrite startsWith_append.
  change (String.length "import(") with 7%nat.
  change (Regex.drop 7 ("import(" ++ path ++ ")." ++ rest)) with (path ++ ")." ++ rest).
  change (path ++ ")." ++ rest) with (path ++ String ")"%char ("." ++ rest)).
  rewrite (run_to_char _ _ _ Hpath), drop_append.
  assert (Hlen : (1 <=? String.length path)%nat = true).
  { destruct path; [contradiction|reflexivity]. }
  rewrite Hlen. cbn [andb append startsWith].
  rewrite !Ascii.eqb_refl, startsWith_empty. cbn [andb].
  f_equal. cbn [String.length]. rewrite string_length_append.
  cbn [String.length]. lia.
Qed.

(** X26. A module qualifier at the start of a type text, [import(],
    a non-empty path without a closing parenthesis, [).], is dropped:
    the result is that of the rest of the text. *)
Theorem simplifyType_drops_import_qualifier :
  forall path rest : string,
    path <> EmptyString ->
    hasChar ")"%char path = false ->
    simplifyType ("import(" ++ path ++ ")." ++ rest) = simplifyType rest.
Proof.
  intros path rest Hne Hpath. unfold simplifyType. do 4 f_equal.
  unfold Regex.replaceAll.
  change ("import(" ++ path ++ ")." ++ rest)
    with (String "i"%char ("mport(" ++ path ++ ")." ++ rest)) at 1.
  cbn [Regex.replaceFrom].
  change (String "i"%char ("mport(" ++ path ++ ")." ++ rest))
    with ("import(" ++ path ++ ")." ++ rest).
  rewrite (matchImport_qualifier path rest Hne Hpath). cbn [append].
  change (String "m" (String "p" (String "o" (String "r" (String "t"
            (String "(" (path ++ String ")" (String "." rest))))))))
    with ("mport(" ++ path ++ ")." ++ rest).
  replace ("mport(" ++ path ++ ")." ++ rest) with (("mport(" ++ path ++ ").") ++ rest).
  - apply replaceFrom_skip.
  - now rewrite !string_append_assoc.
Qed.

Lemma simplifyType_drops_import_qualifier_witness :
  simplifyType ("import(" ++ (dquote ++ "./Types/Message" ++ dquote)
                  ++ ")." ++ "WAMessage")
  = simplifyType "WAMessage".
Proof.
  apply (simplifyType_drops_import_qualifier
           (dquote ++ "./Types/Message" ++ dquote) "WAMessage");
    [discriminate|reflexivity].
Defined.

(** ** Enums *)

(** X27. The record of an enum keeps every member in [members], each as
    its name, an equals sign and its value, whatever their number.  Its
    signature lists them all when there are at most five, and otherwise
    the first five followed by the number of those left out. *)
Theorem extractEnum_preview :
  forall (enumDecl : EnumDeclaration.t) (file_ module_ : string),
    let r := extractEnum enumDecl file_ module_ in
    let rendered := map renderEnumMember (EnumDeclaration.getMembers enumDecl) in
    let n := List.length (EnumDeclaration.getMembers enumDecl) in
    members r = Some rendered
    /\ List.length rendered = n
    /\ ((n <= 5)%nat ->
        signature r = "enum " ++ EnumDeclaration.getName enumDecl
                        ++ " { " ++ join ", " rendered ++ " }")
    /\ ((5 < n)%nat ->
        signature r = "enum " ++ EnumDeclaration.getName enumDecl
                        ++ " { " ++ join ", " (firstn 5 rendered)
                        ++ ", ... (+" ++ decimal (n - 5) ++ ")" ++ " }").
Proof.
  intros enumDecl file_ module_. cbv zeta. unfold extractEnum. cbn [members signature].
  rewrite !length_map, slice0_nonneg by lia. change (Z.to_nat 5) with 5%nat.
  split; [reflexivity|]. split; [reflexivity|]. split.
  - intros Hn. rewrite firstn_all2 by (rewrite length_map; exact Hn).
    apply Nat.ltb_ge in Hn. now rewrite Hn.
  - intros Hn. apply Nat.ltb_lt in Hn. rewrite Hn.
    now rewrite !string_append_assoc.
Qed.

Lemma extractEnum_preview_witness :
  members (extractEnum sampleEnum "Types/State.ts" "Types")
  = Some (map renderEnumMember (EnumDeclaration.getMembers sampleEnum))
  /\ signature (extractEnum sampleEnum "Types/State.ts" "Types")
     = "enum Presence { unavailable = 0, available = 1, composing = "
         ++ dquote ++ "composing" ++ dquote ++ ", recording = "
         ++ dquote ++ "recording" ++ dquote ++ ", paused = "
         ++ dquote ++ "paused" ++ dquote ++ ", ... (+3) }".
Proof.
  destruct (extractEnum_preview sampleEnum "Types/State.ts" "Types")
    as (H1 & _ & _ & H2).
  split; [exact H1|]. rewrite H2; [reflexivity|]. cbn. lia.
Defined.

(** ** Bounds of the fuzzy search *)

(** X28. [fuzzySearch] only returns declarations of the index that
    score above zero, never more than the index holds and, for a limit
    that is not negative, never more than the limit; a negative limit
    cuts that many declarations off the end of the ranking instead. *)
Theorem fuzzySearch_bounds :
  forall (allTypes : list ExtractedType) (query : string) (limit : Z),
    let found := fuzzySearch allTypes query (Some limit) in
    let ranked := sort_desc (queryScore query)
                    (filter (fun t => queryScore query t >? 0) allTypes) in
    (forall r, In r found -> In r allTypes /\ 0 < queryScore query r)
    /\ (List.length found <= List.length allTypes)%nat
    /\ (0 <= limit -> Z.of_nat (List.length found) <= limit)
    /\ (limit < 0 ->
        found = firstn (List.length ranked - Z.to_nat (- limit)) ranked).
Proof.
  intros allTypes query limit. cbv zeta. rewrite fuzzySearch_unfold.
  set (ranked := sort_desc (queryScore query) _).
  assert (Hsub : forall r, In r ranked -> In r allTypes /\ 0 < queryScore query r).
  { intros r Hr. unfold ranked in Hr.
    apply (Permutation_in _ (Permutation_sym (sort_desc_perm _ _))) in Hr.
    apply filter_In in Hr as [Hin Hpos]. split; [exact Hin|]. now apply Z.gtb_lt. }
  assert (Hlen : (List.length ranked <= List.length allTypes)%nat).
  { unfold ranked. rewrite <- (Permutation_length (sort_desc_perm _ _)).
    apply filter_length_le. }
  assert (Hfirst : forall n, incl (firstn n ranked) ranked).
  { intros n x Hx. rewrite <- (firstn_skipn n ranked). apply in_or_app. now left. }
  unfold slice0. repeat split.
  - destruct (limit <? 0); apply (Hsub r); eapply Hfirst; exact H.
  - destruct (limit <? 0); apply (Hsub r); eapply Hfirst; exact H.
  - destruct (limit <? 0); rewrite length_firstn; lia.
  - intros Hlimit. destruct (limit <? 0) eqn:E; [lia|].
    rewrite length_firstn. lia.
  - intros Hlimit. destruct (limit <? 0) eqn:E; [|lia].
    f_equal. lia.
Qed.

Lemma fuzzySearch_bounds_witness :
  Z.of_nat (List.length (fuzzySearch sampleIndex "foo" (Some 2))) <= 2
  /\ map name (fuzzySearch sampleIndex "foo" (Some (-1))) = ["Foo"; "FooBar"].
Proof.
  destruct (fuzzySearch_bounds sampleIndex "foo" 2) as (_ & _ & H & _).
  split; [apply H; lia|reflexivity].
Defined.

(** ** The records of the sample source file *)

Lemma extractTypes_record_shape_witness :
  let r := extractEnum sampleEnum "Types/State.ts" "Types" in
  exported r = true
  /\ file r = "Types/State.ts"
  /\ module r = "Types"
  /\ fieldsOfKind r.
Proof.
  cbv zeta.
  apply (extractTypes_record_shape (fun _ f => f) "/"%char "/repo/src" sampleSourceFile).
  right. left. reflexivity.
Defined.

(** The index of the sample source file: the unexported interface is
    left out, the records come grouped by kind. *)
Example extractTypes_sample :
  map (fun r => (kindString (kind r), name r))
    (extractTypesOf (fun _ f => f) "/"%char "/repo/src" sampleSourceFile)
  = [ ("interface", "State"); ("enum", "Presence"); ("function", "anonymous");
      ("variable", "DEFAULT_STATE");
      ("re-export", "* from " ++ dquote ++ "./a" ++ dquote);
      ("re-export", "{ x, y as z } from " ++ dquote ++ "./b" ++ dquote) ].
Proof. reflexivity. Qed.

(** * The fuzzy score and the pieces of the query *)

Lemma lastIsSpace_cons (c : ascii) (s : string) :
  lastIsSpace (String c s)
  = match s with
    | EmptyString => is_space c
    | _ => lastIsSpace s
    end.
Proof.
  unfold lastIsSpace. destruct s as [|d s]; [reflexivity|].
  change (rev_string EmptyString (String c (String d s)))
    with (rev_string (String c EmptyString) (String d s)).
  rewrite (rev_string_append (String c EmptyString) (String d s)).
  apply firstIsSpace_append. intros H. apply rev_string_empty in H. discriminate H.
Qed.

Lemma endsInSpace_last (c : ascii) (s : string) :
  endsInSpace (is_space c) s = lastIsSpace (String c s).
Proof.
  revert c. induction s as [|d s IH]; intros c; [reflexivity|].
  cbn [endsInSpace]. rewrite IH. symmetry. apply lastIsSpace_cons.
Qed.

Lemma append_not_empty (cur : string) (c : ascii) :
  cur ++ String c EmptyString <> EmptyString.
Proof. destruct cur; discriminate. Qed.

(** The pieces of [split(/\s+/)] and the tokens, summed under any
    weight [B]: the pieces are the tokens and, where the text ends in
    white space, one empty piece more. *)
Lemma split_spaces_from_sum (B : string -> Z) (s : string) :
  (fold_right Z.add 0 (map B (split_spaces_from true EmptyString s))
   = fold_right Z.add 0 (map B (tokensFrom EmptyString s))
     + (if endsInSpace true s then B EmptyString else 0))
  /\ (forall cur, cur <> EmptyString ->
        fold_right Z.add 0 (map B (split_spaces_from false cur s))
        = fold_right Z.add 0 (map B (tokensFrom cur s))
          + (if endsInSpace false s then B EmptyString else 0)).
Proof.
  induction s as [|c s [IHt IHf]].
  - split.
    + cbn. lia.
    + intros cur Hcur. destruct cur; [contradiction|]. cbn. lia.
  - split.
    + cbn [split_spaces_from tokensFrom endsInSpace].
      destruct (is_space c); [exact IHt|].
      apply IHf. apply append_not_empty.
    + intros cur Hcur. cbn [split_spaces_from tokensFrom endsInSpace].
      destruct (is_space c).
      * destruct cur as [|x cur]; [contradiction|].
        cbn [map fold_right]. rewrite IHt. lia.
      * apply IHf. apply append_not_empty.
Qed.

Lemma split_spaces_sum (B : string -> Z) (s : string) :
  fold_right Z.add 0 (map B (split_spaces s))
  = fold_right Z.add 0 (map B (queryTokens s))
    + B EmptyString * Z.of_nat (emptyPieces s).
Proof.
  unfold split_spaces, queryTokens. destruct s as [|c s]; [cbn; lia|].
  destruct (split_spaces_from_sum B s) as [Ht Hf].
  cbn [split_spaces_from tokensFrom]. unfold emptyPieces.
  rewrite <- endsInSpace_last. cbn [firstIsSpace].
  destruct (is_space c).
  - cbn [map fold_right]. rewrite Ht. destruct (endsInSpace true s); cbn; lia.
  - rewrite (Hf _ (append_not_empty EmptyString c)).
    destruct (endsInSpace false s); cbn; lia.
Qed.

Lemma is_space_lower_char (c : ascii) : is_space (lower_char c) = is_space c.
Proof.
  destruct c as [b0 b1 b2 b3 b4 b5 b6 b7].
  destruct b0, b1, b2, b3, b4, b5, b6, b7; reflexivity.
Qed.

Lemma endsInSpace_toLowerCase (prev : bool) (s : string) :
  endsInSpace prev (toLowerCase s) = endsInSpace prev s.
Proof.
  revert prev. induction s as [|c s IH]; intros prev; [reflexivity|].
  cbn [toLowerCase endsInSpace]. now rewrite is_space_lower_char, IH.
Qed.

Lemma emptyPieces_toLowerCase (s : string) :
  emptyPieces (toLowerCase s) = emptyPieces s.
Proof.
  destruct s as [|c s]; [reflexivity|].
  cbn [toLowerCase]. unfold emptyPieces.
  rewrite <- !endsInSpace_last. cbn [firstIsSpace].
  now rewrite is_space_lower_char, endsInSpace_toLowerCase.
Qed.

(** The score the code computes is the score of the tokens and 15 for
    every empty piece. *)
Lemma queryScore_amended (query : string) (t : ExtractedType) :
  queryScore query t = amendedScore query t.
Proof.
  rewrite queryScore_spec. unfold specScore, amendedScore, tokenScore.
  rewrite split_spaces_sum, emptyPieces_toLowerCase.
  change (docsOrEmpty t) with (docsText t).
  unfold tokenBonus at 2. rewrite !includes_empty. lia.
Qed.

Lemma emptyPieces_none (query : string) :
  query <> EmptyString -> firstIsSpace query = false -> lastIsSpace query = false ->
  emptyPieces query = 0%nat.
Proof.
  intros Hne Hf Hl. destruct query; [contradiction|].
  unfold emptyPieces. now rewrite Hf, Hl.
Qed.

(** C1, as the code has it.  For every index and query, [fuzzySearch]
    scores a candidate with 100 for a name equal to the query, else 50
    for a name that starts with it, else 25 for a name that contains it
    (comparisons on lower-cased text), plus 10 and 5 for every
    white-space-separated token of the query found in the name and in the
    documentation text, plus 15 for every empty piece that splitting the
    query at its runs of white space leaves: one for the empty query,
    otherwise one when the query starts with white space and one when it
    ends with it.  For a non-empty query without white space at either
    end that is the score of the tokens alone.  The result is the first
    [limit] elements (20 when no limit is given) of a list [ranked] which
    holds exactly the declarations of positive score, in descending order
    of score, those of equal score in index order. *)
Theorem fuzzySearch_ranks_by_amended_score :
  forall (allTypes : list ExtractedType) (query : string) (limit : Z),
    0 <= limit ->
    (forall t, queryScore query t
               = tokenScore query t + 15 * Z.of_nat (emptyPieces query))
    /\ (query <> EmptyString -> firstIsSpace query = false ->
        lastIsSpace query = false ->
        forall t, amendedScore query t = tokenScore query t)
    /\ exists ranked : list ExtractedType,
         fuzzySearch allTypes query (Some limit) = firstn (Z.to_nat limit) ranked
         /\ fuzzySearch allTypes query None = firstn 20 ranked
         /\ Permutation ranked (filter (fun t => amendedScore query t >? 0) allTypes)
         /\ StronglySorted (descending (amendedScore query)) ranked
         /\ (forall v : Z,
               filter (fun t => amendedScore query t =? v) ranked
               = if 0 <? v
                 then filter (fun t => amendedScore query t =? v) allTypes
                 else []).
Proof.
  intros allTypes query limit Hlimit. split; [|split].
  - intros t. apply queryScore_amended.
  - intros Hne Hf Hl t. unfold amendedScore.
    rewrite (emptyPieces_none query Hne Hf Hl). lia.
  - apply fuzzySearch_ranked_by; [|exact Hlimit].
    intros t. apply queryScore_amended.
Qed.

Lemma fuzzySearch_ranks_by_amended_score_witness :
  0 <= 2
  /\ (forall t, queryScore "the  Foo " t
                = tokenScore "the  Foo " t + 15 * Z.of_nat (emptyPieces "the  Foo "))
  /\ queryTokens (toLowerCase "the  Foo ") = ["the"; "foo"]
  /\ emptyPieces "the  Foo " = 1%nat
  /\ exists ranked : list ExtractedType,
       fuzzySearch sampleIndex "the  Foo " (Some 2) = firstn (Z.to_nat 2) ranked
       /\ fuzzySearch sampleIndex "the  Foo " None = firstn 20 ranked
       /\ Permutation ranked
            (filter (fun t => amendedScore "the  Foo " t >? 0) sampleIndex)
       /\ StronglySorted (descending (amendedScore "the  Foo ")) ranked
       /\ (forall v : Z,
             filter (fun t => amendedScore "the  Foo " t =? v) ranked
             = if 0 <? v
               then filter (fun t => amendedScore "the  Foo " t =? v) sampleIndex
               else []).
Proof.
  destruct (fuzzySearch_ranks_by_amended_score sampleIndex "the  Foo " 2)
    as (H1 & _ & H3); [lia|].
  split; [lia|]. split; [exact H1|]. split; [reflexivity|]. split; [reflexivity|].
  exact H3.
Defined.

(** C1 as stated fails: for the query [Foo] followed by a space, [Baz]
    contains neither the query nor its one token and scores 0 by the
    tokens, so that it should be left out; the code gives it 15 for the
    empty piece behind the space and returns it. *)
Lemma fuzzySearch_token_score_counterexample :
  let baz := sampleDecl "Baz" KInterface "Types" None None None in
  In baz sampleIndex
  /\ queryTokens (toLowerCase "Foo ") = ["foo"]
  /\ tokenScore "Foo " baz = 0
  /\ ~ In baz (filter (fun t => tokenScore "Foo " t >? 0) sampleIndex)
  /\ queryScore "Foo " baz = 15
  /\ In baz (fuzzySearch sampleIndex "Foo " None)
  /\ map name (fuzzySearch sampleIndex "Foo " None) = ["FooBar"; "xFoo"; "Foo"; "Baz"].
Proof.
  cbv zeta. split; [cbn; tauto|]. split; [reflexivity|]. split; [reflexivity|].
  split.
  - intros H. apply filter_In in H as [_ H]. discriminate H.
  - split; [reflexivity|]. split; [|reflexivity].
    cbn. right. right. right. left. reflexivity.
Qed.
